(** * Rule evaluation and tag application of the store-verification app

    A shallow embedding of

    - [app/lib/productRules.server.ts]: [evaluateProductRules],
      [evaluateSingleRule], [compareNumeric], [mergeProductTags],
      [getRulesForShop];
    - [app/webhooks/products.server.ts]: [mapWebhookPayloadToProduct],
      [applyProductRulesForShop];
    - the writes of the rule store, [createRuleForShop] and
      [toggleRuleEnabled];
    - [app/lib/shop.server.ts] and [app/lib/settings.server.ts], over the
      tables of the database;
    - the actions of the routes: the product webhooks, the uninstall
      webhook, the rules page and the settings page;
    - [scripts/backfill-products.ts]: [graphQLProductToWebhookPayload];

    together with the JavaScript built-ins these functions call
    ([String.prototype.trim], [toLowerCase], [split], [parseFloat],
    [parseInt], [Set], the [number] comparisons and addition).

    Conventions of the embedding.

    - A JavaScript string is a [string]; the character of code [n] stands for
      the UTF-16 code unit U+00[n], so the strings covered are the ones whose
      code units lie in Basic Latin and Latin-1 Supplement.  On these,
      [trim], [toLowerCase], [split], [parseFloat] and [parseInt] below are
      the built-ins of ECMAScript, code unit by code unit.
    - A JavaScript number is a [spec_float] at the binary64 format
      (precision 53, [emax] 1024); NaN carries no payload, as in JavaScript.
      [parseFloat] and [parseInt] round the decimal they read to the nearest
      number, ties to even.
    - [RuleField] and [RuleOperator] are unions of three string literals
      and become enumerations; the [default] branches of the two [switch]
      statements, for values outside these types, have no counterpart.
    - [null] and [undefined] are both [None]: the code only tests them
      with [== null], [!x], [?.] and [??], which do not tell them apart.
    - A [Set<string>] is the list of its elements in insertion order.
    - A call of a method on [null] throws: [Completion] records it. *)

From Stdlib Require Import ZArith Ascii String List Bool Lia SpecFloat DecimalString.
From Stdlib Require Import Sorted.
From Stdlib Require DecimalZ DecimalPos DecimalN.
From stdpp Require Import base decidable option list strings sets gmap.

Local Open Scope string_scope.
Local Open Scope Z_scope.

(** ** JavaScript built-ins *)

Module JS.

(** *** Completions: a value, or a thrown error *)

Inductive Error : Type :=
| TypeError (message : string).

Inductive Completion (A : Type) : Type :=
| Normal (value : A)
| Throw (error : Error).
Arguments Normal {A} value.
Arguments Throw {A} error.

#[global] Instance Completion_ret : MRet Completion := fun A a => Normal a.

#[global] Instance Completion_bind : MBind Completion := fun A B k c =>
  match c with
  | Normal a => k a
  | Throw e => Throw e
  end.

(** *** Code units *)

Definition code (c : ascii) : N := N_of_ascii c.

(** [WhiteSpace] and [LineTerminator] of ECMAScript below U+0100: TAB, LF,
    VT, FF, CR, SP and NBSP. *)
Definition isWhiteSpace (c : ascii) : bool :=
  let n := code c in
  ((9 <=? n) && (n <=? 13) || (n =? 32) || (n =? 160))%N.

Definition isDigit (c : ascii) : bool :=
  let n := code c in ((48 <=? n) && (n <=? 57))%N.

Definition digitValue (c : ascii) : Z := Z.of_N (code c) - 48.

(** Upper-case letters below U+0100: A-Z and U+00C0-U+00DE without the
    multiplication sign U+00D7; each has its lower case 32 further. *)
Definition isUpper (c : ascii) : bool :=
  let n := code c in
  ((65 <=? n) && (n <=? 90) || (192 <=? n) && (n <=? 222) && negb (n =? 215))%N.

Definition lowerChar (c : ascii) : ascii :=
  if isUpper c then ascii_of_N (code c + 32) else c.

(** *** String.prototype methods *)

Fixpoint trimStart (s : string) : string :=
  match s with
  | String c s' => if isWhiteSpace c then trimStart s' else s
  | EmptyString => EmptyString
  end.

Fixpoint trimEnd (s : string) : string :=
  match s with
  | String c s' =>
      match trimEnd s' with
      | EmptyString => if isWhiteSpace c then EmptyString else String c EmptyString
      | t => String c t
      end
  | EmptyString => EmptyString
  end.

Definition trim (s : string) : string := trimEnd (trimStart s).

Fixpoint toLowerCase (s : string) : string :=
  match s with
  | String c s' => String (lowerChar c) (toLowerCase s')
  | EmptyString => EmptyString
  end.

(** [s.split(sep)] for a separator of one code unit: the pieces between
    the separators, so that there is always at least one piece. *)
Fixpoint split (sep : ascii) (s : string) : list string :=
  match s with
  | EmptyString => [EmptyString]
  | String c s' =>
      if Ascii.eqb c sep then EmptyString :: split sep s'
      else match split sep s' with
           | piece :: pieces => String c piece :: pieces
           | [] => [String c EmptyString]
           end
  end.

(** [s.length > 0] *)
Definition nonEmpty (s : string) : bool :=
  match s with EmptyString => false | String _ _ => true end.

(** *** Numbers *)

Definition prec : Z := 53.
Definition emax : Z := 1024.

Definition number : Type := spec_float.

Definition NaN : number := S754_nan.

Definition isNaN (x : number) : bool :=
  match x with S754_nan => true | _ => false end.

(** The number of a mathematical integer, rounded to nearest even. *)
Definition ofZ (z : Z) : number := binary_normalize prec emax z 0 false.

(** [x + y], [x < y], [x > y], [x === y] on numbers. *)
Definition add (x y : number) : number := SFadd prec emax x y.
Definition lt (x y : number) : bool := SFltb x y.
Definition gt (x y : number) : bool := SFltb y x.
Definition strictEquals (x y : number) : bool := SFeqb x y.

(** *** Numeric literals in strings *)

Fixpoint spanDigits (s : string) : string * string :=
  match s with
  | String c s' =>
      if isDigit c then let (d, r) := spanDigits s' in (String c d, r)
      else (EmptyString, s)
  | EmptyString => (EmptyString, EmptyString)
  end.

Fixpoint decimalValueFrom (acc : Z) (digits : string) : Z :=
  match digits with
  | String c d => decimalValueFrom (10 * acc + digitValue c) d
  | EmptyString => acc
  end.

Definition decimalValue (digits : string) : Z := decimalValueFrom 0 digits.

(** An optional sign: [true] for a minus. *)
Definition readSign (s : string) : bool * string :=
  match s with
  | String "-" s' => (true, s')
  | String "+" s' => (false, s')
  | _ => (false, s)
  end.

(** The number nearest to [m * 10 ^ e10], for [0 <= m]. *)
Definition decimalToNumber (negative : bool) (m e10 : Z) : number :=
  match m with
  | Zpos p =>
      if 0 <=? e10 then
        match m * 10 ^ e10 with
        | Zpos q => binary_round prec emax negative q 0
        | _ => S754_zero negative
        end
      else
        let '(q, e, l) := SFdiv_core_binary prec emax m 0 (10 ^ (- e10)) 0 in
        binary_round_aux prec emax negative q e l
  | _ => S754_zero negative
  end.

(** The exponent part [e], [e+] or [e-] followed by digits; without a
    digit it is not part of the literal. *)
Definition readExponent (s : string) : Z :=
  match s with
  | String c s' =>
      if Ascii.eqb c "e" || Ascii.eqb c "E" then
        let (negative, s'') := readSign s' in
        let (d, _) := spanDigits s'' in
        if nonEmpty d then (if negative then - decimalValue d else decimalValue d)
        else 0
      else 0
  | EmptyString => 0
  end.

(** [parseFloat(s)]: the longest prefix of the string, trimmed at its
    start, that is a [StrDecimalLiteral]; NaN without one. *)
Definition parseFloat (input : string) : number :=
  let (negative, body) := readSign (trimStart input) in
  if String.prefix "Infinity" body then S754_infinity negative
  else
    let (intPart, afterInt) := spanDigits body in
    let (fracPart, afterFrac) :=
      match afterInt with
      | String c s' => if Ascii.eqb c "." then spanDigits s' else (EmptyString, afterInt)
      | EmptyString => (EmptyString, afterInt)
      end in
    if nonEmpty intPart || nonEmpty fracPart then
      decimalToNumber negative (decimalValue (intPart ++ fracPart))
        (readExponent afterFrac - Z.of_nat (String.length fracPart))
    else NaN.

(** [parseInt(s, 10)]: the longest prefix of decimal digits after the
    white space and the sign; NaN without a digit. *)
Definition parseInt10 (input : string) : number :=
  let (negative, body) := readSign (trimStart input) in
  let (digits, _) := spanDigits body in
  if nonEmpty digits then decimalToNumber negative (decimalValue digits) 0
  else NaN.

(** *** Set<string>, in insertion order *)

Abbreviation JSSet := (list string) (only parsing).

Definition has (set : JSSet) (x : string) : bool := bool_decide (x ∈ set).

Definition setAdd (set : JSSet) (x : string) : JSSet :=
  if has set x then set else set ++ [x].

(** [new Set(iterable)] *)
Definition newSet (items : list string) : JSSet := fold_left setAdd items [].

(** [Array.from(set)] *)
Definition arrayFrom (set : JSSet) : list string := set.

End JS.


Import JS.

(** ** app/lib/productRules.server.ts *)

Module RuleField.
Inductive t : Type := price | inventory | vendor.
End RuleField.

Module RuleOperator.
Inductive t : Type := gt | lt | eq.

Definition eqb (a b : t) : bool :=
  match a, b with
  | gt, gt | lt, lt | eq, eq => true
  | _, _ => false
  end.
End RuleOperator.

Module ProductRule.
(** [createdAt] is the date as its time value in milliseconds. *)
Record t : Type := mk {
  id : string;
  shopId : string;
  field : RuleField.t;
  operator : RuleOperator.t;
  value : string;
  tag : string;
  enabled : bool;
  createdAt : Z
}.
End ProductRule.

Module ProductForEvaluation.
Record t : Type := mk {
  price : option number;
  totalInventory : option number;
  vendor : option string
}.
End ProductForEvaluation.

Definition compareNumeric (actual target : number) (operator : RuleOperator.t) : bool :=
  match operator with
  | RuleOperator.gt => JS.gt actual target
  | RuleOperator.lt => JS.lt actual target
  | RuleOperator.eq => JS.strictEquals actual target
  end.

(** [!v] for [v : string | null | undefined]: absent or empty. *)
Definition falsy (v : option string) : bool :=
  match v with
  | Some s => negb (nonEmpty s)
  | None => true
  end.

(** [v.trim()] on a possibly absent string: a method call on [null]
    throws a [TypeError]. *)
Definition callTrim (v : option string) : Completion string :=
  match v with
  | Some s => Normal (trim s)
  | None => Throw (TypeError "Cannot read properties of null (reading 'trim')")
  end.

Definition evaluateSingleRule (product : ProductForEvaluation.t) (rule : ProductRule.t)
  : Completion bool :=
  match ProductRule.field rule with
  | RuleField.price =>
      match ProductForEvaluation.price product with
      | None => Normal false
      | Some price =>
          let target := parseFloat (ProductRule.value rule) in
          if isNaN target then Normal false
          else Normal (compareNumeric price target (ProductRule.operator rule))
      end
  | RuleField.inventory =>
      match ProductForEvaluation.totalInventory product with
      | None => Normal false
      | Some totalInventory =>
          let target := parseInt10 (ProductRule.value rule) in
          if isNaN target then Normal false
          else Normal (compareNumeric totalInventory target (ProductRule.operator rule))
      end
  | RuleField.vendor =>
      if falsy (ProductForEvaluation.vendor product) then Normal false
      else if negb (RuleOperator.eqb (ProductRule.operator rule) RuleOperator.eq)
      then Normal false
      else
        trimmed ← callTrim (ProductForEvaluation.vendor product);
        Normal (String.eqb (toLowerCase trimmed) (toLowerCase (trim (ProductRule.value rule))))
  end.

(** The body of [for (const rule of rules)], with the set [tags] as state. *)
Fixpoint evaluateLoop (product : ProductForEvaluation.t) (rules : list ProductRule.t)
    (tags : JSSet) : Completion JSSet :=
  match rules with
  | [] => Normal tags
  | rule :: rest =>
      if negb (ProductRule.enabled rule) then evaluateLoop product rest tags
      else
        matched ← evaluateSingleRule product rule;
        evaluateLoop product rest
          (if matched : bool then setAdd tags (ProductRule.tag rule) else tags)
  end.

Definition evaluateProductRules (product : ProductForEvaluation.t)
    (rules : list ProductRule.t) : Completion (list string) :=
  tags ← evaluateLoop product rules [];
  Normal (arrayFrom tags).

(** One turn of [for (const tag of ruleTags)] on the state [(set, changed)]. *)
Definition mergeStep (state : JSSet * bool) (tag : string) : JSSet * bool :=
  let (set, changed) := state in
  if negb (has set tag) then (setAdd set tag, true) else (set, changed).

(** [None] is the [null] of "no change required". *)
Definition mergeProductTags (existingTags ruleTags : list string) : option (list string) :=
  let (set, changed) := fold_left mergeStep ruleTags (newSet existingTags, false) in
  if changed then Some (arrayFrom set) else None.

(** *** The rule store *)

Module Shop.
Record t : Type := mk {
  id : string;
  shopDomain : string
}.
End Shop.

Record Database : Type := {
  shops : list Shop.t;
  product_rules : list ProductRule.t
}.

(** [orderBy: { createdAt: "asc" }], rows of one date left in their order. *)
Fixpoint insertByCreatedAt (rule : ProductRule.t) (sorted : list ProductRule.t)
  : list ProductRule.t :=
  match sorted with
  | [] => [rule]
  | r :: rest =>
      if ProductRule.createdAt rule <=? ProductRule.createdAt r
      then rule :: sorted
      else r :: insertByCreatedAt rule rest
  end.

Definition orderByCreatedAt (rules : list ProductRule.t) : list ProductRule.t :=
  fold_right insertByCreatedAt [] rules.

(** [prisma.productRule.findMany({ where: { shopId }, orderBy: ... })] *)
Definition getRulesForShop (db : Database) (shopId : string) : list ProductRule.t :=
  orderByCreatedAt
    (List.filter (fun rule => String.eqb (ProductRule.shopId rule) shopId)
                 (product_rules db)).

(** [prisma.shop.findUnique({ where: { shopDomain }, select: { id: true } })] *)
Definition findUniqueShop (db : Database) (shopDomain : string) : option string :=
  Shop.id <$> List.find (fun shop => String.eqb (Shop.shopDomain shop) shopDomain) (shops db).

(** ** app/webhooks/products.server.ts *)

Module Variant.
Record t : Type := mk {
  price : option string;
  inventory_quantity : option number
}.
End Variant.

Module ProductWebhookPayload.
(** [id] is the integer the webhook sends; below 10^21 its string in a
    template literal is its decimal notation. *)
Record t : Type := mk {
  id : Z;
  vendor : option string;
  variants : option (list Variant.t);
  tags : option string
}.
End ProductWebhookPayload.

Module MappedProduct.
Record t : Type := mk {
  shopifyProductId : string;
  productForEvaluation : ProductForEvaluation.t;
  existingTags : list string
}.
End MappedProduct.

(** [`${n}`] for an integer [n]. *)
Definition numberToString (n : Z) : string := NilZero.string_of_int (Z.to_int n).

Definition mapWebhookPayloadToProduct (payload : ProductWebhookPayload.t) : MappedProduct.t :=
  let shopifyProductId :=
    ("gid://shopify/Product/" ++ numberToString (ProductWebhookPayload.id payload))%string in
  let firstVariant := ProductWebhookPayload.variants payload ≫= head in
  let price :=
    match firstVariant ≫= Variant.price with
    | Some p => Some (parseFloat p)
    | None => None
    end in
  let totalInventory :=
    (fun variants =>
       fold_left
         (fun sum variant =>
            let qty := default (ofZ 0) (Variant.inventory_quantity variant) in
            add sum qty)
         variants (ofZ 0))
    <$> ProductWebhookPayload.variants payload in
  let vendor := ProductWebhookPayload.vendor payload in
  let existingTags :=
    default []
      ((fun tags => List.filter nonEmpty (map trim (split "," tags)))
       <$> ProductWebhookPayload.tags payload) in
  MappedProduct.mk
    shopifyProductId
    (ProductForEvaluation.mk
       (if isNaN (default NaN price) then None else price)
       totalInventory
       vendor)
    existingTags.

(** *** The product mutation *)

Module ProductInput.
Record t : Type := mk {
  id : string;
  tags : list string
}.
End ProductInput.

Module UserError.
Record t : Type := mk {
  field : option (list string);
  message : string
}.
End UserError.

(** The body of the response, as far as the code reads it. *)
Module GraphqlJson.
Record productUpdate_t : Type := mkProductUpdate {
  userErrors : option (list UserError.t)
}.
Record data_t : Type := mkData {
  productUpdate : option productUpdate_t
}.
Record t : Type := mk {
  data : option data_t
}.
End GraphqlJson.

(** [admin.graphql(query, { variables: { input } })], with the body of its
    response. *)
Definition AdminContext : Type := string -> ProductInput.t -> GraphqlJson.t.

(** What an invocation does to the world, in order. *)
Inductive Effect : Type :=
| ConsoleWarn (message : string)
| ConsoleError (message : string) (userErrors : list UserError.t)
| GraphqlCall (query : string) (input : ProductInput.t).

Definition mutation : string :=
"
    mutation AutoTagProduct($input: ProductInput!) {
      productUpdate(input: $input) {
        product {
          id
          tags
        }
        userErrors {
          field
          message
        }
      }
    }
  ".

(** The effects of an invocation and how its promise settles. *)
Definition applyProductRulesForShop (db : Database) (shopDomain : string)
    (admin : AdminContext) (payload : ProductWebhookPayload.t)
  : list Effect * Completion unit :=
  match findUniqueShop db shopDomain with
  | None =>
      ([ConsoleWarn ("No Shop record found for domain " ++ shopDomain)%string], Normal tt)
  | Some shopRecordId =>
      let rules := getRulesForShop db shopRecordId in
      if (length rules =? 0)%nat then ([], Normal tt)
      else
        let mapped := mapWebhookPayloadToProduct payload in
        match evaluateProductRules (MappedProduct.productForEvaluation mapped) rules with
        | Throw e => ([], Throw e)
        | Normal ruleTags =>
            if (length ruleTags =? 0)%nat then ([], Normal tt)
            else
              match mergeProductTags (MappedProduct.existingTags mapped) ruleTags with
              | None => ([], Normal tt)
              | Some mergedTags =>
                  let input :=
                    ProductInput.mk (MappedProduct.shopifyProductId mapped) mergedTags in
                  let json := admin mutation input in
                  let userErrors :=
                    default []
                      ((GraphqlJson.data json ≫= GraphqlJson.productUpdate)
                       ≫= GraphqlJson.userErrors) in
                  if (0 <? length userErrors)%nat
                  then ([GraphqlCall mutation input;
                         ConsoleError "AutoTagProduct userErrors" userErrors], Normal tt)
                  else ([GraphqlCall mutation input], Normal tt)
              end
        end
  end.

(** The product mutations among the effects. *)
Definition mutationCalls (effects : list Effect) : list ProductInput.t :=
  omap (fun e => match e with GraphqlCall _ input => Some input | _ => None end) effects.

(** ** Notions of the specification

    These are written from the words of the specification, to be compared
    with what the code computes. *)

(** Two code units are the same letter up to case: equal, or one is the
    lower case of the other. *)
Definition sameLetter (c d : ascii) : Prop :=
  c = d ∨
  (isUpper c = true ∧ code d = (code c + 32)%N) ∨
  (isUpper d = true ∧ code c = (code d + 32)%N).

(** Equality of strings up to the case of their letters. *)
Fixpoint equalIgnoringCase (a b : string) : Prop :=
  match a, b with
  | EmptyString, EmptyString => True
  | String c a', String d b' => sameLetter c d ∧ equalIgnoringCase a' b'
  | _, _ => False
  end.

Fixpoint allWhiteSpace (s : string) : bool :=
  match s with
  | EmptyString => true
  | String c s' => isWhiteSpace c && allWhiteSpace s'
  end.

(** [a] is [core] with white space before and after it. *)
Definition padded (a core : string) : Prop :=
  ∃ before after : string,
    allWhiteSpace before = true ∧ allWhiteSpace after = true ∧
    a = (before ++ core ++ after)%string.

(** "Case-insensitive and trims leading/trailing whitespace on both sides":
    the two strings are white space around cores that are equal up to case. *)
Definition vendorEquivalent (a b : string) : Prop :=
  ∃ coreA coreB : string,
    padded a coreA ∧ padded b coreB ∧ equalIgnoringCase coreA coreB.

(** A string begins, after white space and a sign, like a decimal number:
    [Infinity], a digit, or a point before a digit. *)
Definition beginsNumeral (body : string) : bool :=
  String.prefix "Infinity" body ||
  match body with
  | String c rest =>
      isDigit c ||
      (Ascii.eqb c "." && match rest with String d _ => isDigit d | EmptyString => false end)
  | EmptyString => false
  end.

Definition readsAsFloat (s : string) : bool := beginsNumeral (readSign (trimStart s)).2.

(** A string begins, after white space and a sign, with a digit. *)
Definition readsAsInt (s : string) : bool :=
  match (readSign (trimStart s)).2 with
  | String c _ => isDigit c
  | EmptyString => false
  end.

(** A rule value that does not read as a number of the kind of the rule's
    field. *)
Definition valueUnparsable (rule : ProductRule.t) : bool :=
  match ProductRule.field rule with
  | RuleField.price => negb (readsAsFloat (ProductRule.value rule))
  | RuleField.inventory => negb (readsAsInt (ProductRule.value rule))
  | RuleField.vendor => false
  end.

(** The record does not know the field of the rule. *)
Definition fieldUnknown (product : ProductForEvaluation.t) (rule : ProductRule.t) : bool :=
  match ProductRule.field rule with
  | RuleField.price => bool_decide (ProductForEvaluation.price product = None)
  | RuleField.inventory => bool_decide (ProductForEvaluation.totalInventory product = None)
  | RuleField.vendor => bool_decide (ProductForEvaluation.vendor product = None)
  end.

(** Rules for the examples: enabled, of the shop "shop-1". *)
Definition ruleOf (field : RuleField.t) (operator : RuleOperator.t) (value tag : string)
  : ProductRule.t :=
  ProductRule.mk "rule-1" "shop-1" field operator value tag true 0.

(** "The sum of all variants' inventory counts, treating a missing count
    on any variant as zero", added from left to right as numbers. *)
Definition countOrZero (variant : Variant.t) : number :=
  default (ofZ 0) (Variant.inventory_quantity variant).

Definition inventorySum (variants : list Variant.t) : number :=
  fold_left add (map countOrZero variants) (ofZ 0).

(** The sum of integer counts, and the sum of their absolute values. *)
Definition integerSum (counts : list Z) : Z := fold_right Z.add 0 counts.

Definition absoluteSum (counts : list Z) : Z :=
  fold_right (fun n acc => Z.abs n + acc) 0 counts.

(** The mantissa [p] shifted left by [n] bits, the number of bits of a
    mantissa, and the number of the integer of sign [s] and absolute value
    [p] when it has at most 53 bits: its mantissa is brought to 53 bits. *)
Definition shl (p : positive) (n : nat) : positive := Nat.iter n xO p.

Definition digits (p : positive) : Z := Zpos (digits2_pos p).

Definition canonical (s : bool) (p : positive) : number :=
  S754_finite s (shl p (Z.to_nat (53 - digits p))) (digits p - 53).

(** The code unit [c] occurs in [s]. *)
Fixpoint occurs (c : ascii) (s : string) : bool :=
  match s with
  | EmptyString => false
  | String d s' => Ascii.eqb d c || occurs c s'
  end.

(** The rules that the store holds for the shop of a domain: the rules of
    its shop record; a domain without a shop record has none. *)
Definition storedRuleList (db : Database) (shopDomain : string) : list ProductRule.t :=
  match findUniqueShop db shopDomain with
  | Some shopId => getRulesForShop db shopId
  | None => []
  end.

(** ** Inputs of the scenarios of the specification *)

Definition expensiveRule : ProductRule.t :=
  ruleOf RuleField.price RuleOperator.gt "100" "expensive".

Definition lowStockRule : ProductRule.t :=
  ruleOf RuleField.inventory RuleOperator.lt "5" "low-stock".

Definition disabledRule : ProductRule.t :=
  ProductRule.mk "rule-2" "shop-1" RuleField.price RuleOperator.gt "100" "expensive" false 1.

Definition pricedAt (price : Z) : ProductForEvaluation.t :=
  ProductForEvaluation.mk (Some (ofZ price)) None None.

Definition shopDatabase (rules : list ProductRule.t) : Database :=
  {| shops := [Shop.mk "shop-1" "shop-1.myshopify.com"]; product_rules := rules |}.

(** A product mutation that reports no error. *)
Definition quietAdmin : AdminContext :=
  fun _ _ => GraphqlJson.mk (Some (GraphqlJson.mkData (Some (GraphqlJson.mkProductUpdate (Some []))))).

Definition payloadPricedAt (price : string) (tags : string) : ProductWebhookPayload.t :=
  ProductWebhookPayload.mk 42 None (Some [Variant.mk (Some price) None]) (Some tags).

(** ** Writes of the rule store (app/lib/productRules.server.ts) *)

(** How a query of the database client fails. *)
Inductive PrismaError : Type :=
| UniqueConstraintFailed
| ForeignKeyConstraintFailed
| RecordNotFound.

(** A settled promise of the database client. *)
Inductive Promise (A : Type) : Type :=
| Resolved (value : A)
| Rejected (reason : PrismaError).
Arguments Resolved {A} value.
Arguments Rejected {A} reason.

(** [Omit<ProductRule, "id" | "shopId" | "createdAt">] *)
Module RuleData.
Record t : Type := mk {
  field : RuleField.t;
  operator : RuleOperator.t;
  value : string;
  tag : string;
  enabled : bool
}.
End RuleData.

(** [prisma.productRule.create({ data })]. The columns [id] and
    [createdAt] get their defaults: [newId] stands for the fresh id and
    [now] for the current time. The table has [id] as its primary key and
    [shopId] as a foreign key into the shops. *)
Definition createRuleForShop (db : Database) (newId : string) (now : Z)
    (shopId : string) (data : RuleData.t) : Promise (Database * ProductRule.t) :=
  if existsb (fun rule => String.eqb (ProductRule.id rule) newId) (product_rules db)
  then Rejected UniqueConstraintFailed
  else if negb (existsb (fun shop => String.eqb (Shop.id shop) shopId) (shops db))
  then Rejected ForeignKeyConstraintFailed
  else
    let created :=
      ProductRule.mk newId shopId (RuleData.field data) (RuleData.operator data)
        (RuleData.value data) (RuleData.tag data) (RuleData.enabled data) now in
    Resolved ({| shops := shops db; product_rules := product_rules db ++ [created] |},
              created).

(** [data: { enabled }] on one row. *)
Definition setEnabled (enabled : bool) (rule : ProductRule.t) : ProductRule.t :=
  ProductRule.mk (ProductRule.id rule) (ProductRule.shopId rule) (ProductRule.field rule)
    (ProductRule.operator rule) (ProductRule.value rule) (ProductRule.tag rule)
    enabled (ProductRule.createdAt rule).

(** [prisma.productRule.updateMany({ where: { id: ruleId, shopId }, data: { enabled } })] *)
Definition toggleRuleEnabled (db : Database) (shopId ruleId : string) (enabled : bool)
  : Database :=
  {| shops := shops db;
     product_rules :=
       map (fun rule =>
              if String.eqb (ProductRule.id rule) ruleId
                 && String.eqb (ProductRule.shopId rule) shopId
              then setEnabled enabled rule else rule)
           (product_rules db) |}.

(** The order of [orderBy: { createdAt: "asc" }]. *)
Definition createdBefore (a b : ProductRule.t) : Prop :=
  ProductRule.createdAt a ≤ ProductRule.createdAt b.

(** The row that a toggle of the rule [ruleId] of the shop [shopId] leaves. *)
Definition toggled (shopId ruleId : string) (enabled : bool) (rule : ProductRule.t)
  : ProductRule.t :=
  if String.eqb (ProductRule.id rule) ruleId && String.eqb (ProductRule.shopId rule) shopId
  then setEnabled enabled rule else rule.

(** The rule with another operator. *)
Definition withOperator (operator : RuleOperator.t) (rule : ProductRule.t) : ProductRule.t :=
  ProductRule.mk (ProductRule.id rule) (ProductRule.shopId rule) (ProductRule.field rule)
    operator (ProductRule.value rule) (ProductRule.tag rule)
    (ProductRule.enabled rule) (ProductRule.createdAt rule).

(** Exactly one of three booleans is true. *)
Definition exactlyOne (a b c : bool) : Prop :=
  (a = true ∧ b = false ∧ c = false) ∨
  (a = false ∧ b = true ∧ c = false) ∨
  (a = false ∧ b = false ∧ c = true).

(** The rule tags that the existing tags lack, each once, in the order of
    their first occurrence. *)
Definition newTags (existingTags ruleTags : list string) : list string :=
  newSet (List.filter (fun tag => negb (has existingTags tag)) ruleTags).

(** ** Tags as the store of products keeps them *)

(** A tag that survives the comma-joined string of a payload: not empty,
    without white space around it and without a comma. *)
Definition cleanTag (tag : string) : bool :=
  nonEmpty tag && String.eqb (trim tag) tag && negb (occurs "," tag).

(** The payload of the same product with another tags string. *)
Definition withTags (payload : ProductWebhookPayload.t) (tags : string)
  : ProductWebhookPayload.t :=
  ProductWebhookPayload.mk (ProductWebhookPayload.id payload)
    (ProductWebhookPayload.vendor payload) (ProductWebhookPayload.variants payload)
    (Some tags).


(** ** The shops and their settings
    (app/lib/shop.server.ts, app/lib/settings.server.ts) *)

(** A row of the table [shops]; the dates are time values. *)
Module ShopRow.
Record t : Type := mk {
  id : string;
  shopDomain : string;
  accessToken : string;
  installedAt : Z;
  uninstalledAt : option Z
}.
End ShopRow.

(** A row of the table [settings]. *)
Module Setting.
Record t : Type := mk {
  id : string;
  shopId : string;
  key : string;
  value : string
}.
End Setting.

(** The three tables. [shops.shopDomain] and [settings (shopId, key)] are
    unique, the [id] columns are primary keys, and [shopId] refers to a
    shop. *)
Record AppDatabase : Type := {
  shopTable : list ShopRow.t;
  settingTable : list Setting.t;
  ruleTable : list ProductRule.t
}.

(** The part of the database that the rule store reads. *)
Definition ruleStore (db : AppDatabase) : Database :=
  {| shops := map (fun row => Shop.mk (ShopRow.id row) (ShopRow.shopDomain row)) (shopTable db);
     product_rules := ruleTable db |}.

#[global] Instance Promise_ret : MRet Promise := fun A a => Resolved a.

#[global] Instance Promise_bind : MBind Promise := fun A B k p =>
  match p with
  | Resolved a => k a
  | Rejected e => Rejected e
  end.

(** *** shop.server.ts *)

Module ShopData.
Record t : Type := mk {
  shopDomain : string;
  accessToken : string;
  installedAt : Z
}.
End ShopData.

(** The fields of the session that [upsertShop] reads, for a session that
    has its access token. *)
Module Session.
Record t : Type := mk {
  shop : string;
  accessToken : string
}.
End Session.

Definition shopData (row : ShopRow.t) : ShopData.t :=
  ShopData.mk (ShopRow.shopDomain row) (ShopRow.accessToken row) (ShopRow.installedAt row).

(** [prisma.shop.findUnique({ where: { shopDomain } })] *)
Definition findShopRow (db : AppDatabase) (shopDomain : string) : option ShopRow.t :=
  List.find (fun row => String.eqb (ShopRow.shopDomain row) shopDomain) (shopTable db).

(** The row after [update: { accessToken, uninstalledAt: null }]. *)
Definition reinstalled (accessToken : string) (row : ShopRow.t) : ShopRow.t :=
  ShopRow.mk (ShopRow.id row) (ShopRow.shopDomain row) accessToken
    (ShopRow.installedAt row) None.

(** The row after [data: { uninstalledAt: new Date() }]. *)
Definition uninstalled (now : Z) (row : ShopRow.t) : ShopRow.t :=
  ShopRow.mk (ShopRow.id row) (ShopRow.shopDomain row) (ShopRow.accessToken row)
    (ShopRow.installedAt row) (Some now).

Definition updateShopRows (f : ShopRow.t -> ShopRow.t) (shopDomain : string)
    (db : AppDatabase) : AppDatabase :=
  {| shopTable :=
       map (fun row => if String.eqb (ShopRow.shopDomain row) shopDomain then f row else row)
           (shopTable db);
     settingTable := settingTable db;
     ruleTable := ruleTable db |}.

(** [prisma.shop.upsert]: [newId] stands for the default of the column
    [id], [now] for [new Date()]. *)
Definition upsertShop (db : AppDatabase) (newId : string) (now : Z) (session : Session.t)
  : Promise (AppDatabase * ShopData.t) :=
  let shopDomain := Session.shop session in
  let accessToken := Session.accessToken session in
  match findShopRow db shopDomain with
  | Some row =>
      Resolved (updateShopRows (reinstalled accessToken) shopDomain db,
                shopData (reinstalled accessToken row))
  | None =>
      if existsb (fun row => String.eqb (ShopRow.id row) newId) (shopTable db)
      then Rejected UniqueConstraintFailed
      else
        let shop := ShopRow.mk newId shopDomain accessToken now None in
        Resolved ({| shopTable := shopTable db ++ [shop];
                     settingTable := settingTable db;
                     ruleTable := ruleTable db |},
                  shopData shop)
  end.

Definition getShop (db : AppDatabase) (shopDomain : string) : option ShopData.t :=
  match findShopRow db shopDomain with
  | None => None
  | Some shop =>
      match ShopRow.uninstalledAt shop with
      | Some _ => None
      | None => Some (shopData shop)
      end
  end.

(** [prisma.shop.update] rejects when no row has the domain. *)
Definition markShopUninstalled (db : AppDatabase) (now : Z) (shopDomain : string)
  : Promise AppDatabase :=
  match findShopRow db shopDomain with
  | Some _ => Resolved (updateShopRows (uninstalled now) shopDomain db)
  | None => Rejected RecordNotFound
  end.

Definition isShopInstalled (db : AppDatabase) (shopDomain : string) : bool :=
  match findShopRow db shopDomain with
  | Some shop => match ShopRow.uninstalledAt shop with None => true | Some _ => false end
  | None => false
  end.

(** *** settings.server.ts *)

Definition settingAt (shopId key : string) (setting : Setting.t) : bool :=
  String.eqb (Setting.shopId setting) shopId && String.eqb (Setting.key setting) key.

Definition getSetting (db : AppDatabase) (shopId key : string) : option string :=
  Setting.value <$> List.find (settingAt shopId key) (settingTable db).

(** [acc[setting.key] = setting.value] on a plain object: the assignment
    of a string to the key [__proto__] sets no property. *)
Definition assignProperty (acc : gmap string string) (setting : Setting.t)
  : gmap string string :=
  if String.eqb (Setting.key setting) "__proto__" then acc
  else <[Setting.key setting := Setting.value setting]> acc.

Definition getAllSettings (db : AppDatabase) (shopId : string) : gmap string string :=
  fold_left assignProperty
    (List.filter (fun setting => String.eqb (Setting.shopId setting) shopId) (settingTable db))
    ∅.

Definition withValue (value : string) (setting : Setting.t) : Setting.t :=
  Setting.mk (Setting.id setting) (Setting.shopId setting) (Setting.key setting) value.

(** [prisma.setting.upsert]: [newId] stands for the default of [id]. *)
Definition setSetting (db : AppDatabase) (newId : string) (shopId key value : string)
  : Promise AppDatabase :=
  if existsb (settingAt shopId key) (settingTable db) then
    Resolved {| shopTable := shopTable db;
                settingTable :=
                  map (fun setting => if settingAt shopId key setting
                                      then withValue value setting else setting)
                      (settingTable db);
                ruleTable := ruleTable db |}
  else if existsb (fun setting => String.eqb (Setting.id setting) newId) (settingTable db)
  then Rejected UniqueConstraintFailed
  else if negb (existsb (fun row => String.eqb (ShopRow.id row) shopId) (shopTable db))
  then Rejected ForeignKeyConstraintFailed
  else
    Resolved {| shopTable := shopTable db;
                settingTable := settingTable db ++ [Setting.mk newId shopId key value];
                ruleTable := ruleTable db |}.

(** [prisma.setting.delete] rejects when no row has the key. *)
Definition deleteSetting (db : AppDatabase) (shopId key : string) : Promise AppDatabase :=
  if existsb (settingAt shopId key) (settingTable db) then
    Resolved {| shopTable := shopTable db;
                settingTable :=
                  List.filter (fun setting => negb (settingAt shopId key setting))
                    (settingTable db);
                ruleTable := ruleTable db |}
  else Rejected RecordNotFound.

Definition deleteAllSettings (db : AppDatabase) (shopId : string) : AppDatabase :=
  {| shopTable := shopTable db;
     settingTable :=
       List.filter (fun setting => negb (String.eqb (Setting.shopId setting) shopId))
         (settingTable db);
     ruleTable := ruleTable db |}.

(** The unique index of the settings. *)
Definition uniqueSettings (db : AppDatabase) : Prop :=
  NoDup (map (fun setting => (Setting.shopId setting, Setting.key setting)) (settingTable db)).

(** The unique index of the shops. *)
Definition uniqueShops (db : AppDatabase) : Prop :=
  NoDup (map ShopRow.shopDomain (shopTable db)).

(** ** The routes *)

(** How the function of a route ends: with its data, with a thrown
    response, with a thrown redirect, or with the rejection of a query. *)
Inductive RouteOutcome (A : Type) : Type :=
| Returns (data : A)
| ThrowsResponse (body : string) (status : Z)
| ThrowsRedirect (url : string)
| Fails (reason : PrismaError).
Arguments Returns {A} data.
Arguments ThrowsResponse {A} body status.
Arguments ThrowsRedirect {A} url.
Arguments Fails {A} reason.

(** What a route writes to the console, besides the effects of the
    applier. *)
Inductive RouteEffect : Type :=
| ConsoleLog (message : string)
| ConsoleErrorWith (message : string) (reason : PrismaError)
| OfApplier (effect : Effect).

(** *** routes/webhooks.products.create.tsx, routes/webhooks.products.update.tsx *)

(** The actions that apply the rules and store no product. The two differ
    in the name of their topic in the warning. [admin] is absent when the
    webhook comes without an admin context. *)
Definition productsWebhookAction (name : string) (db : Database) (shop topic : string)
    (payload : ProductWebhookPayload.t) (admin : option AdminContext)
  : list RouteEffect * Completion Z :=
  let received := ConsoleLog ("Received " ++ topic ++ " webhook for " ++ shop) in
  match admin with
  | None =>
      ([received;
        OfApplier (ConsoleWarn ("Admin context missing for " ++ name ++ " webhook"))],
       Normal 200)
  | Some admin =>
      let result := applyProductRulesForShop db shop admin payload in
      (received :: map OfApplier result.1, _ ← result.2; Normal 200)
  end.

Definition productsCreateAction := productsWebhookAction "products/create".
Definition productsUpdateAction := productsWebhookAction "products/update".


(** *** routes/webhooks.app.uninstalled.tsx *)

(** The body of [try]; the one query that can reject is the first write,
    which then leaves the tables as they were. *)
Definition uninstallAttempt (db : AppDatabase) (now : Z) (shop : string)
  : Promise AppDatabase :=
  match findShopRow db shop with
  | Some shopRecord =>
      db' ← markShopUninstalled db now shop;
      mret (deleteAllSettings db' (ShopRow.id shopRecord))
  | None => mret db
  end.

Definition uninstalledAction (db : AppDatabase) (now : Z) (shop topic : string)
  : AppDatabase * list RouteEffect * Z :=
  let received := ConsoleLog ("Received " ++ topic ++ " webhook for " ++ shop) in
  match uninstallAttempt db now shop with
  | Resolved db' => (db', [received], 200)
  | Rejected error =>
      (db,
       [received;
        ConsoleErrorWith ("Error handling uninstall webhook for " ++ shop ++ ":") error],
       200)
  end.

(** *** routes/app.product-rules.tsx *)

(** [formData.get] of the names that the action reads: [None] for [null];
    [field] and [operator] at the types of their casts, where [None] is
    also the empty string. *)
Module RuleForm.
Record t : Type := mk {
  intent : option string;
  field : option RuleField.t;
  operator : option RuleOperator.t;
  value : option string;
  tag : option string;
  ruleId : option string;
  enabled : option string
}.
End RuleForm.

Module ActionData.
Record t : Type := mk {
  error : option string;
  ok : option bool
}.
End ActionData.

Definition productRulesAction (db : Database) (newId : string) (now : Z)
    (sessionShop : string) (form : RuleForm.t)
  : Database * list RouteEffect * RouteOutcome ActionData.t :=
  match findUniqueShop db sessionShop with
  | None => (db, [], ThrowsResponse "Shop not found" 404)
  | Some shopId =>
      if bool_decide (RuleForm.intent form = Some "create") then
        let value := trim (default "" (RuleForm.value form)) in
        let tag := trim (default "" (RuleForm.tag form)) in
        match RuleForm.field form, RuleForm.operator form with
        | Some field, Some operator =>
            if (String.length value =? 0)%nat || (String.length tag =? 0)%nat
            then (db, [], Returns (ActionData.mk (Some "All fields are required.") None))
            else
              match createRuleForShop db newId now shopId
                      (RuleData.mk field operator value tag true) with
              | Resolved (db', _) => (db', [], Returns (ActionData.mk None (Some true)))
              | Rejected error =>
                  (db, [ConsoleErrorWith "Error creating rule:" error],
                   Returns (ActionData.mk (Some "Failed to create rule. Please try again.")
                              None))
              end
        | _, _ => (db, [], Returns (ActionData.mk (Some "All fields are required.") None))
        end
      else if bool_decide (RuleForm.intent form = Some "toggle") then
        let ruleId := default "" (RuleForm.ruleId form) in
        let enabled := bool_decide (RuleForm.enabled form = Some "true") in
        if negb (nonEmpty ruleId)
        then (db, [], Returns (ActionData.mk (Some "Missing rule id.") None))
        else (toggleRuleEnabled db shopId ruleId enabled, [],
              ThrowsRedirect "/app/product-rules")
      else (db, [], Returns (ActionData.mk None (Some false)))
  end.

(** *** routes/app.settings.tsx *)

Module SettingsForm.
Record t : Type := mk {
  key : option string;
  value : option string;
  _action : option string
}.
End SettingsForm.

(** [{ error }], [{ success: true }] and [{ success: true, deleted: true }] *)
Inductive SettingsData : Type :=
| SettingsError (error : string)
| Success
| SuccessDeleted.

Definition settingsLoader (db : AppDatabase) (sessionShop : string)
  : RouteOutcome (string * gmap string string) :=
  match findShopRow db sessionShop with
  | None => ThrowsResponse "Shop not found" 404
  | Some shop => Returns (ShopRow.id shop, getAllSettings db (ShopRow.id shop))
  end.

Definition settingsAction (db : AppDatabase) (newId : string) (sessionShop : string)
    (form : SettingsForm.t) : AppDatabase * RouteOutcome SettingsData :=
  match findShopRow db sessionShop with
  | None => (db, ThrowsResponse "Shop not found" 404)
  | Some shop =>
      if falsy (SettingsForm.key form)
         || String.eqb (trim (default "" (SettingsForm.key form))) ""
      then (db, Returns (SettingsError "Setting key is required"))
      else
        let key := trim (default "" (SettingsForm.key form)) in
        if bool_decide (SettingsForm._action form = Some "delete") then
          match deleteSetting db (ShopRow.id shop) key with
          | Resolved db' => (db', Returns SuccessDeleted)
          | Rejected error => (db, Fails error)
          end
        else
          let value :=
            if falsy (SettingsForm.value form) then ""
            else default "" (SettingsForm.value form) in
          match setSetting db newId (ShopRow.id shop) key value with
          | Resolved db' => (db', Returns Success)
          | Rejected error => (db, Fails error)
          end
  end.

(** ** scripts/backfill-products.ts *)

Fixpoint allDigits (s : string) : bool :=
  match s with
  | String c s' => isDigit c && allDigits s'
  | EmptyString => true
  end.

(** [s.match(/\/(\d+)$/)], its group: the digits after the first slash
    that only digits follow, at least one, up to the end of the string. *)
Fixpoint matchTrailingDigits (s : string) : option string :=
  match s with
  | String c rest =>
      if Ascii.eqb c "/" && nonEmpty rest && allDigits rest then Some rest
      else matchTrailingDigits rest
  | EmptyString => None
  end.

(** The integer that a number is, as the [id] of a payload holds it; an
    infinity or NaN is none. *)
Definition integerOf (x : number) : option Z :=
  match x with
  | S754_zero _ => Some 0
  | S754_finite s m e =>
      Some (cond_Zopp s (if 0 <=? e then Zpos m * 2 ^ e else Zpos m / 2 ^ (- e)))
  | _ => None
  end.

Module GraphQLVariant.
Record t : Type := mk {
  price : string;
  inventoryQuantity : option number
}.
End GraphQLVariant.

(** The fields of a product of the query that reach the fields of the
    payload above. *)
Module GraphQLProduct.
Record t : Type := mk {
  id : string;
  vendor : option string;
  tags : option (list string);
  variants : list GraphQLVariant.t
}.
End GraphQLProduct.

(** [s || null] *)
Definition stringOrNull (s : option string) : option string :=
  if falsy s then None else s.

(** [n || null]: zero and NaN are falsy. *)
Definition numberOrNull (n : option number) : option number :=
  match n with
  | Some (S754_zero _) | Some S754_nan | None => None
  | Some x => Some x
  end.

Definition graphQLProductToWebhookPayload (product : GraphQLProduct.t)
  : option ProductWebhookPayload.t :=
  let idMatch := matchTrailingDigits (GraphQLProduct.id product) in
  id ← match idMatch with
       | Some digits => integerOf (parseInt10 digits)
       | None => Some 0
       end;
  Some (ProductWebhookPayload.mk id
          (stringOrNull (GraphQLProduct.vendor product))
          (Some (map (fun node =>
                        Variant.mk
                          (stringOrNull (Some (GraphQLVariant.price node)))
                          (numberOrNull (GraphQLVariant.inventoryQuantity node)))
                     (GraphQLProduct.variants product)))
          (stringOrNull (String.concat ", " <$> GraphQLProduct.tags product))).

(** A count that the store can send: not NaN and not the negative zero. *)
Definition plainCount (n : option number) : bool :=
  match n with
  | Some S754_nan | Some (S754_zero true) => false
  | _ => true
  end.

(** ** Inputs of the examples *)

(** A rule whose tag holds a comma. *)
Definition commaRule : ProductRule.t :=
  ProductRule.mk "rule-3" "shop-1" RuleField.price RuleOperator.gt "100" "big, bulky" true 2.

Definition sampleStore : AppDatabase :=
  {| shopTable :=
       [ShopRow.mk "shop-1" "shop-1.myshopify.com" "token-1" 10 None;
        ShopRow.mk "shop-2" "shop-2.myshopify.com" "token-2" 20 (Some 30)];
     settingTable :=
       [Setting.mk "setting-1" "shop-1" "theme" "dark";
        Setting.mk "setting-2" "shop-2" "theme" "light"];
     ruleTable := [expensiveRule] |}.

Definition sampleProduct : GraphQLProduct.t :=
  GraphQLProduct.mk "gid://shopify/Product/42" (Some "Acme") (Some ["sale"; "new"])
    [GraphQLVariant.mk "120.00" (Some (ofZ 0)); GraphQLVariant.mk "" (Some (ofZ 3))].

(** * Properties *)

(** ** Sets in insertion order *)

Lemma has_true (set : list string) (x : string) : has set x = true ↔ x ∈ set.
Proof. unfold has. apply bool_decide_eq_true. Qed.

Lemma has_false (set : list string) (x : string) : has set x = false ↔ x ∉ set.
Proof. unfold has. apply bool_decide_eq_false. Qed.

Lemma elem_of_setAdd (set : list string) (x y : string) :
  y ∈ setAdd set x ↔ y ∈ set ∨ y = x.
Proof.
  unfold setAdd. destruct (has set x) eqn:Hx.
  - apply has_true in Hx. split; [auto | intros [H | ->]; assumption].
  - rewrite elem_of_app, list_elem_of_singleton. reflexivity.
Qed.

Lemma NoDup_setAdd (set : list string) (x : string) :
  NoDup set → NoDup (setAdd set x).
Proof.
  intros Hnd. unfold setAdd. destruct (has set x) eqn:Hx; [assumption |].
  apply has_false in Hx. apply NoDup_app. repeat split.
  - assumption.
  - intros y Hy Hyx. apply list_elem_of_singleton in Hyx. subst. contradiction.
  - apply NoDup_singleton.
Qed.

Lemma elem_of_fold_setAdd (items set : list string) (y : string) :
  y ∈ fold_left setAdd items set ↔ y ∈ set ∨ y ∈ items.
Proof.
  revert set. induction items as [| x items IH]; intros set; simpl.
  - rewrite elem_of_nil. tauto.
  - rewrite IH, elem_of_setAdd, elem_of_cons. tauto.
Qed.

Lemma NoDup_fold_setAdd (items set : list string) :
  NoDup set → NoDup (fold_left setAdd items set).
Proof.
  revert set. induction items as [| x items IH]; intros set Hnd; simpl.
  - assumption.
  - apply IH, NoDup_setAdd, Hnd.
Qed.

Lemma elem_of_newSet (items : list string) (y : string) : y ∈ newSet items ↔ y ∈ items.
Proof.
  unfold newSet. rewrite elem_of_fold_setAdd, elem_of_nil. tauto.
Qed.

Lemma NoDup_newSet (items : list string) : NoDup (newSet items).
Proof. apply NoDup_fold_setAdd, NoDup_nil_2. Qed.

(** ** The merge loop *)

Lemma mergeStep_fold_elem_of (ruleTags set : list string) (changed : bool) (y : string) :
  y ∈ (fold_left mergeStep ruleTags (set, changed)).1 ↔ y ∈ set ∨ y ∈ ruleTags.
Proof.
  revert set changed. induction ruleTags as [| tag ruleTags IH]; intros set changed; simpl.
  - rewrite elem_of_nil. tauto.
  - destruct (has set tag) eqn:Htag; simpl; rewrite IH, elem_of_cons.
    + apply has_true in Htag. split; [tauto |]. intros [H | [-> | H]]; auto.
    + rewrite elem_of_setAdd. tauto.
Qed.

Lemma mergeStep_fold_NoDup (ruleTags set : list string) (changed : bool) :
  NoDup set → NoDup (fold_left mergeStep ruleTags (set, changed)).1.
Proof.
  revert set changed. induction ruleTags as [| tag ruleTags IH]; intros set changed Hnd; simpl.
  - assumption.
  - destruct (has set tag); simpl; apply IH; [assumption | apply NoDup_setAdd, Hnd].
Qed.

(** The flag ends up set exactly when it was set or some rule tag was new. *)
Lemma mergeStep_fold_changed (ruleTags set : list string) (changed : bool) :
  (fold_left mergeStep ruleTags (set, changed)).2 = false ↔
  changed = false ∧ ruleTags ⊆ set.
Proof.
  revert set changed. induction ruleTags as [| tag ruleTags IH]; intros set changed; simpl.
  - split; [intros H; split; [assumption | apply list_subseteq_nil] | intros [H _]; exact H].
  - destruct (has set tag) eqn:Htag; simpl; rewrite IH.
    + apply has_true in Htag. split.
      * intros [Hc Hsub]. split; [assumption |].
        intros y Hy. apply elem_of_cons in Hy as [-> | Hy]; auto.
      * intros [Hc Hsub]. split; [assumption |].
        intros y Hy. apply Hsub. apply elem_of_cons. auto.
    + apply has_false in Htag. split.
      * intros [Hc _]. discriminate.
      * intros [_ Hsub]. exfalso. apply Htag, Hsub. apply elem_of_cons. auto.
Qed.

Lemma mergeProductTags_None (E R : list string) :
  mergeProductTags E R = None ↔ R ⊆ E.
Proof.
  unfold mergeProductTags.
  pose proof (mergeStep_fold_changed R (newSet E) false) as Hc.
  destruct (fold_left mergeStep R (newSet E, false)) as [set changed]; simpl in Hc.
  assert (Hsub : R ⊆ newSet E ↔ R ⊆ E).
  { split; intros H y Hy; specialize (H y Hy).
    - exact (proj1 (elem_of_newSet E y) H).
    - exact (proj2 (elem_of_newSet E y) H). }
  destruct changed.
  - split; [discriminate |]. intros H. apply Hsub in H.
    assert (true = false) by (apply Hc; auto). discriminate.
  - split; [| reflexivity]. intros _. apply Hsub, Hc. reflexivity.
Qed.

Lemma mergeProductTags_Some (E R T : list string) :
  mergeProductTags E R = Some T →
  NoDup T ∧ ∀ y, y ∈ T ↔ y ∈ E ∨ y ∈ R.
Proof.
  unfold mergeProductTags, arrayFrom.
  pose proof (mergeStep_fold_elem_of R (newSet E) false) as Hel.
  pose proof (mergeStep_fold_NoDup R (newSet E) false (NoDup_newSet E)) as Hnd.
  destruct (fold_left mergeStep R (newSet E, false)) as [set changed]; simpl in *.
  destruct changed; [| discriminate]. intros [= <-]. split; [assumption |].
  intros y. rewrite Hel, elem_of_newSet. reflexivity.
Qed.

(** ** Evaluation always completes *)

Lemma callTrim_truthy (v : option string) :
  falsy v = false → ∃ s, v = Some s ∧ s ≠ "" ∧ callTrim v = Normal (trim s).
Proof.
  destruct v as [s |]; simpl; [| discriminate].
  intros Hs. exists s. repeat split. intros ->. discriminate.
Qed.

Lemma evaluateSingleRule_total (product : ProductForEvaluation.t) (rule : ProductRule.t) :
  ∃ matched, evaluateSingleRule product rule = Normal matched.
Proof.
  unfold evaluateSingleRule. destruct (ProductRule.field rule).
  - destruct (ProductForEvaluation.price product); [| eauto].
    destruct (isNaN _); eauto.
  - destruct (ProductForEvaluation.totalInventory product); [| eauto].
    destruct (isNaN _); eauto.
  - destruct (falsy _) eqn:Hv; [eauto |].
    destruct (negb _); [eauto |].
    apply callTrim_truthy in Hv as (s & _ & _ & ->). simpl. eauto.
Qed.

Lemma evaluateLoop_total (product : ProductForEvaluation.t) (rules : list ProductRule.t)
    (tags : list string) :
  ∃ tags', evaluateLoop product rules tags = Normal tags'.
Proof.
  revert tags. induction rules as [| rule rules IH]; intros tags; simpl.
  - eauto.
  - destruct (negb (ProductRule.enabled rule)); [apply IH |].
    destruct (evaluateSingleRule_total product rule) as [matched ->]. simpl. apply IH.
Qed.

Lemma evaluateProductRules_total (product : ProductForEvaluation.t)
    (rules : list ProductRule.t) :
  ∃ tags, evaluateProductRules product rules = Normal tags.
Proof.
  unfold evaluateProductRules.
  destruct (evaluateLoop_total product rules []) as [tags ->]. simpl. eauto.
Qed.

Lemma evaluateLoop_enabled_only (product : ProductForEvaluation.t)
    (rules : list ProductRule.t) (tags : list string) :
  evaluateLoop product (List.filter ProductRule.enabled rules) tags =
  evaluateLoop product rules tags.
Proof.
  revert tags. induction rules as [| rule rules IH]; intros tags; simpl; [reflexivity |].
  destruct (ProductRule.enabled rule) eqn:Hen; simpl.
  - rewrite Hen. simpl. destruct (evaluateSingleRule product rule); simpl; [apply IH | reflexivity].
  - apply IH.
Qed.

Lemma evaluateLoop_all_disabled (product : ProductForEvaluation.t)
    (rules : list ProductRule.t) (tags : list string) :
  forallb (fun rule => negb (ProductRule.enabled rule)) rules = true →
  evaluateLoop product rules tags = Normal tags.
Proof.
  induction rules as [| rule rules IH]; simpl; [reflexivity |].
  intros H. apply andb_true_iff in H as [-> H]. apply IH, H.
Qed.

(** ** Claims on the evaluator and the merger *)

(** C1. Idempotence of evaluate and merge: the evaluation of a record [P]
    against rules [RS] completes with a tag list [R], and so does a second
    evaluation, with a list [R2]; if merging [R] into the existing tags [E]
    returned a new list [T], merging [R2] into [T] returns [null], and if
    the first merge returned [null], merging [R2] into the same [E]
    returns [null] again. *)
Theorem evaluate_merge_idempotent (P : ProductForEvaluation.t) (RS : list ProductRule.t)
    (E : list string) :
  ∃ R, evaluateProductRules P RS = Normal R ∧
       ∀ R2, evaluateProductRules P RS = Normal R2 →
             match mergeProductTags E R with
             | Some T => mergeProductTags T R2 = None
             | None => mergeProductTags E R2 = None
             end.
Proof.
  destruct (evaluateProductRules_total P RS) as [R HR].
  exists R. split; [exact HR |].
  intros R2 HR2. rewrite HR in HR2. injection HR2 as <-.
  destruct (mergeProductTags E R) as [T |] eqn:Hmerge.
  - apply mergeProductTags_Some in Hmerge as [_ HT].
    apply mergeProductTags_None. intros y Hy. apply HT. right. exact Hy.
  - reflexivity.
Qed.

(** C2. Non-destructive merge: [mergeProductTags E R] is [null] exactly
    when every tag of [R] occurs in [E]; otherwise it is a list without
    repetition whose elements are the tags of [E] together with the tags
    of [R], so that no tag of [E] is missing from it. *)
Theorem merge_non_destructive (E R : list string) :
  match mergeProductTags E R with
  | None => R ⊆ E
  | Some T =>
      ¬ R ⊆ E ∧ E ⊆ T ∧ R ⊆ T ∧
      (list_to_set T : gset string) = list_to_set E ∪ list_to_set R
  end.
Proof.
  destruct (mergeProductTags E R) as [T |] eqn:Hmerge.
  - assert (Hnot : ¬ R ⊆ E).
    { intros Hsub. apply mergeProductTags_None in Hsub. congruence. }
    apply mergeProductTags_Some in Hmerge as [_ HT].
    split; [exact Hnot |]. split; [| split].
    + intros y Hy. apply HT. left. exact Hy.
    + intros y Hy. apply HT. right. exact Hy.
    + apply set_eq. intros y.
      rewrite elem_of_union, !elem_of_list_to_set. apply HT.
  - apply mergeProductTags_None. exact Hmerge.
Qed.

(** C9. Disabled rules contribute nothing: evaluating a rule list gives
    the result of evaluating its enabled rules only, and a list of
    disabled rules gives the empty tag list. *)
Theorem disabled_rules_contribute_nothing (P : ProductForEvaluation.t)
    (RS : list ProductRule.t) :
  evaluateProductRules P RS =
    evaluateProductRules P (List.filter ProductRule.enabled RS) ∧
  (List.filter ProductRule.enabled RS = [] → evaluateProductRules P RS = Normal []).
Proof.
  unfold evaluateProductRules. rewrite evaluateLoop_enabled_only.
  split; [reflexivity |].
  intros Hnone. rewrite <- (evaluateLoop_enabled_only P RS), Hnone. reflexivity.
Qed.

(** ** Code units, case and white space *)

Lemma code_lt_256 (c : ascii) : (code c < 256)%N.
Proof. apply N_ascii_bounded. Qed.

Lemma code_inj (c d : ascii) : code c = code d → c = d.
Proof.
  unfold code. intros H.
  rewrite <- (ascii_N_embedding c), <- (ascii_N_embedding d), H. reflexivity.
Qed.

Lemma isUpper_range (c : ascii) :
  isUpper c = true ↔
  (65 ≤ code c ≤ 90 ∨ (192 ≤ code c ≤ 222 ∧ code c ≠ 215))%N.
Proof.
  unfold isUpper. cbv zeta.
  rewrite orb_true_iff, !andb_true_iff, negb_true_iff, !N.leb_le, N.eqb_neq.
  tauto.
Qed.

Lemma isWhiteSpace_range (c : ascii) :
  isWhiteSpace c = true ↔ (9 ≤ code c ≤ 13 ∨ code c = 32 ∨ code c = 160)%N.
Proof.
  unfold isWhiteSpace. cbv zeta.
  rewrite !orb_true_iff, andb_true_iff, !N.leb_le, !N.eqb_eq. tauto.
Qed.

Lemma code_lowerChar (c : ascii) :
  code (lowerChar c) = if isUpper c then (code c + 32)%N else code c.
Proof.
  unfold lowerChar. destruct (isUpper c) eqn:Hup; [| reflexivity].
  apply isUpper_range in Hup. unfold code at 1. apply N_ascii_embedding.
  fold (code c). lia.
Qed.

Lemma sameLetter_lowerChar (c d : ascii) : sameLetter c d ↔ lowerChar c = lowerChar d.
Proof.
  unfold sameLetter. split.
  - intros [-> | [[Hc Hd] | [Hd Hc]]]; [reflexivity | |]; apply code_inj;
      rewrite !code_lowerChar.
    + rewrite Hc. apply isUpper_range in Hc.
      destruct (isUpper d) eqn:Hud; [apply isUpper_range in Hud; lia | congruence].
    + rewrite Hd. apply isUpper_range in Hd.
      destruct (isUpper c) eqn:Huc; [apply isUpper_range in Huc; lia | congruence].
  - intros H. apply (f_equal code) in H. rewrite !code_lowerChar in H.
    destruct (isUpper c) eqn:Huc, (isUpper d) eqn:Hud.
    + left. apply code_inj. lia.
    + right. left. split; [reflexivity | congruence].
    + right. right. split; [reflexivity | congruence].
    + left. apply code_inj. exact H.
Qed.

Lemma sameLetter_isWhiteSpace (c d : ascii) :
  sameLetter c d → isWhiteSpace c = isWhiteSpace d.
Proof.
  intros [-> | [[Hc Hd] | [Hd Hc]]]; [reflexivity | |].
  - apply isUpper_range in Hc.
    transitivity false; [| symmetry]; apply not_true_iff_false;
      rewrite isWhiteSpace_range; lia.
  - apply isUpper_range in Hd.
    transitivity false; [| symmetry]; apply not_true_iff_false;
      rewrite isWhiteSpace_range; lia.
Qed.

(** ** Trimming *)

Lemma trimStart_allWhiteSpace (w : string) : allWhiteSpace w = true → trimStart w = "".
Proof.
  induction w as [| c w IH]; simpl; [reflexivity |].
  intros H. apply andb_true_iff in H as [-> H]. apply IH, H.
Qed.

Lemma trimEnd_allWhiteSpace (w : string) : allWhiteSpace w = true → trimEnd w = "".
Proof.
  induction w as [| c w IH]; simpl; [reflexivity |].
  intros H. apply andb_true_iff in H as [-> H]. rewrite (IH H). reflexivity.
Qed.

Lemma trimStart_app_before (w s : string) :
  allWhiteSpace w = true → trimStart (w ++ s) = trimStart s.
Proof.
  induction w as [| c w IH]; simpl; [reflexivity |].
  intros H. apply andb_true_iff in H as [-> H]. apply IH, H.
Qed.

Lemma trimEnd_app_after (s w : string) :
  allWhiteSpace w = true → trimEnd (s ++ w) = trimEnd s.
Proof.
  intros Hw. induction s as [| c s IH]; simpl.
  - apply trimEnd_allWhiteSpace, Hw.
  - rewrite IH. reflexivity.
Qed.

Lemma trimStart_app_after (s w : string) :
  allWhiteSpace w = true →
  trimStart (s ++ w) = if allWhiteSpace s then "" else (trimStart s ++ w)%string.
Proof.
  intros Hw. induction s as [| c s IH]; simpl.
  - apply trimStart_allWhiteSpace, Hw.
  - destruct (isWhiteSpace c); simpl; [exact IH | reflexivity].
Qed.

Lemma trim_padded (a core : string) : padded a core → trim a = trim core.
Proof.
  intros (before & after & Hb & Ha & ->). unfold trim.
  rewrite (trimStart_app_before _ _ Hb), (trimStart_app_after _ _ Ha).
  destruct (allWhiteSpace core) eqn:Hcore.
  - rewrite (trimStart_allWhiteSpace _ Hcore). reflexivity.
  - apply trimEnd_app_after, Ha.
Qed.

Lemma append_String (c : ascii) (a b : string) :
  (String c a ++ b)%string = String c (a ++ b)%string.
Proof. reflexivity. Qed.

Lemma trimStart_decompose (s : string) :
  ∃ before, allWhiteSpace before = true ∧ s = (before ++ trimStart s)%string.
Proof.
  induction s as [| c s (before & Hb & Hs)]; simpl.
  - exists "". split; reflexivity.
  - destruct (isWhiteSpace c) eqn:Hc.
    + exists (String c before). simpl. rewrite append_String, Hc, Hb, <- Hs.
      split; reflexivity.
    + exists "". split; reflexivity.
Qed.

Lemma trimEnd_decompose (s : string) :
  ∃ after, allWhiteSpace after = true ∧ s = (trimEnd s ++ after)%string.
Proof.
  induction s as [| c s (after & Ha & Hs)]; simpl.
  - exists "". split; reflexivity.
  - destruct (trimEnd s) as [| d t] eqn:Ht.
    + destruct (isWhiteSpace c) eqn:Hc.
      * exists (String c after). simpl in *. subst s. rewrite Hc, Ha. split; reflexivity.
      * exists after. rewrite append_String, <- Hs. split; [exact Ha | reflexivity].
    + exists after. rewrite append_String, <- Hs. split; [exact Ha | reflexivity].
Qed.

Lemma padded_trim (s : string) : padded s (trim s).
Proof.
  destruct (trimStart_decompose s) as (before & Hb & Hs).
  destruct (trimEnd_decompose (trimStart s)) as (after & Ha & Ht).
  exists before, after. repeat split; [exact Hb | exact Ha |].
  unfold trim. rewrite <- Ht. exact Hs.
Qed.

(** ** Equality up to case *)

Lemma equalIgnoringCase_toLowerCase (a b : string) :
  equalIgnoringCase a b ↔ toLowerCase a = toLowerCase b.
Proof.
  revert b. induction a as [| c a IH]; intros [| d b]; simpl;
    try (split; [tauto | discriminate]); try tauto.
  rewrite IH, sameLetter_lowerChar. split.
  - intros [-> ->]. reflexivity.
  - intros [= -> ->]. split; reflexivity.
Qed.

Lemma equalIgnoringCase_trimStart (a b : string) :
  equalIgnoringCase a b → equalIgnoringCase (trimStart a) (trimStart b).
Proof.
  revert b. induction a as [| c a IH]; intros [| d b]; simpl; try tauto.
  intros [Hcd Hab]. rewrite <- (sameLetter_isWhiteSpace c d Hcd).
  destruct (isWhiteSpace c); [apply IH, Hab | simpl; auto].
Qed.

Lemma equalIgnoringCase_trimEnd (a b : string) :
  equalIgnoringCase a b → equalIgnoringCase (trimEnd a) (trimEnd b).
Proof.
  revert b. induction a as [| c a IH]; intros [| d b]; simpl; try tauto.
  intros [Hcd Hab]. specialize (IH b Hab).
  rewrite <- (sameLetter_isWhiteSpace c d Hcd).
  destruct (trimEnd a), (trimEnd b); simpl in IH; try contradiction.
  - destruct (isWhiteSpace c); simpl; auto.
  - simpl. auto.
Qed.

(** The comparison of the code is the equivalence of the specification. *)
Lemma vendorEquivalent_spec (a b : string) :
  String.eqb (toLowerCase (trim a)) (toLowerCase (trim b)) = true ↔ vendorEquivalent a b.
Proof.
  rewrite String.eqb_eq, <- equalIgnoringCase_toLowerCase. split.
  - intros H. exists (trim a), (trim b).
    split; [apply padded_trim |]. split; [apply padded_trim | exact H].
  - intros (coreA & coreB & Ha & Hb & H).
    rewrite (trim_padded _ _ Ha), (trim_padded _ _ Hb).
    apply equalIgnoringCase_trimEnd, equalIgnoringCase_trimStart, H.
Qed.

(** ** Rules that cannot match *)

Lemma shr_1_nonneg (mrs : shr_record) : 0 ≤ shr_m mrs → 0 ≤ shr_m (shr_1 mrs).
Proof.
  destruct mrs as [m r s]. destruct m as [| [p | p |] | [p | p |]]; simpl; lia.
Qed.

Lemma iter_shr_1_nonneg (n : positive) (mrs : shr_record) :
  0 ≤ shr_m mrs → 0 ≤ shr_m (SpecFloat.iter_pos shr_1 n mrs).
Proof.
  revert mrs. induction n as [n IH | n IH |]; intros mrs H; simpl.
  - apply IH, IH, shr_1_nonneg, H.
  - apply IH, IH, H.
  - apply shr_1_nonneg, H.
Qed.

Lemma shr_fexp_nonneg (m e : Z) (l : location) :
  0 ≤ m → 0 ≤ shr_m (shr_fexp prec emax m e l).1.
Proof.
  intros Hm. unfold shr_fexp, shr.
  assert (H0 : 0 ≤ shr_m (shr_record_of_loc m l)) by (destruct l as [| []]; exact Hm).
  destruct (fexp prec emax (Zdigits2 m + e) - e); simpl;
    [exact H0 | apply iter_shr_1_nonneg, H0 | exact H0].
Qed.

Lemma round_nearest_even_nonneg (m : Z) (l : location) :
  0 ≤ m → 0 ≤ round_nearest_even m l.
Proof.
  intros Hm. destruct l as [| []]; simpl; try destruct (Z.even m); lia.
Qed.

(** Rounding a non-negative mantissa never gives NaN. *)
Lemma binary_round_aux_not_NaN (negative : bool) (m e : Z) (l : location) :
  0 ≤ m → isNaN (binary_round_aux prec emax negative m e l) = false.
Proof.
  intros Hm. unfold binary_round_aux.
  pose proof (shr_fexp_nonneg m e l Hm) as H1.
  destruct (shr_fexp prec emax m e l) as [mrs1 e1]. simpl in H1.
  pose proof (shr_fexp_nonneg _ e1 loc_Exact
                (round_nearest_even_nonneg _ (loc_of_shr_record mrs1) H1)) as H2.
  destruct (shr_fexp prec emax _ e1 loc_Exact) as [mrs2 e2]. simpl in H2.
  destruct (shr_m mrs2); [reflexivity | destruct (_ <=? _); reflexivity | lia].
Qed.

Lemma decimalToNumber_not_NaN (negative : bool) (m e10 : Z) :
  isNaN (decimalToNumber negative m e10) = false.
Proof.
  unfold decimalToNumber. destruct m as [| p | p]; try reflexivity.
  destruct (Z.leb_spec 0 e10) as [He | He].
  - destruct (Z.pos p * 10 ^ e10) as [| q | q]; try reflexivity.
    unfold binary_round. destruct (shl_align _ _ _) as [mz ez].
    apply binary_round_aux_not_NaN. lia.
  - unfold SFdiv_core_binary.
    set (shifted := match _ - _ with Z.pos _ => _ | _ => _ end).
    assert (Hshifted : 0 ≤ shifted).
    { subst shifted. destruct (_ - _); [lia | apply Z.shiftl_nonneg; lia | lia]. }
    destruct (Z.div_eucl shifted (10 ^ (- e10))) as [q r] eqn:Hdiv.
    apply binary_round_aux_not_NaN.
    assert (Hq : q = shifted / 10 ^ (- e10)) by (unfold Z.div; rewrite Hdiv; reflexivity).
    rewrite Hq. apply Z.div_pos; [exact Hshifted | apply Z.pow_pos_nonneg; lia].
Qed.

Lemma spanDigits_nonEmpty (s : string) :
  nonEmpty (spanDigits s).1 = match s with String c _ => isDigit c | EmptyString => false end.
Proof.
  destruct s as [| c s]; simpl; [reflexivity |].
  destruct (isDigit c); [destruct (spanDigits s) |]; reflexivity.
Qed.

Lemma spanDigits_empty (s : string) :
  nonEmpty (spanDigits s).1 = false → spanDigits s = ("", s).
Proof.
  destruct s as [| c s]; simpl; [reflexivity |].
  destruct (isDigit c); [destruct (spanDigits s); discriminate | reflexivity].
Qed.

(** [parseFloat] gives NaN exactly on the strings that do not begin like a
    decimal number. *)
Lemma parseFloat_isNaN (s : string) : isNaN (parseFloat s) = negb (readsAsFloat s).
Proof.
  unfold parseFloat, readsAsFloat, beginsNumeral.
  destruct (readSign (trimStart s)) as [negative body]. simpl.
  destruct (String.prefix "Infinity" body); [reflexivity |]. simpl.
  pose proof (spanDigits_nonEmpty body) as Hint.
  pose proof (spanDigits_empty body) as Hrest.
  destruct (spanDigits body) as [intPart afterInt]. simpl in Hint, Hrest.
  destruct (nonEmpty intPart) eqn:HintPart.
  - destruct body as [| c rest]; [discriminate |]. rewrite <- Hint. simpl.
    destruct afterInt as [| d afterInt]; [| destruct (Ascii.eqb d "."); [destruct (spanDigits _) |]];
      apply decimalToNumber_not_NaN.
  - specialize (Hrest eq_refl). injection Hrest as -> ->.
    destruct body as [| c rest]; [reflexivity |]. rewrite <- Hint. simpl.
    destruct (Ascii.eqb c "."); simpl; [| reflexivity].
    pose proof (spanDigits_nonEmpty rest) as Hfrac.
    destruct (spanDigits rest) as [fracPart afterFrac]. simpl in Hfrac.
    rewrite <- Hfrac.
    destruct (nonEmpty fracPart); simpl; [apply decimalToNumber_not_NaN | reflexivity].
Qed.

(** [parseInt(s, 10)] gives NaN exactly on the strings that do not begin
    with a digit. *)
Lemma parseInt10_isNaN (s : string) : isNaN (parseInt10 s) = negb (readsAsInt s).
Proof.
  unfold parseInt10, readsAsInt.
  destruct (readSign (trimStart s)) as [negative body]. simpl.
  pose proof (spanDigits_nonEmpty body) as Hdigits.
  destruct (spanDigits body) as [digits rest]. simpl in Hdigits.
  rewrite <- Hdigits.
  destruct (nonEmpty digits); [apply decimalToNumber_not_NaN | reflexivity].
Qed.

Lemma evaluateSingleRule_unparsable (P : ProductForEvaluation.t) (r : ProductRule.t) :
  valueUnparsable r = true → evaluateSingleRule P r = Normal false.
Proof.
  unfold valueUnparsable, evaluateSingleRule.
  destruct (ProductRule.field r); [| | discriminate]; intros H.
  - rewrite parseFloat_isNaN, H. destruct (ProductForEvaluation.price P); reflexivity.
  - rewrite parseInt10_isNaN, H.
    destruct (ProductForEvaluation.totalInventory P); reflexivity.
Qed.

Lemma evaluateSingleRule_unknown (P : ProductForEvaluation.t) (r : ProductRule.t) :
  fieldUnknown P r = true → evaluateSingleRule P r = Normal false.
Proof.
  unfold fieldUnknown, evaluateSingleRule.
  destruct (ProductRule.field r); intros H; apply bool_decide_eq_true in H;
    rewrite H; reflexivity.
Qed.

Lemma evaluateProductRules_skip (P : ProductForEvaluation.t) (r : ProductRule.t)
    (RS : list ProductRule.t) :
  evaluateSingleRule P r = Normal false →
  evaluateProductRules P (r :: RS) = evaluateProductRules P RS.
Proof.
  intros H. unfold evaluateProductRules. simpl. rewrite H.
  destruct (negb (ProductRule.enabled r)); reflexivity.
Qed.

(** C7. Evaluation is total and degrades to no match: the evaluation of a
    rule and of a rule list always completes with a value; a price or
    inventory rule whose value its parser does not read as a number does
    not match, a rule on a field that the record does not know does not
    match, and such a rule leaves the result of the list as it is without
    it; [{price:50}] against [price gt "abc"] and [{price:null}] against
    [price gt "10"] give the empty list. *)
Theorem evaluation_total_no_match (P : ProductForEvaluation.t) (r : ProductRule.t)
    (RS : list ProductRule.t) :
  (∃ matched, evaluateSingleRule P r = Normal matched) ∧
  (∃ tags, evaluateProductRules P RS = Normal tags) ∧
  (valueUnparsable r = true ∨ fieldUnknown P r = true →
     evaluateSingleRule P r = Normal false ∧
     evaluateProductRules P (r :: RS) = evaluateProductRules P RS) ∧
  evaluateProductRules (ProductForEvaluation.mk (Some (ofZ 50)) None None)
    [ruleOf RuleField.price RuleOperator.gt "abc" "t"] = Normal [] ∧
  evaluateProductRules (ProductForEvaluation.mk None None None)
    [ruleOf RuleField.price RuleOperator.gt "10" "t"] = Normal [].
Proof.
  split; [apply evaluateSingleRule_total |].
  split; [apply evaluateProductRules_total |].
  split; [| split; reflexivity].
  intros H.
  assert (Hno : evaluateSingleRule P r = Normal false).
  { destruct H as [H | H];
      [apply evaluateSingleRule_unparsable | apply evaluateSingleRule_unknown]; exact H. }
  split; [exact Hno | apply evaluateProductRules_skip, Hno].
Qed.

(** C8. Vendor predicate: [{vendor:"Acme "}] matches the rule
    [vendor eq "acme"]; a vendor rule matches only when the vendor of the
    record is known and the operator is [eq], so [gt] and [lt] never
    match; and for a known, non-empty vendor and the operator [eq] the rule
    matches exactly when vendor and rule value are equal up to the case of
    letters and white space around them. *)
Theorem vendor_predicate (P : ProductForEvaluation.t) (r : ProductRule.t) :
  evaluateProductRules (ProductForEvaluation.mk None None (Some "Acme "))
    [ruleOf RuleField.vendor RuleOperator.eq "acme" "t"] = Normal ["t"] ∧
  (ProductRule.field r = RuleField.vendor →
   (evaluateSingleRule P r = Normal true →
      ∃ v, ProductForEvaluation.vendor P = Some v ∧
           ProductRule.operator r = RuleOperator.eq) ∧
   (ProductRule.operator r ≠ RuleOperator.eq → evaluateSingleRule P r = Normal false) ∧
   (∀ v, ProductForEvaluation.vendor P = Some v → v ≠ "" →
         ProductRule.operator r = RuleOperator.eq →
         ∃ matched, evaluateSingleRule P r = Normal matched ∧
                    (matched = true ↔ vendorEquivalent v (ProductRule.value r)))).
Proof.
  split; [reflexivity |].
  intros Hfield. unfold evaluateSingleRule. rewrite Hfield.
  destruct (ProductForEvaluation.vendor P) as [v |] eqn:Hv; simpl.
  - destruct (ProductRule.operator r) eqn:Hop; simpl.
    + destruct (nonEmpty v); simpl; repeat split; try discriminate; try reflexivity.
    + destruct (nonEmpty v); simpl; repeat split; try discriminate; try reflexivity.
    + split; [intros _; exists v; split; reflexivity |].
      split; [intros Hne; contradiction |].
      intros v' [= <-] Hne _. destruct v as [| c v]; [contradiction |]. simpl.
      eexists. split; [reflexivity |]. apply vendorEquivalent_spec.
  - split; [discriminate |]. split; [reflexivity |]. discriminate.
Qed.

(** C10. An empty vendor is an unknown vendor: against a record whose
    vendor is the empty string, a vendor rule does not match, whatever its
    operator and its value, and alone it yields no tag. *)
Theorem empty_vendor_never_matches (P : ProductForEvaluation.t) (r : ProductRule.t) :
  ProductForEvaluation.vendor P = Some "" →
  ProductRule.field r = RuleField.vendor →
  evaluateSingleRule P r = Normal false ∧ evaluateProductRules P [r] = Normal [].
Proof.
  intros Hv Hfield.
  assert (Hno : evaluateSingleRule P r = Normal false).
  { unfold evaluateSingleRule. rewrite Hfield, Hv. reflexivity. }
  split; [exact Hno |].
  rewrite (evaluateProductRules_skip P r [] Hno). reflexivity.
Qed.

(** ** Integers as numbers

    On integers below 2^53 in absolute value the addition of numbers is
    the addition of integers. *)

Lemma Pos_iter_xO (p j : positive) : Pos.iter xO p j = shl p (Pos.to_nat j).
Proof. unfold shl. rewrite Pos2Nat.inj_iter. reflexivity. Qed.

Lemma shl_add (p : positive) (a b : nat) : shl (shl p a) b = shl p (a + b).
Proof. unfold shl. rewrite Nat.add_comm. symmetry. apply Nat.iter_add. Qed.

Lemma digits_shl (p : positive) (n : nat) : digits (shl p n) = digits p + Z.of_nat n.
Proof.
  unfold digits. induction n as [| n IH]; [simpl; lia |].
  change (shl p (S n)) with (xO (shl p n)). cbn [digits2_pos].
  rewrite Pos2Z.inj_succ, Nat2Z.inj_succ. lia.
Qed.

Lemma Zpos_shl (p : positive) (n : nat) : Zpos (shl p n) = Zpos p * 2 ^ Z.of_nat n.
Proof.
  induction n as [| n IH]; [simpl; lia |].
  change (shl p (S n)) with (xO (shl p n)).
  rewrite Pos2Z.inj_xO, IH, Nat2Z.inj_succ, Z.pow_succ_r; lia.
Qed.

Lemma digits_pos (p : positive) : 1 ≤ digits p.
Proof. unfold digits. lia. Qed.

Lemma digits_bound (p : positive) (n : nat) : Zpos p < 2 ^ Z.of_nat n → digits p ≤ Z.of_nat n.
Proof.
  unfold digits. revert n. induction p as [p IH | p IH |]; intros n H.
  - destruct n as [| n]; [simpl in H; lia |].
    rewrite Nat2Z.inj_succ, Z.pow_succ_r in H by lia.
    specialize (IH n). simpl. rewrite Pos2Z.inj_succ. lia.
  - destruct n as [| n]; [simpl in H; lia |].
    rewrite Nat2Z.inj_succ, Z.pow_succ_r in H by lia.
    specialize (IH n). simpl. rewrite Pos2Z.inj_succ. lia.
  - destruct n as [| n]; [simpl in H; lia |]. simpl. lia.
Qed.

Lemma iter_pos_Pos_iter {A : Type} (f : A → A) (n : positive) (x : A) :
  SpecFloat.iter_pos f n x = Pos.iter f x n.
Proof.
  revert x. induction n as [n IH | n IH |]; intros x; simpl.
  - rewrite !IH, !Pos.iter_swap. reflexivity.
  - rewrite !IH. reflexivity.
  - reflexivity.
Qed.

Lemma shr_exact (q : positive) (n : nat) :
  Nat.iter n shr_1 (Build_shr_record (Zpos (shl q n)) false false) =
  Build_shr_record (Zpos q) false false.
Proof.
  induction n as [| n IH]; [reflexivity |].
  rewrite Nat.iter_succ_r. exact IH.
Qed.

Lemma fexp_digits (d : Z) : -1021 ≤ d → fexp prec emax d = d - 53.
Proof. unfold fexp, emin, prec, emax. lia. Qed.

Lemma round_aux_shifted (s : bool) (q : positive) (n : nat) (e : Z) :
  digits q = 53 → -1074 ≤ e + Z.of_nat n ≤ 971 →
  binary_round_aux prec emax s (Zpos (shl q n)) e loc_Exact =
  S754_finite s q (e + Z.of_nat n).
Proof.
  intros Hq He. unfold binary_round_aux.
  assert (H1 : shr_fexp prec emax (Zpos (shl q n)) e loc_Exact =
               (Build_shr_record (Zpos q) false false, e + Z.of_nat n)).
  { unfold shr_fexp, shr. cbn [Zdigits2 shr_record_of_loc].
    fold (digits (shl q n)). rewrite digits_shl, Hq, fexp_digits by lia.
    replace (53 + Z.of_nat n + e - 53 - e) with (Z.of_nat n) by lia.
    destruct n as [| n]; [simpl; f_equal; lia |].
    change (Z.of_nat (S n)) with (Zpos (Pos.of_succ_nat n)).
    cbv iota. rewrite iter_pos_Pos_iter, Pos2Nat.inj_iter, SuccNat2Pos.id_succ.
    change (nat_rect _ ?x (fun _ => ?f) ?k) with (Nat.iter k f x).
    rewrite shr_exact. reflexivity. }
  rewrite H1. cbn [shr_m loc_of_shr_record round_nearest_even].
  assert (H2 : shr_fexp prec emax (Zpos q) (e + Z.of_nat n) loc_Exact =
               (Build_shr_record (Zpos q) false false, e + Z.of_nat n)).
  { unfold shr_fexp, shr. cbn [Zdigits2 shr_record_of_loc].
    fold (digits q). rewrite Hq, fexp_digits by lia.
    replace (53 + (e + Z.of_nat n) - 53 - (e + Z.of_nat n)) with 0 by lia. reflexivity. }
  rewrite H2. cbn [shr_m].
  replace (e + Z.of_nat n <=? emax - prec) with true; [reflexivity |].
  symmetry. apply Z.leb_le. unfold emax, prec. lia.
Qed.

Lemma binary_round_shl (s : bool) (p : positive) (k : nat) :
  digits p ≤ 53 →
  binary_round prec emax s (shl p k) (- Z.of_nat k) = canonical s p.
Proof.
  intros Hp. pose proof (digits_pos p) as Hp1.
  unfold binary_round, canonical. fold (digits (shl p k)).
  rewrite digits_shl, fexp_digits by lia. unfold shl_align.
  destruct (digits p + Z.of_nat k + - Z.of_nat k - 53 - - Z.of_nat k) as [| j | j] eqn:Hj.
  - replace (shl p k) with (shl (shl p (Z.to_nat (53 - digits p))) 0)
      by (rewrite shl_add; f_equal; lia).
    rewrite round_aux_shifted; [f_equal; lia | rewrite digits_shl; lia | lia].
  - replace (shl p k) with (shl (shl p (Z.to_nat (53 - digits p))) (Pos.to_nat j))
      by (rewrite shl_add; f_equal; lia).
    rewrite round_aux_shifted; [f_equal; lia | rewrite digits_shl; lia | lia].
  - rewrite Pos_iter_xO, shl_add.
    replace (shl p (k + Pos.to_nat j)) with (shl (shl p (Z.to_nat (53 - digits p))) 0)
      by (rewrite shl_add; f_equal; lia).
    rewrite round_aux_shifted; [f_equal; lia | rewrite digits_shl; lia | lia].
Qed.

Lemma ofZ_pos (p : positive) : digits p ≤ 53 → ofZ (Zpos p) = canonical false p.
Proof. intros Hp. exact (binary_round_shl false p 0 Hp). Qed.

Lemma ofZ_neg (p : positive) : digits p ≤ 53 → ofZ (Zneg p) = canonical true p.
Proof. intros Hp. exact (binary_round_shl true p 0 Hp). Qed.

Lemma shl_align_fst (m : positive) (e ez : Z) :
  ez ≤ e → (shl_align m e ez).1 = shl m (Z.to_nat (e - ez)).
Proof.
  intros H. unfold shl_align. destruct (ez - e) as [| j | j] eqn:Hj; simpl.
  - replace (Z.to_nat (e - ez)) with 0%nat by lia. reflexivity.
  - lia.
  - rewrite Pos_iter_xO. f_equal. lia.
Qed.

Lemma cond_Zopp_mul (s : bool) (x c : Z) : cond_Zopp s (x * c) = cond_Zopp s x * c.
Proof. destruct s; simpl; lia. Qed.

Lemma add_canonical (sa sb : bool) (pa pb : positive) :
  digits pa ≤ 53 → digits pb ≤ 53 →
  Z.abs (cond_Zopp sa (Zpos pa) + cond_Zopp sb (Zpos pb)) < 2 ^ 53 →
  add (canonical sa pa) (canonical sb pb) =
  ofZ (cond_Zopp sa (Zpos pa) + cond_Zopp sb (Zpos pb)).
Proof.
  intros Ha Hb Hsum.
  pose proof (digits_pos pa) as Ha1. pose proof (digits_pos pb) as Hb1.
  unfold add, canonical, SFadd.
  set (ez := Z.min (digits pa - 53) (digits pb - 53)).
  rewrite !shl_align_fst, !shl_add by lia.
  replace (Z.to_nat (53 - digits pa) + Z.to_nat (digits pa - 53 - ez))%nat
    with (Z.to_nat (- ez)) by lia.
  replace (Z.to_nat (53 - digits pb) + Z.to_nat (digits pb - 53 - ez))%nat
    with (Z.to_nat (- ez)) by lia.
  rewrite !Zpos_shl, !cond_Zopp_mul, <- Z.mul_add_distr_r.
  assert (Hez : ez = - Z.of_nat (Z.to_nat (- ez))) by lia.
  generalize dependent (Z.to_nat (- ez)). intros K HK. clearbody ez. subst ez.
  destruct (cond_Zopp sa (Zpos pa) + cond_Zopp sb (Zpos pb)) as [| r | r].
  - reflexivity.
  - assert (Hd : digits r ≤ 53) by (apply (digits_bound r 53); simpl in *; lia).
    rewrite ofZ_pos by exact Hd.
    rewrite <- Zpos_shl. apply binary_round_shl, Hd.
  - assert (Hd : digits r ≤ 53) by (apply (digits_bound r 53); simpl in *; lia).
    rewrite ofZ_neg by exact Hd.
    change (Z.neg r) with (- Z.pos r). rewrite Z.mul_opp_l, <- Zpos_shl.
    apply binary_round_shl, Hd.
Qed.

Lemma add_ofZ (a b : Z) :
  Z.abs a < 2 ^ 53 → Z.abs b < 2 ^ 53 → Z.abs (a + b) < 2 ^ 53 →
  add (ofZ a) (ofZ b) = ofZ (a + b).
Proof.
  intros Ha Hb Hab.
  assert (Hd : ∀ p, Z.pos p < 2 ^ 53 → digits p ≤ 53)
    by (intros p Hp; apply (digits_bound p 53); exact Hp).
  destruct a as [| pa | pa], b as [| pb | pb]; try reflexivity;
    rewrite ?Z.add_0_l, ?Z.add_0_r;
    rewrite ?ofZ_pos, ?ofZ_neg by (apply Hd; simpl in *; lia); try reflexivity.
  - apply (add_canonical false false); try (apply Hd; simpl in *; lia). exact Hab.
  - apply (add_canonical false true); try (apply Hd; simpl in *; lia). exact Hab.
  - apply (add_canonical true false); try (apply Hd; simpl in *; lia). exact Hab.
  - apply (add_canonical true true); try (apply Hd; simpl in *; lia). exact Hab.
Qed.

Lemma absoluteSum_nonneg (counts : list Z) : 0 ≤ absoluteSum counts.
Proof. induction counts as [| n counts IH]; simpl; lia. Qed.

Lemma fold_left_add_ofZ (counts : list Z) (acc : Z) :
  Z.abs acc + absoluteSum counts < 2 ^ 53 →
  fold_left add (map ofZ counts) (ofZ acc) = ofZ (acc + integerSum counts).
Proof.
  revert acc. induction counts as [| n counts IH]; intros acc H; simpl.
  - f_equal. lia.
  - pose proof (absoluteSum_nonneg counts) as Hpos. simpl in H.
    rewrite add_ofZ by lia. rewrite IH by lia. f_equal. lia.
Qed.

Lemma inventorySum_integers (variants : list Variant.t) (counts : list Z) :
  map countOrZero variants = map ofZ counts →
  absoluteSum counts < 2 ^ 53 →
  inventorySum variants = ofZ (integerSum counts).
Proof.
  intros Hcounts Hbound. unfold inventorySum. rewrite Hcounts.
  apply (fold_left_add_ofZ counts 0). simpl. lia.
Qed.

(** ** The payload mapper *)

Lemma split_cons (sep : ascii) (s : string) :
  ∃ piece pieces, split sep s = piece :: pieces.
Proof.
  destruct s as [| c s]; simpl; [eauto |].
  destruct (Ascii.eqb c sep); [eauto |].
  destruct (split sep s); eauto.
Qed.

Lemma concat_String (sep : string) (c : ascii) (piece : string) (pieces : list string) :
  String.concat sep (String c piece :: pieces) =
  String c (String.concat sep (piece :: pieces)).
Proof. destruct pieces; reflexivity. Qed.

Lemma concat_cons_cons (sep x y : string) (pieces : list string) :
  String.concat sep (x :: y :: pieces) =
  (x ++ sep ++ String.concat sep (y :: pieces))%string.
Proof. reflexivity. Qed.

(** Joining the pieces with the separator gives the string back. *)
Lemma concat_split (sep : ascii) (s : string) :
  String.concat (String sep "") (split sep s) = s.
Proof.
  induction s as [| c s IH]; [reflexivity |].
  cbn [split]. destruct (Ascii.eqb_spec c sep) as [-> | Hne].
  - destruct (split_cons sep s) as (piece & pieces & Hs).
    rewrite Hs in *. rewrite concat_cons_cons, IH. reflexivity.
  - destruct (split_cons sep s) as (piece & pieces & Hs).
    rewrite Hs in *. rewrite concat_String, IH. reflexivity.
Qed.

(** No piece contains the separator. *)
Lemma split_no_separator (sep : ascii) (s : string) :
  Forall (fun piece => occurs sep piece = false) (split sep s).
Proof.
  induction s as [| c s IH]; simpl.
  - repeat constructor.
  - destruct (Ascii.eqb c sep) eqn:Hc.
    + constructor; [reflexivity | exact IH].
    + destruct (split sep s) as [| piece pieces]; simpl.
      * repeat constructor. simpl. rewrite Hc. reflexivity.
      * inversion IH; subst. constructor; [| assumption]. simpl. rewrite Hc. assumption.
Qed.

Lemma trimStart_head (s : string) :
  match trimStart s with
  | String c _ => isWhiteSpace c = false
  | EmptyString => True
  end.
Proof.
  induction s as [| c s IH]; simpl; [exact I |].
  destruct (isWhiteSpace c) eqn:Hc; [exact IH | exact Hc].
Qed.

Lemma trimEnd_idempotent (s : string) : trimEnd (trimEnd s) = trimEnd s.
Proof.
  induction s as [| c s IH]; simpl; [reflexivity |].
  destruct (trimEnd s) as [| d t] eqn:Ht.
  - destruct (isWhiteSpace c) eqn:Hc; simpl; [reflexivity | rewrite Hc; reflexivity].
  - change (trimEnd (String c (String d t)))
      with (match trimEnd (String d t) with
            | EmptyString => if isWhiteSpace c then EmptyString else String c EmptyString
            | u => String c u
            end).
    rewrite IH. reflexivity.
Qed.

Lemma trimEnd_head (c : ascii) (s : string) :
  isWhiteSpace c = false → ∃ t, trimEnd (String c s) = String c t.
Proof.
  intros Hc. simpl. destruct (trimEnd s); rewrite ?Hc; eauto.
Qed.

Lemma trim_idempotent (s : string) : trim (trim s) = trim s.
Proof.
  unfold trim. pose proof (trimStart_head s) as Hhead.
  destruct (trimStart s) as [| c u]; [reflexivity |].
  destruct (trimEnd_head c u Hhead) as [t Ht]. rewrite Ht.
  assert (Hstart : trimStart (String c t) = String c t) by (simpl; rewrite Hhead; reflexivity).
  rewrite Hstart, <- Ht. apply trimEnd_idempotent.
Qed.

Lemma fold_left_add_map (variants : list Variant.t) (start : number) :
  fold_left (fun sum variant => add sum (default (ofZ 0) (Variant.inventory_quantity variant)))
    variants start =
  fold_left add (map countOrZero variants) start.
Proof.
  revert start. induction variants as [| v variants IH]; intros start; simpl;
    [reflexivity | apply IH].
Qed.

(** C4, as the code has it. The mapped total inventory is [null] exactly
    when the payload carries no [variants] array; with an array, also an
    empty one, it is the sum of the inventory counts of all its entries,
    added as numbers from left to right, a missing count counting as zero,
    so that an empty array gives the number zero. When the counts are
    integers whose absolute values add up to less than 2^53, that sum is
    the number of the sum of the integers. *)
Theorem inventory_mapping (payload : ProductWebhookPayload.t) :
  let total :=
    ProductForEvaluation.totalInventory
      (MappedProduct.productForEvaluation (mapWebhookPayloadToProduct payload)) in
  match ProductWebhookPayload.variants payload with
  | None => total = None
  | Some variants =>
      total = Some (inventorySum variants) ∧
      ∀ counts : list Z,
        map countOrZero variants = map ofZ counts →
        absoluteSum counts < 2 ^ 53 →
        total = Some (ofZ (integerSum counts))
  end.
Proof.
  unfold mapWebhookPayloadToProduct. simpl.
  destruct (ProductWebhookPayload.variants payload) as [variants |]; simpl.
  - rewrite fold_left_add_map. fold (inventorySum variants).
    split; [reflexivity |].
    intros counts Hcounts Hbound. f_equal.
    apply inventorySum_integers; assumption.
  - reflexivity.
Qed.

(** C4 as stated fails: a payload whose [variants] array is empty has no
    variants, and its total inventory is the number zero, not [null]. *)
Lemma inventory_no_variants_counterexample :
  ¬ (∀ payload : ProductWebhookPayload.t,
       default [] (ProductWebhookPayload.variants payload) = [] →
       ProductForEvaluation.totalInventory
         (MappedProduct.productForEvaluation (mapWebhookPayloadToProduct payload)) = None).
Proof.
  intros H.
  specialize (H (ProductWebhookPayload.mk 1 None (Some []) None) eq_refl).
  discriminate H.
Qed.

(** C5. Price mapping: the mapped price is read from the price string of
    the first variant alone, so payloads with the same first variant have
    the same mapped price; when the string begins like a decimal number the
    price is the number that [parseFloat] reads, never NaN; and the price
    is [null] when there is no first variant, when its price string is
    absent or when the string does not read as a number; with a [null]
    price no price rule matches. *)
Theorem price_mapping (payload : ProductWebhookPayload.t) :
  let product := MappedProduct.productForEvaluation (mapWebhookPayloadToProduct payload) in
  let firstVariant := ProductWebhookPayload.variants payload ≫= head in
  (∀ s, firstVariant ≫= Variant.price = Some s → readsAsFloat s = true →
        ProductForEvaluation.price product = Some (parseFloat s) ∧
        isNaN (parseFloat s) = false) ∧
  (∀ payload', ProductWebhookPayload.variants payload' ≫= head = firstVariant →
        ProductForEvaluation.price
          (MappedProduct.productForEvaluation (mapWebhookPayloadToProduct payload')) =
        ProductForEvaluation.price product) ∧
  (firstVariant = None ∨ firstVariant ≫= Variant.price = None ∨
   (∃ s, firstVariant ≫= Variant.price = Some s ∧ readsAsFloat s = false) →
     ProductForEvaluation.price product = None ∧
     ∀ r, ProductRule.field r = RuleField.price →
          evaluateSingleRule product r = Normal false).
Proof.
  cbv zeta. unfold mapWebhookPayloadToProduct. simpl.
  split; [| split].
  - intros s -> Hs. simpl. rewrite parseFloat_isNaN, Hs. split; reflexivity.
  - intros payload' ->. reflexivity.
  - intros H.
    set (price := match (ProductWebhookPayload.variants payload ≫= head) ≫= Variant.price with
                  | Some p => Some (parseFloat p)
                  | None => None
                  end).
    assert (Hnone : (if isNaN (default NaN price) then None else price) = None).
    { subst price. destruct H as [-> | [-> | (s & -> & Hs)]]; simpl; [reflexivity | reflexivity |].
      rewrite parseFloat_isNaN, Hs. reflexivity. }
    split; [exact Hnone |].
    intros r Hfield. unfold evaluateSingleRule. rewrite Hfield. simpl.
    rewrite Hnone. reflexivity.
Qed.

(** C6, as the code has it. Without a tags string the existing tag list is
    empty; with one, it is the list of the pieces between the commas of
    the string, each trimmed, the empty ones left out, in their order and
    with their repetitions. The pieces joined by commas are the string and
    contain no comma; every tag of the list is non-empty and trimmed. *)
Theorem existing_tags_parsing (payload : ProductWebhookPayload.t) :
  let existing := MappedProduct.existingTags (mapWebhookPayloadToProduct payload) in
  match ProductWebhookPayload.tags payload with
  | None => existing = []
  | Some tags =>
      ∃ pieces,
        String.concat "," pieces = tags ∧
        Forall (fun piece => occurs "," piece = false) pieces ∧
        existing = List.filter nonEmpty (map trim pieces)
  end ∧
  Forall (fun tag => tag ≠ "" ∧ trim tag = tag) existing.
Proof.
  cbv zeta. unfold mapWebhookPayloadToProduct. simpl.
  destruct (ProductWebhookPayload.tags payload) as [tags |]; simpl.
  - split.
    + exists (split "," tags).
      split; [apply concat_split |]. split; [apply split_no_separator | reflexivity].
    + apply List.Forall_forall. intros tag Hin.
      apply List.filter_In in Hin as [Hin Hne]. split.
      * intros ->. discriminate Hne.
      * apply List.in_map_iff in Hin as (piece & <- & _). apply trim_idempotent.
  - split; [reflexivity | constructor].
Qed.

(** C6 as stated fails: a tag that occurs twice in the string occurs twice
    in the list. *)
Lemma existing_tags_duplicates_counterexample :
  ¬ (∀ payload : ProductWebhookPayload.t,
       NoDup (MappedProduct.existingTags (mapWebhookPayloadToProduct payload))).
Proof.
  intros H.
  specialize (H (ProductWebhookPayload.mk 1 None None (Some "sale,sale"))).
  apply NoDup_cons in H as [Hnotin _]. apply Hnotin. constructor.
Qed.

(** ** The applier *)

(** The product mutations of an invocation, read off its branches. *)
Lemma applyProductRulesForShop_calls (db : Database) (shopDomain : string)
    (admin : AdminContext) (payload : ProductWebhookPayload.t) :
  mutationCalls (applyProductRulesForShop db shopDomain admin payload).1 =
  let mapped := mapWebhookPayloadToProduct payload in
  match storedRuleList db shopDomain with
  | [] => []
  | rules =>
      match evaluateProductRules (MappedProduct.productForEvaluation mapped) rules with
      | Normal (tag :: ruleTags) =>
          match mergeProductTags (MappedProduct.existingTags mapped) (tag :: ruleTags) with
          | Some mergedTags =>
              [ProductInput.mk (MappedProduct.shopifyProductId mapped) mergedTags]
          | None => []
          end
      | _ => []
      end
  end.
Proof.
  unfold applyProductRulesForShop, storedRuleList.
  destruct (findUniqueShop db shopDomain) as [shopId |]; [| reflexivity].
  destruct (getRulesForShop db shopId) as [| r rs]; [reflexivity |].
  cbn [length Nat.eqb]. cbv zeta.
  destruct (evaluateProductRules _ (r :: rs)) as [[| tag ruleTags] |]; try reflexivity.
  cbn [length Nat.eqb].
  destruct (mergeProductTags _ (tag :: ruleTags)); [| reflexivity].
  destruct (0 <? length _)%nat; reflexivity.
Qed.

(** Without stored rules the invocation does not look at the payload. *)
Lemma applyProductRulesForShop_no_rules (db : Database) (shopDomain : string)
    (admin : AdminContext) (payload payload' : ProductWebhookPayload.t) :
  storedRuleList db shopDomain = [] →
  applyProductRulesForShop db shopDomain admin payload' =
  applyProductRulesForShop db shopDomain admin payload.
Proof.
  unfold applyProductRulesForShop, storedRuleList.
  destruct (findUniqueShop db shopDomain) as [shopId |]; [| reflexivity].
  intros ->. reflexivity.
Qed.

(** C3. Applier mutation discipline: an invocation issues at most one
    product mutation. It issues none when the rule list stored for the
    shop is empty, and then does the same whatever the payload; none when
    the evaluation of the mapped record yields no tag; none when the merge
    with the existing tags returns [null]; and in all remaining cases
    exactly one, whose input is the canonical product id, the prefix
    [gid://shopify/Product/] before the id of the payload, with the whole
    merged tag list. *)
Theorem applier_mutation_discipline (db : Database) (shopDomain : string)
    (admin : AdminContext) (payload : ProductWebhookPayload.t) :
  let calls := mutationCalls (applyProductRulesForShop db shopDomain admin payload).1 in
  let rules := storedRuleList db shopDomain in
  let mapped := mapWebhookPayloadToProduct payload in
  (length calls ≤ 1)%nat ∧
  (rules = [] →
     calls = [] ∧
     ∀ payload', applyProductRulesForShop db shopDomain admin payload' =
                 applyProductRulesForShop db shopDomain admin payload) ∧
  (∃ ruleTags,
     evaluateProductRules (MappedProduct.productForEvaluation mapped) rules = Normal ruleTags ∧
     (ruleTags = [] → calls = []) ∧
     (mergeProductTags (MappedProduct.existingTags mapped) ruleTags = None → calls = []) ∧
     (rules ≠ [] → ruleTags ≠ [] →
      ∀ mergedTags,
        mergeProductTags (MappedProduct.existingTags mapped) ruleTags = Some mergedTags →
        calls = [ProductInput.mk (MappedProduct.shopifyProductId mapped) mergedTags])) ∧
  MappedProduct.shopifyProductId mapped =
    ("gid://shopify/Product/" ++ numberToString (ProductWebhookPayload.id payload))%string.
Proof.
  cbv zeta. rewrite applyProductRulesForShop_calls. cbv zeta.
  destruct (evaluateProductRules_total
              (MappedProduct.productForEvaluation (mapWebhookPayloadToProduct payload))
              (storedRuleList db shopDomain)) as [ruleTags Hev].
  destruct (storedRuleList db shopDomain) as [| r rs] eqn:Hrules.
  - injection Hev as <-.
    split; [simpl; lia |]. split; [| split; [| reflexivity]].
    + intros _. split; [reflexivity |].
      intros payload'. apply applyProductRulesForShop_no_rules, Hrules.
    + exists []. split; [reflexivity |]. repeat split; try reflexivity. contradiction.
  - rewrite Hev. split; [| split; [discriminate | split; [| reflexivity]]].
    + destruct ruleTags; [simpl; lia |]. destruct (mergeProductTags _ _); simpl; lia.
    + exists ruleTags. split; [reflexivity |]. split; [| split].
      * intros ->. reflexivity.
      * intros Hmerge. destruct ruleTags; [reflexivity |]. rewrite Hmerge. reflexivity.
      * intros _ HruleTags mergedTags Hmerge.
        destruct ruleTags; [contradiction |]. rewrite Hmerge. reflexivity.
Qed.

(** ** The scenarios of the specification *)

(** Existing tag [sale], rule [price > 100], price 120: one mutation with
    both tags. *)
Example scenario_expensive :
  mutationCalls
    (applyProductRulesForShop (shopDatabase [expensiveRule]) "shop-1.myshopify.com"
       quietAdmin (payloadPricedAt "120.00" "sale")).1 =
  [ProductInput.mk "gid://shopify/Product/42" ["sale"; "expensive"]].
Proof. vm_compute. reflexivity. Qed.

(** The same rule, price 50: no tag, no mutation. *)
Example scenario_cheap :
  applyProductRulesForShop (shopDatabase [expensiveRule]) "shop-1.myshopify.com"
    quietAdmin (payloadPricedAt "50" "sale") = ([], Normal ()).
Proof. vm_compute. reflexivity. Qed.

(** Rule [inventory < 5], two variants with 2 and 1 in stock: total 3, and
    the rule matches. *)
Example scenario_low_stock :
  let payload :=
    ProductWebhookPayload.mk 42 None
      (Some [Variant.mk None (Some (ofZ 2)); Variant.mk None (Some (ofZ 1))]) None in
  let product := MappedProduct.productForEvaluation (mapWebhookPayloadToProduct payload) in
  ProductForEvaluation.totalInventory product = Some (ofZ 3) ∧
  evaluateProductRules product [lowStockRule] = Normal ["low-stock"].
Proof. vm_compute. split; reflexivity. Qed.

(** Rule [vendor == "Acme"], vendor [" acme "]: a match. *)
Example scenario_vendor :
  evaluateProductRules (ProductForEvaluation.mk None None (Some " acme "))
    [ruleOf RuleField.vendor RuleOperator.eq "Acme" "acme"] = Normal ["acme"].
Proof. vm_compute. reflexivity. Qed.

(** Rule [price gt "abc"], price 200: no match, no mutation. *)
Example scenario_malformed :
  applyProductRulesForShop
    (shopDatabase [ruleOf RuleField.price RuleOperator.gt "abc" "expensive"])
    "shop-1.myshopify.com" quietAdmin (payloadPricedAt "200" "sale") = ([], Normal ()).
Proof. vm_compute. reflexivity. Qed.

(** The tag [expensive] is there already: no mutation. *)
Example scenario_no_change :
  applyProductRulesForShop (shopDatabase [expensiveRule]) "shop-1.myshopify.com"
    quietAdmin (payloadPricedAt "120.00" "sale, expensive") = ([], Normal ()).
Proof. vm_compute. reflexivity. Qed.

(** A domain without a shop record: a warning and nothing else. *)
Example scenario_unknown_shop :
  applyProductRulesForShop (shopDatabase [expensiveRule]) "other.myshopify.com"
    quietAdmin (payloadPricedAt "120.00" "sale") =
  ([ConsoleWarn "No Shop record found for domain other.myshopify.com"], Normal ()).
Proof. vm_compute. reflexivity. Qed.

(** ** The claims at concrete inputs *)

Lemma evaluate_merge_idempotent_witness :
  evaluateProductRules (pricedAt 120) [expensiveRule] = Normal ["expensive"] ∧
  mergeProductTags ["sale"] ["expensive"] = Some ["sale"; "expensive"] ∧
  mergeProductTags ["sale"; "expensive"] ["expensive"] = None.
Proof.
  split; [vm_compute; reflexivity |]. split; [vm_compute; reflexivity |].
  destruct (evaluate_merge_idempotent (pricedAt 120) [expensiveRule] ["sale"])
    as (R & HR & H).
  vm_compute in HR. injection HR as <-.
  exact (H ["expensive"] eq_refl).
Defined.

Lemma merge_non_destructive_witness :
  mergeProductTags ["sale"] ["expensive"] = Some ["sale"; "expensive"] ∧
  ["sale"] ⊆ ["sale"; "expensive"] ∧ ["expensive"] ⊆ ["sale"; "expensive"].
Proof.
  split; [vm_compute; reflexivity |].
  pose proof (merge_non_destructive ["sale"] ["expensive"]) as H.
  change (mergeProductTags ["sale"] ["expensive"]) with (Some ["sale"; "expensive"]) in H.
  destruct H as (_ & HE & HR & _). split; [exact HE | exact HR].
Defined.

Lemma applier_mutation_discipline_witness :
  storedRuleList (shopDatabase [expensiveRule]) "shop-1.myshopify.com" ≠ [] ∧
  mergeProductTags
    (MappedProduct.existingTags (mapWebhookPayloadToProduct (payloadPricedAt "120.00" "sale")))
    ["expensive"] = Some ["sale"; "expensive"] ∧
  mutationCalls
    (applyProductRulesForShop (shopDatabase [expensiveRule]) "shop-1.myshopify.com"
       quietAdmin (payloadPricedAt "120.00" "sale")).1 =
  [ProductInput.mk
     (MappedProduct.shopifyProductId (mapWebhookPayloadToProduct (payloadPricedAt "120.00" "sale")))
     ["sale"; "expensive"]].
Proof.
  assert (Hrules : storedRuleList (shopDatabase [expensiveRule]) "shop-1.myshopify.com" ≠ [])
    by (vm_compute; discriminate).
  assert (Hmerge :
    mergeProductTags
      (MappedProduct.existingTags (mapWebhookPayloadToProduct (payloadPricedAt "120.00" "sale")))
      ["expensive"] = Some ["sale"; "expensive"])
    by (vm_compute; reflexivity).
  split; [exact Hrules |]. split; [exact Hmerge |].
  destruct (applier_mutation_discipline (shopDatabase [expensiveRule])
              "shop-1.myshopify.com" quietAdmin (payloadPricedAt "120.00" "sale"))
    as (_ & _ & (ruleTags & Hev & _ & _ & Hone) & _).
  vm_compute in Hev. injection Hev as <-.
  apply (Hone Hrules); [discriminate | exact Hmerge].
Defined.

Lemma inventory_mapping_witness :
  map countOrZero
    [Variant.mk None (Some (ofZ 2)); Variant.mk None None; Variant.mk None (Some (ofZ 1))] =
  map ofZ [2; 0; 1] ∧
  absoluteSum [2; 0; 1] < 2 ^ 53 ∧
  ProductForEvaluation.totalInventory
    (MappedProduct.productForEvaluation
       (mapWebhookPayloadToProduct
          (ProductWebhookPayload.mk 42 None
             (Some [Variant.mk None (Some (ofZ 2)); Variant.mk None None;
                    Variant.mk None (Some (ofZ 1))]) None))) =
  Some (ofZ (integerSum [2; 0; 1])).
Proof.
  split; [reflexivity |]. split; [reflexivity |].
  apply (inventory_mapping
           (ProductWebhookPayload.mk 42 None
              (Some [Variant.mk None (Some (ofZ 2)); Variant.mk None None;
                     Variant.mk None (Some (ofZ 1))]) None));
    reflexivity.
Defined.

Lemma price_mapping_witness :
  (ProductWebhookPayload.variants (payloadPricedAt "abc" "sale") ≫= head) ≫= Variant.price
    = Some "abc" ∧
  readsAsFloat "abc" = false ∧
  ProductForEvaluation.price
    (MappedProduct.productForEvaluation
       (mapWebhookPayloadToProduct (payloadPricedAt "abc" "sale"))) = None ∧
  evaluateSingleRule
    (MappedProduct.productForEvaluation
       (mapWebhookPayloadToProduct (payloadPricedAt "abc" "sale")))
    expensiveRule = Normal false.
Proof.
  split; [reflexivity |]. split; [reflexivity |].
  destruct (price_mapping (payloadPricedAt "abc" "sale")) as (_ & _ & H).
  destruct H as [Hnone Hrule].
  - right. right. exists "abc". split; reflexivity.
  - split; [exact Hnone | apply Hrule; reflexivity].
Defined.

Lemma existing_tags_parsing_witness :
  Forall (fun tag => tag ≠ "" ∧ trim tag = tag)
    (MappedProduct.existingTags
       (mapWebhookPayloadToProduct
          (ProductWebhookPayload.mk 42 None None (Some " sale, ,new ,sale")))) ∧
  MappedProduct.existingTags
    (mapWebhookPayloadToProduct
       (ProductWebhookPayload.mk 42 None None (Some " sale, ,new ,sale"))) =
  ["sale"; "new"; "sale"].
Proof.
  split; [| vm_compute; reflexivity].
  exact (proj2 (existing_tags_parsing
                  (ProductWebhookPayload.mk 42 None None (Some " sale, ,new ,sale")))).
Defined.

Lemma evaluation_total_no_match_witness :
  valueUnparsable (ruleOf RuleField.price RuleOperator.gt "abc" "t") = true ∧
  evaluateSingleRule (pricedAt 50) (ruleOf RuleField.price RuleOperator.gt "abc" "t")
    = Normal false ∧
  evaluateProductRules (pricedAt 50)
    [ruleOf RuleField.price RuleOperator.gt "abc" "t"; expensiveRule]
    = evaluateProductRules (pricedAt 50) [expensiveRule].
Proof.
  split; [reflexivity |].
  apply (evaluation_total_no_match (pricedAt 50)
           (ruleOf RuleField.price RuleOperator.gt "abc" "t") [expensiveRule]).
  left. reflexivity.
Defined.

Lemma vendor_predicate_witness :
  ProductRule.field (ruleOf RuleField.vendor RuleOperator.eq "acme" "t") = RuleField.vendor ∧
  "Acme " ≠ "" ∧
  vendorEquivalent "Acme " "acme".
Proof.
  split; [reflexivity |]. split; [discriminate |].
  destruct (vendor_predicate (ProductForEvaluation.mk None None (Some "Acme "))
              (ruleOf RuleField.vendor RuleOperator.eq "acme" "t")) as [_ H].
  destruct (H eq_refl) as (_ & _ & Hmatch).
  destruct (Hmatch "Acme " eq_refl ltac:(discriminate) eq_refl) as (matched & Hev & Hiff).
  vm_compute in Hev. injection Hev as <-. apply Hiff. reflexivity.
Defined.

Lemma disabled_rules_contribute_nothing_witness :
  List.filter ProductRule.enabled [disabledRule] = [] ∧
  evaluateProductRules (pricedAt 120) [disabledRule] = Normal [].
Proof.
  split; [reflexivity |].
  apply (disabled_rules_contribute_nothing (pricedAt 120) [disabledRule]). reflexivity.
Defined.

Lemma empty_vendor_never_matches_witness :
  ProductForEvaluation.vendor (ProductForEvaluation.mk None None (Some "")) = Some "" ∧
  trim (ProductRule.value (ruleOf RuleField.vendor RuleOperator.eq "  " "t")) = "" ∧
  evaluateSingleRule (ProductForEvaluation.mk None None (Some ""))
    (ruleOf RuleField.vendor RuleOperator.eq "  " "t") = Normal false.
Proof.
  split; [reflexivity |]. split; [reflexivity |].
  apply (empty_vendor_never_matches (ProductForEvaluation.mk None None (Some ""))
           (ruleOf RuleField.vendor RuleOperator.eq "  " "t")); reflexivity.
Defined.

(** * Further properties of the code *)

(** ** The rule store *)

Lemma insertByCreatedAt_perm (rule : ProductRule.t) (sorted : list ProductRule.t) :
  insertByCreatedAt rule sorted ≡ₚ rule :: sorted.
Proof.
  induction sorted as [| r rest IH]; simpl; [reflexivity |].
  destruct (_ <=? _); [reflexivity |]. rewrite IH. apply Permutation_swap.
Qed.

Lemma orderByCreatedAt_perm (rules : list ProductRule.t) : orderByCreatedAt rules ≡ₚ rules.
Proof.
  induction rules as [| r rules IH]; simpl; [reflexivity |].
  rewrite insertByCreatedAt_perm, IH. reflexivity.
Qed.

Lemma insertByCreatedAt_sorted (rule : ProductRule.t) (sorted : list ProductRule.t) :
  StronglySorted createdBefore sorted →
  StronglySorted createdBefore (insertByCreatedAt rule sorted).
Proof.
  induction 1 as [| r rest Hsorted IH Hall]; simpl.
  - repeat constructor.
  - destruct (Z.leb_spec (ProductRule.createdAt rule) (ProductRule.createdAt r)) as [Hle | Hlt].
    + constructor; [constructor; assumption |].
      constructor; [exact Hle |].
      eapply Forall_impl; [exact Hall |]. unfold createdBefore. intros; lia.
    + constructor; [exact IH |].
      rewrite insertByCreatedAt_perm. constructor; [unfold createdBefore; lia | exact Hall].
Qed.

Lemma orderByCreatedAt_sorted (rules : list ProductRule.t) :
  StronglySorted createdBefore (orderByCreatedAt rules).
Proof.
  induction rules as [| r rules IH]; simpl; [constructor |].
  apply insertByCreatedAt_sorted, IH.
Qed.

Lemma getRulesForShop_elem_of (db : Database) (shopId : string) (rule : ProductRule.t) :
  rule ∈ getRulesForShop db shopId ↔
  rule ∈ product_rules db ∧ ProductRule.shopId rule = shopId.
Proof.
  unfold getRulesForShop. rewrite orderByCreatedAt_perm.
  rewrite list_elem_of_In, List.filter_In, <- list_elem_of_In, String.eqb_eq. reflexivity.
Qed.

(** X1. The rules that [getRulesForShop] loads for a shop are the stored
    rows of that shop, each as often as it is stored, and no row of another
    shop: a rule is loaded exactly when it is stored with this [shopId].
    They come in ascending order of [createdAt]. *)
Theorem getRulesForShop_scoped_sorted (db : Database) (shopId : string) :
  getRulesForShop db shopId ≡ₚ
    List.filter (fun rule => String.eqb (ProductRule.shopId rule) shopId) (product_rules db) ∧
  (∀ rule, rule ∈ getRulesForShop db shopId ↔
           rule ∈ product_rules db ∧ ProductRule.shopId rule = shopId) ∧
  StronglySorted createdBefore (getRulesForShop db shopId).
Proof.
  split; [apply orderByCreatedAt_perm |].
  split; [apply getRulesForShop_elem_of | apply orderByCreatedAt_sorted].
Qed.

Lemma insertByCreatedAt_last (rule created : ProductRule.t) (rules : list ProductRule.t) :
  createdBefore rule created →
  insertByCreatedAt rule (rules ++ [created])%list =
  (insertByCreatedAt rule rules ++ [created])%list.
Proof.
  intros Hle. induction rules as [| r rules IH]; simpl.
  - unfold createdBefore in Hle. destruct (Z.leb_spec (ProductRule.createdAt rule)
      (ProductRule.createdAt created)); [reflexivity | lia].
  - destruct (_ <=? _); [reflexivity |]. rewrite IH. reflexivity.
Qed.

Lemma orderByCreatedAt_last (created : ProductRule.t) (rules : list ProductRule.t) :
  Forall (fun rule => createdBefore rule created) rules →
  orderByCreatedAt (rules ++ [created])%list = (orderByCreatedAt rules ++ [created])%list.
Proof.
  induction 1 as [| r rules Hr Hall IH]; simpl; [reflexivity |].
  rewrite IH. apply insertByCreatedAt_last, Hr.
Qed.

Lemma existsb_id_false (rules : list ProductRule.t) (newId : string) :
  existsb (fun rule => String.eqb (ProductRule.id rule) newId) rules = false ↔
  ∀ rule, rule ∈ rules → ProductRule.id rule ≠ newId.
Proof.
  rewrite <- not_true_iff_false, existsb_exists. split.
  - intros H rule Hin Heq. apply H. exists rule.
    split; [apply list_elem_of_In, Hin | apply String.eqb_eq, Heq].
  - intros H (rule & Hin & Heq). apply (H rule); [apply list_elem_of_In, Hin |].
    apply String.eqb_eq, Heq.
Qed.

Lemma createRuleForShop_resolved (db db' : Database) (newId : string) (now : Z)
    (shopId : string) (data : RuleData.t) (created : ProductRule.t) :
  createRuleForShop db newId now shopId data = Resolved (db', created) →
  created =
    ProductRule.mk newId shopId (RuleData.field data) (RuleData.operator data)
      (RuleData.value data) (RuleData.tag data) (RuleData.enabled data) now ∧
  shops db' = shops db ∧
  product_rules db' = (product_rules db ++ [created])%list.
Proof.
  unfold createRuleForShop.
  destruct (existsb _ (product_rules db)); [discriminate |].
  destruct (negb _); [discriminate |].
  intros [= <- <-]. repeat split.
Qed.

Lemma getRulesForShop_created_other (db db' : Database) (created : ProductRule.t)
    (other : string) :
  product_rules db' = (product_rules db ++ [created])%list →
  other ≠ ProductRule.shopId created →
  getRulesForShop db' other = getRulesForShop db other.
Proof.
  intros Hrules Hother. unfold getRulesForShop. rewrite Hrules, List.filter_app.
  cbn [List.filter].
  destruct (String.eqb_spec (ProductRule.shopId created) other) as [Heq | _]; [congruence |].
  rewrite app_nil_r. reflexivity.
Qed.

(** X2. [createRuleForShop] either resolves or rejects. When it resolves,
    the created row has the fresh id, the given shop and data and the
    current time; no stored rule had that id and the shop exists; the shops
    are unchanged; the rules of the shop are the former ones and the created
    one, the rules of every other shop are unchanged, and the created rule
    is loaded last when no rule of the shop is younger. It rejects only for
    an id that is already stored or for a shop that does not exist. *)
Theorem createRuleForShop_effect (db : Database) (newId : string) (now : Z)
    (shopId : string) (data : RuleData.t) :
  match createRuleForShop db newId now shopId data with
  | Resolved (db', created) =>
      created =
        ProductRule.mk newId shopId (RuleData.field data) (RuleData.operator data)
          (RuleData.value data) (RuleData.tag data) (RuleData.enabled data) now ∧
      (∀ rule, rule ∈ product_rules db → ProductRule.id rule ≠ newId) ∧
      (∃ shop, shop ∈ shops db ∧ Shop.id shop = shopId) ∧
      shops db' = shops db ∧
      getRulesForShop db' shopId ≡ₚ created :: getRulesForShop db shopId ∧
      (∀ other, other ≠ shopId → getRulesForShop db' other = getRulesForShop db other) ∧
      (Forall (fun rule => createdBefore rule created) (getRulesForShop db shopId) →
       getRulesForShop db' shopId = (getRulesForShop db shopId ++ [created])%list)
  | Rejected UniqueConstraintFailed =>
      ∃ rule, rule ∈ product_rules db ∧ ProductRule.id rule = newId
  | Rejected ForeignKeyConstraintFailed =>
      ∀ shop, shop ∈ shops db → Shop.id shop ≠ shopId
  | Rejected RecordNotFound => False
  end.
Proof.
  unfold createRuleForShop.
  destruct (existsb _ (product_rules db)) eqn:Hid.
  { apply existsb_exists in Hid as (rule & Hin & Heq).
    exists rule. split; [apply list_elem_of_In, Hin | apply String.eqb_eq, Heq]. }
  destruct (existsb _ (shops db)) eqn:Hshop; simpl.
  2:{ intros shop Hin Heq. apply not_true_iff_false in Hshop. apply Hshop.
      apply existsb_exists. exists shop.
      split; [apply list_elem_of_In, Hin | apply String.eqb_eq, Heq]. }
  set (created := ProductRule.mk _ _ _ _ _ _ _ _).
  split; [reflexivity |].
  split; [apply existsb_id_false, Hid |].
  split.
  { apply existsb_exists in Hshop as (shop & Hin & Heq).
    exists shop. split; [apply list_elem_of_In, Hin | apply String.eqb_eq, Heq]. }
  split; [reflexivity |].
  unfold getRulesForShop. simpl. rewrite !List.filter_app. simpl.
  split; [| split].
  - rewrite String.eqb_refl, !orderByCreatedAt_perm.
    symmetry. apply Permutation_cons_append.
  - intros other Hother. rewrite List.filter_app. simpl.
    destruct (String.eqb_spec shopId other) as [Heq | _]; [congruence |].
    rewrite app_nil_r. reflexivity.
  - rewrite String.eqb_refl. intros Hall. apply orderByCreatedAt_last.
    rewrite <- (orderByCreatedAt_perm (List.filter _ _)). exact Hall.
Qed.

(** *** Toggling *)

Lemma toggled_createdAt (shopId ruleId : string) (enabled : bool) (rule : ProductRule.t) :
  ProductRule.createdAt (toggled shopId ruleId enabled rule) = ProductRule.createdAt rule.
Proof. unfold toggled. destruct (_ && _); reflexivity. Qed.

Lemma toggled_shopId (shopId ruleId : string) (enabled : bool) (rule : ProductRule.t) :
  ProductRule.shopId (toggled shopId ruleId enabled rule) = ProductRule.shopId rule.
Proof. unfold toggled. destruct (_ && _); reflexivity. Qed.

Lemma insertByCreatedAt_map (f : ProductRule.t → ProductRule.t) (rule : ProductRule.t)
    (rules : list ProductRule.t) :
  (∀ r, ProductRule.createdAt (f r) = ProductRule.createdAt r) →
  insertByCreatedAt (f rule) (map f rules) = map f (insertByCreatedAt rule rules).
Proof.
  intros Hf. induction rules as [| r rules IH]; simpl; [reflexivity |].
  rewrite !Hf. destruct (_ <=? _); simpl; [reflexivity | rewrite IH; reflexivity].
Qed.

Lemma orderByCreatedAt_map (f : ProductRule.t → ProductRule.t) (rules : list ProductRule.t) :
  (∀ r, ProductRule.createdAt (f r) = ProductRule.createdAt r) →
  orderByCreatedAt (map f rules) = map f (orderByCreatedAt rules).
Proof.
  intros Hf. induction rules as [| r rules IH]; simpl; [reflexivity |].
  rewrite IH. apply insertByCreatedAt_map, Hf.
Qed.

Lemma filter_map_comm {A : Type} (p : A → bool) (f : A → A) (l : list A) :
  (∀ x, p (f x) = p x) → List.filter p (map f l) = map f (List.filter p l).
Proof.
  intros Hp. induction l as [| x l IH]; simpl; [reflexivity |].
  rewrite Hp. destruct (p x); simpl; rewrite IH; reflexivity.
Qed.

Lemma getRulesForShop_toggle (db : Database) (shopId ruleId : string) (enabled : bool)
    (other : string) :
  getRulesForShop (toggleRuleEnabled db shopId ruleId enabled) other =
  map (toggled shopId ruleId enabled) (getRulesForShop db other).
Proof.
  unfold getRulesForShop.
  change (product_rules (toggleRuleEnabled db shopId ruleId enabled))
    with (map (toggled shopId ruleId enabled) (product_rules db)).
  rewrite filter_map_comm by (intros; rewrite toggled_shopId; reflexivity).
  apply orderByCreatedAt_map. intros. apply toggled_createdAt.
Qed.

Lemma map_id_on {A : Type} (f : A → A) (l : list A) :
  (∀ x, x ∈ l → f x = x) → map f l = l.
Proof.
  induction l as [| x l IH]; intros H; simpl; [reflexivity |].
  rewrite H by constructor. rewrite IH; [reflexivity |].
  intros y Hy. apply H. constructor. exact Hy.
Qed.

Lemma getRulesForShop_toggle_other (db : Database) (shopId ruleId : string) (enabled : bool)
    (other : string) :
  other ≠ shopId →
  getRulesForShop (toggleRuleEnabled db shopId ruleId enabled) other = getRulesForShop db other.
Proof.
  intros Hother. rewrite getRulesForShop_toggle. apply map_id_on.
  intros rule Hin. apply getRulesForShop_elem_of in Hin as [_ Hshop].
  unfold toggled. replace (String.eqb (ProductRule.shopId rule) shopId) with false.
  - rewrite andb_false_r. reflexivity.
  - symmetry. apply String.eqb_neq. congruence.
Qed.

Lemma getRulesForShop_toggle_same (db : Database) (shopId ruleId : string) (enabled : bool) :
  getRulesForShop (toggleRuleEnabled db shopId ruleId enabled) shopId =
  map (fun rule => if String.eqb (ProductRule.id rule) ruleId
                   then setEnabled enabled rule else rule)
      (getRulesForShop db shopId).
Proof.
  rewrite getRulesForShop_toggle. apply map_ext_in.
  intros rule Hin. apply list_elem_of_In, getRulesForShop_elem_of in Hin as [_ Hshop].
  unfold toggled. rewrite Hshop, String.eqb_refl, andb_true_r. reflexivity.
Qed.

(** X3. [toggleRuleEnabled] changes no shop and no rule of another shop. Of
    the shop's own rules it sets the flag of the ones with the given id and
    leaves the rest, in the same order. When the shop has no rule of that
    id, the database is unchanged: a rule id of another shop toggles
    nothing. *)
Theorem toggleRuleEnabled_scoped (db : Database) (shopId ruleId : string) (enabled : bool) :
  let db' := toggleRuleEnabled db shopId ruleId enabled in
  shops db' = shops db ∧
  (∀ other, other ≠ shopId → getRulesForShop db' other = getRulesForShop db other) ∧
  getRulesForShop db' shopId =
    map (fun rule => if String.eqb (ProductRule.id rule) ruleId
                     then setEnabled enabled rule else rule)
        (getRulesForShop db shopId) ∧
  ((∀ rule, rule ∈ product_rules db →
            ¬ (ProductRule.id rule = ruleId ∧ ProductRule.shopId rule = shopId)) →
   db' = db).
Proof.
  cbv zeta. split; [reflexivity |]. split; [| split].
  - intros other Hother. apply getRulesForShop_toggle_other, Hother.
  - apply getRulesForShop_toggle_same.
  - intros Hnone. unfold toggleRuleEnabled. destruct db as [shops rules]. simpl in *.
    f_equal. apply map_id_on. intros rule Hin.
    destruct (String.eqb_spec (ProductRule.id rule) ruleId) as [Hid |]; [| reflexivity].
    destruct (String.eqb_spec (ProductRule.shopId rule) shopId) as [Hs |]; [| reflexivity].
    exfalso. apply (Hnone rule Hin). split; assumption.
Qed.

Lemma toggled_toggled (shopId ruleId : string) (first second : bool) (rule : ProductRule.t) :
  toggled shopId ruleId second (toggled shopId ruleId first rule) =
  toggled shopId ruleId second rule.
Proof.
  unfold toggled.
  destruct (String.eqb (ProductRule.id rule) ruleId
            && String.eqb (ProductRule.shopId rule) shopId) eqn:Hmatch;
    simpl; rewrite Hmatch; reflexivity.
Qed.

Lemma toggled_id (shopId ruleId : string) (enabled : bool) (rule : ProductRule.t) :
  ProductRule.id (toggled shopId ruleId enabled rule) = ProductRule.id rule.
Proof. unfold toggled. destruct (_ && _); reflexivity. Qed.

Lemma toggled_comm (shopA ruleA shopB ruleB : string) (a b : bool) (rule : ProductRule.t) :
  ¬ (ruleA = ruleB ∧ shopA = shopB) →
  toggled shopA ruleA a (toggled shopB ruleB b rule) =
  toggled shopB ruleB b (toggled shopA ruleA a rule).
Proof.
  intros Hdiff. unfold toggled at 1 3. rewrite !toggled_id, !toggled_shopId.
  destruct (String.eqb (ProductRule.id rule) ruleA
            && String.eqb (ProductRule.shopId rule) shopA) eqn:HA;
  destruct (String.eqb (ProductRule.id rule) ruleB
            && String.eqb (ProductRule.shopId rule) shopB) eqn:HB;
    unfold toggled; rewrite ?HA, ?HB; try reflexivity.
  exfalso. apply Hdiff.
  apply andb_true_iff in HA as [HA1 HA2]. apply andb_true_iff in HB as [HB1 HB2].
  apply String.eqb_eq in HA1, HA2, HB1, HB2. split; congruence.
Qed.

(** X4. Toggling the same rule twice leaves the database as the second
    toggle alone does; in particular a toggle is idempotent. *)
Theorem toggleRuleEnabled_last_wins (db : Database) (shopId ruleId : string)
    (first second : bool) :
  toggleRuleEnabled (toggleRuleEnabled db shopId ruleId first) shopId ruleId second =
  toggleRuleEnabled db shopId ruleId second.
Proof.
  unfold toggleRuleEnabled. simpl. f_equal. rewrite map_map. apply map_ext.
  intros rule. apply toggled_toggled.
Qed.

(** X5. Toggles of two different rules commute. *)
Theorem toggleRuleEnabled_commute (db : Database) (shopA ruleA shopB ruleB : string)
    (a b : bool) :
  ¬ (ruleA = ruleB ∧ shopA = shopB) →
  toggleRuleEnabled (toggleRuleEnabled db shopB ruleB b) shopA ruleA a =
  toggleRuleEnabled (toggleRuleEnabled db shopA ruleA a) shopB ruleB b.
Proof.
  intros Hdiff. unfold toggleRuleEnabled. simpl. f_equal. rewrite !map_map.
  apply map_ext. intros rule. apply (toggled_comm shopA ruleA shopB ruleB a b rule Hdiff).
Qed.

(** *** Toggling and evaluation *)

Lemma evaluateSingleRule_setEnabled (P : ProductForEvaluation.t) (enabled : bool)
    (rule : ProductRule.t) :
  evaluateSingleRule P (setEnabled enabled rule) = evaluateSingleRule P rule.
Proof. reflexivity. Qed.

Lemma evaluateLoop_disable (P : ProductForEvaluation.t) (ruleId : string)
    (rules : list ProductRule.t) (tags : list string) :
  evaluateLoop P
    (map (fun rule => if String.eqb (ProductRule.id rule) ruleId
                      then setEnabled false rule else rule) rules) tags =
  evaluateLoop P
    (List.filter (fun rule => negb (String.eqb (ProductRule.id rule) ruleId)) rules) tags.
Proof.
  revert tags. induction rules as [| rule rules IH]; intros tags; simpl; [reflexivity |].
  destruct (String.eqb (ProductRule.id rule) ruleId); simpl; [apply IH |].
  destruct (negb (ProductRule.enabled rule)); [apply IH |].
  destruct (evaluateSingleRule P rule); simpl; [apply IH | reflexivity].
Qed.

(** X6. After a rule is disabled, the evaluation of any product against the
    rules of its shop gives what the evaluation against these rules without
    the rule gave before. *)
Theorem disable_removes_from_evaluation (db : Database) (shopId ruleId : string)
    (P : ProductForEvaluation.t) :
  evaluateProductRules P
    (getRulesForShop (toggleRuleEnabled db shopId ruleId false) shopId) =
  evaluateProductRules P
    (List.filter (fun rule => negb (String.eqb (ProductRule.id rule) ruleId))
       (getRulesForShop db shopId)).
Proof.
  rewrite getRulesForShop_toggle_same.
  unfold evaluateProductRules. rewrite evaluateLoop_disable. reflexivity.
Qed.

(** ** The evaluator *)

Lemma evaluateLoop_spec (P : ProductForEvaluation.t) (rules : list ProductRule.t)
    (tags tags' : list string) :
  evaluateLoop P rules tags = Normal tags' →
  (NoDup tags → NoDup tags') ∧
  ∀ t, t ∈ tags' ↔
       t ∈ tags ∨
       ∃ rule, rule ∈ rules ∧ ProductRule.enabled rule = true ∧
               ProductRule.tag rule = t ∧ evaluateSingleRule P rule = Normal true.
Proof.
  revert tags. induction rules as [| rule rules IH]; intros tags; simpl.
  - intros [= <-]. split; [auto |]. intros t. split; [auto |].
    intros [H | (r & Hin & _)]; [exact H | inversion Hin].
  - destruct (ProductRule.enabled rule) eqn:Hen; simpl.
    + destruct (evaluateSingleRule P rule) as [matched |] eqn:Hmatch; simpl; [| discriminate].
      intros Hloop. apply IH in Hloop as [Hnd Hel]. split.
      * intros Htags. apply Hnd. destruct matched; [apply NoDup_setAdd |]; exact Htags.
      * intros t. rewrite Hel. destruct matched.
        -- rewrite elem_of_setAdd. split.
           ++ intros [[H | ->] | (r & Hin & Hr)]; [left; exact H | |].
              ** right. exists rule. repeat split; try assumption. constructor.
              ** right. exists r. split; [constructor; exact Hin | exact Hr].
           ++ intros [H | (r & Hin & Hren & Hrt & Hrm)]; [left; left; exact H |].
              apply elem_of_cons in Hin as [-> | Hin]; [left; right; congruence |].
              right. exists r. repeat split; assumption.
        -- split.
           ++ intros [H | (r & Hin & Hr)]; [left; exact H |].
              right. exists r. split; [constructor; exact Hin | exact Hr].
           ++ intros [H | (r & Hin & Hren & Hrt & Hrm)]; [left; exact H |].
              apply elem_of_cons in Hin as [-> | Hin]; [congruence |].
              right. exists r. repeat split; assumption.
    + intros Hloop. apply IH in Hloop as [Hnd Hel]. split; [exact Hnd |].
      intros t. rewrite Hel. split.
      * intros [H | (r & Hin & Hr)]; [left; exact H |].
        right. exists r. split; [constructor; exact Hin | exact Hr].
      * intros [H | (r & Hin & Hren & Hrt & Hrm)]; [left; exact H |].
        apply elem_of_cons in Hin as [-> | Hin]; [congruence |].
        right. exists r. repeat split; assumption.
Qed.

(** X7. [evaluateProductRules] always returns; its result has no tag twice,
    and a tag is in it exactly when it is the tag of an enabled rule of the
    list that matches the product. *)
Theorem evaluateProductRules_tags (P : ProductForEvaluation.t) (rules : list ProductRule.t) :
  ∃ tags, evaluateProductRules P rules = Normal tags ∧
          NoDup tags ∧
          ∀ t, t ∈ tags ↔
               ∃ rule, rule ∈ rules ∧ ProductRule.enabled rule = true ∧
                       ProductRule.tag rule = t ∧ evaluateSingleRule P rule = Normal true.
Proof.
  unfold evaluateProductRules.
  destruct (evaluateLoop_total P rules []) as [tags Hloop].
  exists tags. rewrite Hloop. split; [reflexivity |].
  apply evaluateLoop_spec in Hloop as [Hnd Hel].
  split; [apply Hnd, NoDup_nil_2 |].
  intros t. rewrite Hel. split; [| auto].
  intros [H | H]; [inversion H | exact H].
Qed.

(** *** Comparisons *)

Lemma SFcompare_antisym (x y : number) :
  SFcompare y x = CompOpp <$> SFcompare x y.
Proof.
  destruct x as [sx | sx | | sx mx ex], y as [sy | sy | | sy my ey]; simpl;
    try reflexivity;
    try (destruct sx; reflexivity); try (destruct sy; reflexivity);
    try (destruct sx, sy; reflexivity).
  destruct sx, sy; try reflexivity; simpl;
    rewrite (Z.compare_antisym ex ey); destruct (ex ?= ey); simpl; try reflexivity;
    change (Pos.compare_cont Eq my mx) with (Pos.compare_cont (CompOpp Eq) my mx);
    rewrite <- (Pos.compare_cont_antisym mx my Eq); simpl;
    destruct (Pos.compare_cont Eq mx my); reflexivity.
Qed.

Lemma SFcompare_None (x y : number) :
  SFcompare x y = None ↔ isNaN x || isNaN y = true.
Proof.
  destruct x as [sx | sx | | sx mx ex], y as [sy | sy | | sy my ey]; simpl;
    split; intros H; try discriminate H; try reflexivity.
Qed.

Lemma compareNumeric_trichotomy (actual target : number) :
  isNaN actual = false → isNaN target = false →
  exactlyOne (compareNumeric actual target RuleOperator.gt)
             (compareNumeric actual target RuleOperator.lt)
             (compareNumeric actual target RuleOperator.eq).
Proof.
  intros Hactual Htarget.
  unfold compareNumeric, JS.gt, JS.lt, strictEquals, SFltb, SFeqb, exactlyOne.
  rewrite SFcompare_antisym.
  pose proof (SFcompare_None actual target) as Hnone.
  rewrite Hactual, Htarget in Hnone.
  destruct (SFcompare actual target) as [[] |]; simpl; [tauto | tauto | tauto |].
  assert (false = true) by (apply Hnone; reflexivity). discriminate.
Qed.

(** X8. When the actual or the target number is NaN, [compareNumeric] is
    false for each of the three operators; otherwise it is true for exactly
    one of [gt], [lt] and [eq]. *)
Theorem compareNumeric_exclusive (actual target : number) :
  let above := compareNumeric actual target RuleOperator.gt in
  let below := compareNumeric actual target RuleOperator.lt in
  let equal := compareNumeric actual target RuleOperator.eq in
  if isNaN actual || isNaN target
  then above = false ∧ below = false ∧ equal = false
  else exactlyOne above below equal.
Proof.
  cbv zeta. destruct (isNaN actual || isNaN target) eqn:Hnan.
  - unfold compareNumeric, JS.gt, JS.lt, strictEquals, SFltb, SFeqb.
    rewrite SFcompare_antisym.
    rewrite (proj2 (SFcompare_None actual target) Hnan). repeat split.
  - apply orb_false_iff in Hnan as [Hactual Htarget].
    apply compareNumeric_trichotomy; assumption.
Qed.

(** X9. For a product with a price and a price rule whose value reads as a
    number, exactly one of the three operators makes the rule match. *)
Theorem price_rule_one_operator (P : ProductForEvaluation.t) (rule : ProductRule.t)
    (price : number) :
  ProductRule.field rule = RuleField.price →
  ProductForEvaluation.price P = Some price →
  isNaN price = false →
  readsAsFloat (ProductRule.value rule) = true →
  ∃ above below equal,
    evaluateSingleRule P (withOperator RuleOperator.gt rule) = Normal above ∧
    evaluateSingleRule P (withOperator RuleOperator.lt rule) = Normal below ∧
    evaluateSingleRule P (withOperator RuleOperator.eq rule) = Normal equal ∧
    exactlyOne above below equal.
Proof.
  intros Hfield Hprice Hnan Hvalue.
  unfold evaluateSingleRule, withOperator. simpl. rewrite Hfield, Hprice.
  assert (Htarget : isNaN (parseFloat (ProductRule.value rule)) = false)
    by (rewrite parseFloat_isNaN, Hvalue; reflexivity).
  rewrite Htarget.
  do 3 eexists. repeat (split; [reflexivity |]).
  apply compareNumeric_trichotomy; assumption.
Qed.

(** ** The merger *)

Lemma mergeStep_fold_set (ruleTags set : list string) (changed : bool) :
  (fold_left mergeStep ruleTags (set, changed)).1 = fold_left setAdd ruleTags set.
Proof.
  revert set changed. induction ruleTags as [| tag ruleTags IH]; intros set changed;
    [reflexivity |].
  cbn [fold_left].
  assert (Hstep : ∃ c, mergeStep (set, changed) tag = (setAdd set tag, c)).
  { unfold mergeStep, setAdd. destruct (has set tag); simpl; eauto. }
  destruct Hstep as [c ->]. apply IH.
Qed.

Lemma has_app (a b : list string) (t : string) : has (a ++ b) t = has a t || has b t.
Proof.
  unfold has. destruct (bool_decide (t ∈ a)) eqn:Ha, (bool_decide (t ∈ b)) eqn:Hb; simpl;
    rewrite ?bool_decide_eq_true, ?bool_decide_eq_false in *; rewrite elem_of_app; tauto.
Qed.

Lemma fold_setAdd_app (ruleTags set acc : list string) :
  fold_left setAdd ruleTags (set ++ acc)%list =
  (set ++ fold_left setAdd (List.filter (fun tag => negb (has set tag)) ruleTags) acc)%list.
Proof.
  revert acc. induction ruleTags as [| tag ruleTags IH]; intros acc; [reflexivity |].
  cbn [fold_left List.filter].
  assert (Hadd : setAdd (set ++ acc) tag =
                 if has set tag then (set ++ acc)%list else (set ++ setAdd acc tag)%list).
  { unfold setAdd. rewrite has_app.
    destruct (has set tag), (has acc tag); simpl; try reflexivity.
    rewrite app_assoc. reflexivity. }
  rewrite Hadd. destruct (has set tag); simpl; apply IH.
Qed.

Lemma fold_setAdd_NoDup (items acc : list string) :
  NoDup (acc ++ items) → fold_left setAdd items acc = (acc ++ items)%list.
Proof.
  revert acc. induction items as [| x items IH]; intros acc Hnd; simpl.
  - rewrite app_nil_r. reflexivity.
  - assert (Hx : has acc x = false).
    { apply has_false. apply NoDup_app in Hnd as (_ & Hdisj & _).
      intros Hin. apply (Hdisj x Hin). constructor. }
    unfold setAdd. rewrite Hx. rewrite IH; rewrite <- app_assoc; [reflexivity | exact Hnd].
Qed.

Lemma has_newSet (items : list string) (t : string) : has (newSet items) t = has items t.
Proof.
  unfold has. apply bool_decide_ext, elem_of_newSet.
Qed.

(** X10. A merge that is not null is the distinct existing tags in their
    order, followed by the rule tags that the existing tags lack, each once,
    in the order of their first occurrence; there is at least one such rule
    tag. Existing tags without repetition are a prefix of the merge. *)
Theorem mergeProductTags_order (E R T : list string) :
  mergeProductTags E R = Some T →
  T = (newSet E ++ newTags E R)%list ∧
  newTags E R ≠ [] ∧
  (NoDup E → T = (E ++ newTags E R)%list).
Proof.
  unfold mergeProductTags, arrayFrom, newTags.
  pose proof (mergeStep_fold_set R (newSet E) false) as Hset.
  pose proof (mergeStep_fold_changed R (newSet E) false) as Hchanged.
  destruct (fold_left mergeStep R (newSet E, false)) as [set changed]. simpl in *.
  destruct changed; [| discriminate]. intros [= <-].
  assert (HT : set = (newSet E ++ newSet (List.filter (fun tag => negb (has E tag)) R))%list).
  { rewrite Hset. rewrite <- (app_nil_r (newSet E)) at 1. rewrite fold_setAdd_app.
    f_equal. unfold newSet at 2. f_equal. apply List.filter_ext.
    intros t. rewrite has_newSet. reflexivity. }
  split; [exact HT |]. split.
  - intros Hnil. rewrite Hnil, app_nil_r in HT.
    assert (Hsub : R ⊆ newSet E).
    { intros t Ht. destruct (has E t) eqn:HE.
      - apply elem_of_newSet, has_true, HE.
      - exfalso. assert (Hin : t ∈ newSet (List.filter (fun tag => negb (has E tag)) R)).
        { apply elem_of_newSet, list_elem_of_In, List.filter_In.
          split; [apply list_elem_of_In, Ht | rewrite HE; reflexivity]. }
        rewrite Hnil in Hin. inversion Hin. }
    assert (true = false) by (apply Hchanged; auto). discriminate.
  - intros HE. rewrite HT. f_equal. unfold newSet. rewrite fold_setAdd_NoDup; [reflexivity |].
    exact HE.
Qed.

(** ** The payload mapper *)




Lemma append_assoc (a b c : string) : ((a ++ b) ++ c)%string = (a ++ (b ++ c))%string.
Proof.
  induction a as [| x a IH]; [reflexivity |]. rewrite !append_String, IH. reflexivity.
Qed.

Lemma occurs_app (c : ascii) (a b : string) :
  occurs c (a ++ b) = occurs c a || occurs c b.
Proof.
  induction a as [| d a IH]; [reflexivity |].
  rewrite append_String. simpl. rewrite IH. apply orb_assoc.
Qed.

Lemma occurs_trim (c : ascii) (s : string) : occurs c s = false → occurs c (trim s) = false.
Proof.
  destruct (padded_trim s) as (before & after & _ & _ & Hs).
  rewrite Hs at 1. rewrite !occurs_app. intros H.
  apply orb_false_iff in H as [_ H]. apply orb_false_iff in H as [H _]. exact H.
Qed.

Lemma existingTags_clean (payload : ProductWebhookPayload.t) :
  Forall (fun tag => cleanTag tag = true)
    (MappedProduct.existingTags (mapWebhookPayloadToProduct payload)).
Proof.
  unfold mapWebhookPayloadToProduct. simpl.
  destruct (ProductWebhookPayload.tags payload) as [tags |]; simpl; [| constructor].
  apply List.Forall_forall. intros tag Hin.
  apply List.filter_In in Hin as [Hin Hne].
  apply List.in_map_iff in Hin as (piece & <- & Hpiece).
  unfold cleanTag. rewrite Hne, trim_idempotent, String.eqb_refl. simpl.
  rewrite occurs_trim; [reflexivity |].
  pose proof (split_no_separator "," tags) as Hall.
  rewrite List.Forall_forall in Hall. apply Hall, Hpiece.
Qed.

Lemma split_clean (sep : ascii) (a : string) : occurs sep a = false → split sep a = [a].
Proof.
  induction a as [| c a IH]; [reflexivity |]. simpl. intros H.
  apply orb_false_iff in H as [Hc Ha]. rewrite Hc, (IH Ha). reflexivity.
Qed.

Lemma split_app (sep : ascii) (a b : string) :
  occurs sep a = false → split sep (a ++ String sep b) = a :: split sep b.
Proof.
  induction a as [| c a IH]; intros H.
  - simpl. rewrite Ascii.eqb_refl. reflexivity.
  - rewrite append_String. simpl in *. apply orb_false_iff in H as [Hc Ha].
    rewrite Hc, (IH Ha). reflexivity.
Qed.

Lemma cleanTag_spec (tag : string) :
  cleanTag tag = true ↔ tag ≠ "" ∧ trim tag = tag ∧ occurs "," tag = false.
Proof.
  unfold cleanTag. split.
  - intros H. apply andb_true_iff in H as [H Hc]. apply andb_true_iff in H as [Hn Ht].
    split; [intros ->; discriminate |].
    split; [apply String.eqb_eq, Ht | apply negb_true_iff, Hc].
  - intros (Hn & Ht & Hc). rewrite Ht, String.eqb_refl, Hc.
    destruct tag; [contradiction | reflexivity].
Qed.

(** The tags string of the store is read back as the tags. *)
Lemma parse_joined_tags (lead : string) (tags : list string) :
  allWhiteSpace lead = true → occurs "," lead = false → tags ≠ [] →
  Forall (fun tag => cleanTag tag = true) tags →
  List.filter nonEmpty (map trim (split "," (lead ++ String.concat ", " tags))) = tags.
Proof.
  intros Hlead Hcomma Hne Hall. revert lead Hlead Hcomma.
  induction Hall as [| tag tags Htag Hall IH]; [contradiction |].
  intros lead Hlead Hcomma. apply cleanTag_spec in Htag as (Hnonempty & Htrim & Hnocomma).
  assert (Hpiece : trim (lead ++ tag) = tag).
  { unfold trim. rewrite trimStart_app_before by exact Hlead. exact Htrim. }
  destruct tags as [| tag' tags].
  - cbn [String.concat].
    rewrite split_clean by (rewrite occurs_app, Hcomma, Hnocomma; reflexivity).
    cbn [map]. rewrite Hpiece. cbn [List.filter].
    destruct tag; [contradiction | reflexivity].
  - rewrite concat_cons_cons.
    change (", " ++ String.concat ", " (tag' :: tags))%string
      with (String "," (" " ++ String.concat ", " (tag' :: tags)))%string.
    rewrite <- append_assoc.
    rewrite split_app by (rewrite occurs_app, Hcomma, Hnocomma; reflexivity).
    cbn [map]. rewrite Hpiece. cbn [List.filter].
    replace (nonEmpty tag) with true by (destruct tag; [contradiction | reflexivity]).
    f_equal. apply (IH ltac:(discriminate) " "); reflexivity.
Qed.

Lemma existingTags_joined (payload : ProductWebhookPayload.t) (tags : list string) :
  Forall (fun tag => cleanTag tag = true) tags →
  MappedProduct.existingTags
    (mapWebhookPayloadToProduct (withTags payload (String.concat ", " tags))) = tags.
Proof.
  intros Hall. unfold mapWebhookPayloadToProduct, withTags. simpl.
  destruct tags as [| tag tags]; [reflexivity |].
  apply (parse_joined_tags "" (tag :: tags)); [reflexivity | reflexivity | discriminate | exact Hall].
Qed.

(** ** The applier across deliveries *)

Lemma productForEvaluation_withTags (payload : ProductWebhookPayload.t) (tags : string) :
  MappedProduct.productForEvaluation (mapWebhookPayloadToProduct (withTags payload tags)) =
  MappedProduct.productForEvaluation (mapWebhookPayloadToProduct payload).
Proof. reflexivity. Qed.

Lemma evaluateProductRules_elem_of (P : ProductForEvaluation.t) (rules : list ProductRule.t)
    (tags : list string) (t : string) :
  evaluateProductRules P rules = Normal tags →
  (t ∈ tags ↔
   ∃ rule, rule ∈ rules ∧ ProductRule.enabled rule = true ∧
           ProductRule.tag rule = t ∧ evaluateSingleRule P rule = Normal true).
Proof.
  unfold evaluateProductRules.
  destruct (evaluateLoop P rules []) as [set |] eqn:Hloop; [| discriminate].
  intros [= <-]. apply evaluateLoop_spec in Hloop as [_ Hel].
  rewrite Hel. split; [| auto].
  intros [H | H]; [inversion H | exact H].
Qed.

(** X12. When an enabled stored rule matches the product and its tag is
    empty, has white space around it or holds a comma, the applier sends the
    product mutation whatever tags the payload carries, and the merged tags
    hold the tag of the rule: such a tag is never among the tags read from a
    payload. *)
Theorem unclean_rule_tag_always_updates (db : Database) (shopDomain : string)
    (admin : AdminContext) (payload : ProductWebhookPayload.t) (rule : ProductRule.t) :
  rule ∈ storedRuleList db shopDomain →
  ProductRule.enabled rule = true →
  evaluateSingleRule
    (MappedProduct.productForEvaluation (mapWebhookPayloadToProduct payload)) rule
    = Normal true →
  cleanTag (ProductRule.tag rule) = false →
  ∃ input,
    mutationCalls (applyProductRulesForShop db shopDomain admin payload).1 = [input] ∧
    ProductRule.tag rule ∈ ProductInput.tags input.
Proof.
  intros Hin Hen Hmatch Hunclean.
  rewrite applyProductRulesForShop_calls. cbv zeta.
  destruct (evaluateProductRules_total
              (MappedProduct.productForEvaluation (mapWebhookPayloadToProduct payload))
              (storedRuleList db shopDomain)) as [ruleTags Hev].
  assert (Htag : ProductRule.tag rule ∈ ruleTags).
  { apply (evaluateProductRules_elem_of _ _ _ _ Hev). exists rule. auto. }
  destruct (storedRuleList db shopDomain) as [| r rs]; [inversion Hin |].
  rewrite Hev. destruct ruleTags as [| t ts]; [inversion Htag |].
  destruct (mergeProductTags _ (t :: ts)) as [T |] eqn:Hmerge.
  - eexists. split; [reflexivity |]. simpl.
    apply mergeProductTags_Some in Hmerge as [_ HT]. apply HT. right. exact Htag.
  - exfalso. apply mergeProductTags_None in Hmerge.
    pose proof (existingTags_clean payload) as Hclean.
    rewrite Forall_forall in Hclean. specialize (Hclean _ (Hmerge _ Htag)). congruence.
Qed.

(** X13. When the tags of the enabled rules are not empty, have no white
    space around them and no comma, and the applier has sent a mutation,
    then the applier sends none for the same product carrying the merged
    tags, joined by a comma and a space. *)
Theorem redelivery_after_update (db : Database) (shopDomain : string)
    (admin : AdminContext) (payload : ProductWebhookPayload.t) (input : ProductInput.t) :
  (∀ rule, rule ∈ storedRuleList db shopDomain → ProductRule.enabled rule = true →
           cleanTag (ProductRule.tag rule) = true) →
  mutationCalls (applyProductRulesForShop db shopDomain admin payload).1 = [input] →
  mutationCalls
    (applyProductRulesForShop db shopDomain admin
       (withTags payload (String.concat ", " (ProductInput.tags input)))).1 = [].
Proof.
  intros Hrules. rewrite !applyProductRulesForShop_calls. cbv zeta.
  rewrite productForEvaluation_withTags.
  destruct (storedRuleList db shopDomain) as [| r rs] eqn:Hstored; [reflexivity |].
  destruct (evaluateProductRules _ (r :: rs)) as [[| t ts] |] eqn:Hev; try reflexivity.
  destruct (mergeProductTags _ (t :: ts)) as [T |] eqn:Hmerge; [| discriminate].
  intros [= <-]. simpl ProductInput.tags.
  apply mergeProductTags_Some in Hmerge as [_ HT].
  assert (Hclean : Forall (fun tag => cleanTag tag = true) T).
  { apply Forall_forall. intros tag Htag. apply HT in Htag as [Htag | Htag].
    - pose proof (existingTags_clean payload) as HE. rewrite Forall_forall in HE.
      apply HE, Htag.
    - apply (evaluateProductRules_elem_of _ _ _ _ Hev) in Htag
        as (rule & Hin & Hen & <- & _).
      apply Hrules; assumption. }
  rewrite (existingTags_joined payload T Hclean).
  replace (mergeProductTags T (t :: ts)) with (@None (list string)); [reflexivity |].
  symmetry. apply mergeProductTags_None. intros tag Htag. apply HT. right. exact Htag.
Qed.


(** X15. What the applier does for a shop does not depend on the rules of
    other shops: toggling or creating a rule of another shop changes neither
    its effects nor its result. *)
Theorem applyProductRulesForShop_tenant (db : Database) (shopDomain : string)
    (admin : AdminContext) (payload : ProductWebhookPayload.t)
    (other ruleId : string) (enabled : bool) :
  findUniqueShop db shopDomain ≠ Some other →
  applyProductRulesForShop (toggleRuleEnabled db other ruleId enabled) shopDomain admin payload
  = applyProductRulesForShop db shopDomain admin payload ∧
  ∀ newId now data db' created,
    createRuleForShop db newId now other data = Resolved (db', created) →
    applyProductRulesForShop db' shopDomain admin payload =
    applyProductRulesForShop db shopDomain admin payload.
Proof.
  intros Hother. split.
  - unfold applyProductRulesForShop.
    change (findUniqueShop (toggleRuleEnabled db other ruleId enabled) shopDomain)
      with (findUniqueShop db shopDomain).
    destruct (findUniqueShop db shopDomain) as [shopId |]; [| reflexivity].
    rewrite getRulesForShop_toggle_other by congruence. reflexivity.
  - intros newId now data db' created Hcreate.
    apply createRuleForShop_resolved in Hcreate as (Hcreated & Hshops & Hrules).
    unfold applyProductRulesForShop, findUniqueShop. rewrite Hshops.
    fold (findUniqueShop db shopDomain).
    destruct (findUniqueShop db shopDomain) as [shopId |]; [| reflexivity].
    rewrite (getRulesForShop_created_other db db' created shopId Hrules)
      by (rewrite Hcreated; cbn [ProductRule.shopId]; congruence).
    reflexivity.
Qed.

(** ** The settings *)

Lemma settingAt_withValue (shopId key value : string) (setting : Setting.t) :
  settingAt shopId key (withValue value setting) = settingAt shopId key setting.
Proof. reflexivity. Qed.

Lemma settingAt_both (shopId key shopId' key' : string) (setting : Setting.t) :
  settingAt shopId key setting = true → settingAt shopId' key' setting = true →
  (shopId', key') = (shopId, key).
Proof.
  unfold settingAt. rewrite !andb_true_iff, !String.eqb_eq.
  intros [<- <-] [<- <-]. reflexivity.
Qed.

Lemma find_update_same (shopId key value : string) (settings : list Setting.t) :
  List.find (settingAt shopId key)
    (map (fun setting => if settingAt shopId key setting
                         then withValue value setting else setting) settings) =
  withValue value <$> List.find (settingAt shopId key) settings.
Proof.
  induction settings as [| x settings IH]; [reflexivity |].
  cbn [map List.find]. destruct (settingAt shopId key x) eqn:Hx.
  - rewrite settingAt_withValue, Hx. reflexivity.
  - rewrite Hx. exact IH.
Qed.

Lemma find_update_other (shopId key value shopId' key' : string) (settings : list Setting.t) :
  (shopId', key') ≠ (shopId, key) →
  List.find (settingAt shopId' key')
    (map (fun setting => if settingAt shopId key setting
                         then withValue value setting else setting) settings) =
  List.find (settingAt shopId' key') settings.
Proof.
  intros Hne. induction settings as [| x settings IH]; [reflexivity |].
  cbn [map List.find]. destruct (settingAt shopId key x) eqn:Hx.
  - rewrite settingAt_withValue.
    destruct (settingAt shopId' key' x) eqn:Hx'; [| exact IH].
    exfalso. apply Hne. apply (settingAt_both _ _ _ _ x); assumption.
  - destruct (settingAt shopId' key' x); [reflexivity | exact IH].
Qed.

Lemma find_none_existsb {A : Type} (p : A → bool) (l : list A) :
  existsb p l = false ↔ List.find p l = None.
Proof.
  induction l as [| x l IH]; simpl; [tauto |].
  destruct (p x); simpl; [split; discriminate | exact IH].
Qed.

Lemma find_app_none {A : Type} (p : A → bool) (l l' : list A) :
  List.find p l = None → List.find p (l ++ l') = List.find p l'.
Proof.
  induction l as [| x l IH]; simpl; [reflexivity |].
  destruct (p x); [discriminate | exact IH].
Qed.

Lemma find_app_some {A : Type} (p : A → bool) (l l' : list A) (x : A) :
  List.find p l = Some x → List.find p (l ++ l') = Some x.
Proof.
  induction l as [| y l IH]; simpl; [discriminate |].
  destruct (p y); [auto | exact IH].
Qed.

Lemma settingAt_refl (shopId key id value : string) :
  settingAt shopId key (Setting.mk id shopId key value) = true.
Proof. unfold settingAt. simpl. rewrite !String.eqb_refl. reflexivity. Qed.

Lemma settingAt_other (shopId key shopId' key' id value : string) :
  (shopId', key') ≠ (shopId, key) →
  settingAt shopId' key' (Setting.mk id shopId key value) = false.
Proof.
  intros Hne. unfold settingAt. simpl. apply not_true_iff_false.
  rewrite andb_true_iff, !String.eqb_eq. intros [-> ->]. apply Hne. reflexivity.
Qed.

Lemma uniqueSettings_update (shopId key value : string) (settings : list Setting.t) :
  map (fun setting => (Setting.shopId setting, Setting.key setting))
    (map (fun setting => if settingAt shopId key setting
                         then withValue value setting else setting) settings) =
  map (fun setting => (Setting.shopId setting, Setting.key setting)) settings.
Proof.
  rewrite map_map. apply map_ext. intros x. destruct (settingAt shopId key x); reflexivity.
Qed.

Lemma setSetting_resolved (db db' : AppDatabase) (newId shopId key value : string) :
  setSetting db newId shopId key value = Resolved db' →
  getSetting db' shopId key = Some value ∧
  (∀ shopId' key', (shopId', key') ≠ (shopId, key) →
                   getSetting db' shopId' key' = getSetting db shopId' key') ∧
  shopTable db' = shopTable db ∧ ruleTable db' = ruleTable db ∧
  (uniqueSettings db → uniqueSettings db').
Proof.
  unfold setSetting, getSetting, uniqueSettings.
  destruct (existsb (settingAt shopId key) (settingTable db)) eqn:Hexists.
  - intros [= <-]. cbn [settingTable shopTable ruleTable].
    split; [| split; [| split; [| split]]]; try reflexivity.
    + rewrite find_update_same.
      apply not_false_iff_true in Hexists. rewrite find_none_existsb in Hexists.
      destruct (List.find _ (settingTable db)); [reflexivity | contradiction].
    + intros shopId' key' Hne. rewrite find_update_other by exact Hne. reflexivity.
    + rewrite uniqueSettings_update. auto.
  - apply find_none_existsb in Hexists.
    destruct (existsb _ (settingTable db)); [discriminate |].
    destruct (negb _); [discriminate |].
    intros [= <-]. cbn [settingTable shopTable ruleTable].
    split; [| split; [| split; [| split]]]; try reflexivity.
    + rewrite (find_app_none _ _ _ Hexists). simpl. rewrite settingAt_refl. reflexivity.
    + intros shopId' key' Hne.
      destruct (List.find (settingAt shopId' key') (settingTable db)) as [x |] eqn:Hfind.
      * rewrite (find_app_some _ _ _ _ Hfind). reflexivity.
      * rewrite (find_app_none _ _ _ Hfind). simpl.
        rewrite settingAt_other by exact Hne. reflexivity.
    + intros Hunique. rewrite map_app. simpl. apply NoDup_app. repeat split.
      * exact Hunique.
      * intros pair Hin Hnew. apply list_elem_of_singleton in Hnew. subst pair.
        apply list_elem_of_In, List.in_map_iff in Hin as (x & Hx & Hin).
        assert (Hat : settingAt shopId key x = true).
        { unfold settingAt. injection Hx as -> ->. rewrite !String.eqb_refl. reflexivity. }
        apply List.find_none with (x := x) in Hexists; [congruence | exact Hin].
      * apply NoDup_singleton.
Qed.

Lemma setSetting_rejected (db : AppDatabase) (newId shopId key value : string)
    (reason : PrismaError) :
  setSetting db newId shopId key value = Rejected reason →
  getSetting db shopId key = None ∧
  (reason = UniqueConstraintFailed ∧
   (∃ setting, setting ∈ settingTable db ∧ Setting.id setting = newId) ∨
   reason = ForeignKeyConstraintFailed ∧
   ∀ row, row ∈ shopTable db → ShopRow.id row ≠ shopId).
Proof.
  unfold setSetting, getSetting.
  destruct (existsb (settingAt shopId key) (settingTable db)) eqn:Hexists; [discriminate |].
  apply find_none_existsb in Hexists. rewrite Hexists.
  destruct (existsb _ (settingTable db)) eqn:Hid.
  { intros [= <-]. split; [reflexivity |]. left. split; [reflexivity |].
    apply existsb_exists in Hid as (setting & Hin & Heq).
    exists setting. split; [apply list_elem_of_In, Hin | apply String.eqb_eq, Heq]. }
  destruct (existsb _ (shopTable db)) eqn:Hshop; [discriminate |].
  intros [= <-]. split; [reflexivity |]. right. split; [reflexivity |].
  intros row Hin Heq. apply not_true_iff_false in Hshop. apply Hshop.
  apply existsb_exists. exists row.
  split; [apply list_elem_of_In, Hin | apply String.eqb_eq, Heq].
Qed.

(** X16. [setSetting] either resolves or rejects. When it resolves,
    [getSetting] of the shop and key gives the value, every other setting
    reads as before, the shops and rules are unchanged and the pairs of shop
    and key stay unique. It rejects only when the key is not yet set, for an
    id that is already stored or for a shop that does not exist. *)
Theorem setSetting_getSetting (db : AppDatabase) (newId shopId key value : string) :
  match setSetting db newId shopId key value with
  | Resolved db' =>
      getSetting db' shopId key = Some value ∧
      (∀ shopId' key', (shopId', key') ≠ (shopId, key) →
                       getSetting db' shopId' key' = getSetting db shopId' key') ∧
      shopTable db' = shopTable db ∧ ruleTable db' = ruleTable db ∧
      (uniqueSettings db → uniqueSettings db')
  | Rejected UniqueConstraintFailed =>
      getSetting db shopId key = None ∧
      ∃ setting, setting ∈ settingTable db ∧ Setting.id setting = newId
  | Rejected ForeignKeyConstraintFailed =>
      getSetting db shopId key = None ∧
      ∀ row, row ∈ shopTable db → ShopRow.id row ≠ shopId
  | Rejected RecordNotFound => False
  end.
Proof.
  destruct (setSetting db newId shopId key value) as [db' | reason] eqn:Hresult.
  - exact (setSetting_resolved db db' newId shopId key value Hresult).
  - destruct (setSetting_rejected db newId shopId key value reason Hresult)
      as [Hnone [[-> Hid] | [-> Hshop]]]; split; assumption.
Qed.

Lemma find_filter_out (shopId key shopId' key' : string) (settings : list Setting.t) :
  List.find (settingAt shopId' key')
    (List.filter (fun setting => negb (settingAt shopId key setting)) settings) =
  if decide ((shopId', key') = (shopId, key)) then None
  else List.find (settingAt shopId' key') settings.
Proof.
  induction settings as [| x settings IH]; [simpl; destruct (decide _); reflexivity |].
  cbn [List.filter]. destruct (settingAt shopId key x) eqn:Hx; cbn [negb List.find].
  - rewrite IH. destruct (decide _) as [Heq | Hne]; [reflexivity |].
    destruct (settingAt shopId' key' x) eqn:Hx'; [| reflexivity].
    exfalso. apply Hne. apply (settingAt_both _ _ _ _ x); assumption.
  - destruct (settingAt shopId' key' x) eqn:Hx'.
    + destruct (decide _) as [Heq | Hne]; [| reflexivity].
      injection Heq as -> ->. congruence.
    + exact IH.
Qed.

Lemma NoDup_map_filter {A B : Type} (f : A → B) (p : A → bool) (l : list A) :
  NoDup (map f l) → NoDup (map f (List.filter p l)).
Proof.
  induction l as [| x l IH]; [auto |].
  cbn [map List.filter]. intros Hl. apply NoDup_cons in Hl as [Hx Hl].
  destruct (p x); [| auto].
  cbn [map]. apply NoDup_cons. split; [| auto].
  intros Hin. apply Hx. apply list_elem_of_In, List.in_map_iff in Hin as (y & Hy & Hin).
  apply List.filter_In in Hin as [Hin _].
  apply list_elem_of_In, List.in_map_iff. exists y. auto.
Qed.

Lemma deleteSetting_resolved (db db' : AppDatabase) (shopId key : string) :
  deleteSetting db shopId key = Resolved db' →
  is_Some (getSetting db shopId key) ∧
  getSetting db' shopId key = None ∧
  (∀ shopId' key', (shopId', key') ≠ (shopId, key) →
                   getSetting db' shopId' key' = getSetting db shopId' key') ∧
  shopTable db' = shopTable db ∧ ruleTable db' = ruleTable db ∧
  (uniqueSettings db → uniqueSettings db').
Proof.
  unfold deleteSetting, getSetting.
  destruct (existsb (settingAt shopId key) (settingTable db)) eqn:Hexists; [| discriminate].
  intros [= <-]. cbn [settingTable shopTable ruleTable].
  split; [| split; [| split; [| split; [| split]]]]; try reflexivity.
  - apply not_false_iff_true in Hexists. rewrite find_none_existsb in Hexists.
    destruct (List.find _ (settingTable db)); [eexists; reflexivity | contradiction].
  - rewrite find_filter_out. rewrite decide_True by reflexivity. reflexivity.
  - intros shopId' key' Hne. rewrite find_filter_out, decide_False by exact Hne.
    reflexivity.
  - apply NoDup_map_filter.
Qed.

Lemma deleteSetting_rejected (db : AppDatabase) (shopId key : string) (reason : PrismaError) :
  deleteSetting db shopId key = Rejected reason →
  reason = RecordNotFound ∧ getSetting db shopId key = None.
Proof.
  unfold deleteSetting, getSetting.
  destruct (existsb (settingAt shopId key) (settingTable db)) eqn:Hexists; [discriminate |].
  intros [= <-]. apply find_none_existsb in Hexists. rewrite Hexists. split; reflexivity.
Qed.

(** X17. [deleteSetting] resolves exactly when the setting exists: it then
    reads as null, every other setting reads as before and the shops and
    rules are unchanged. For a setting that does not exist it rejects, with
    the error of a record that was not found. *)
Theorem deleteSetting_effect (db : AppDatabase) (shopId key : string) :
  match deleteSetting db shopId key with
  | Resolved db' =>
      is_Some (getSetting db shopId key) ∧
      getSetting db' shopId key = None ∧
      (∀ shopId' key', (shopId', key') ≠ (shopId, key) →
                       getSetting db' shopId' key' = getSetting db shopId' key') ∧
      shopTable db' = shopTable db ∧ ruleTable db' = ruleTable db ∧
      (uniqueSettings db → uniqueSettings db')
  | Rejected reason => reason = RecordNotFound ∧ getSetting db shopId key = None
  end.
Proof.
  destruct (deleteSetting db shopId key) as [db' | reason] eqn:Hresult.
  - exact (deleteSetting_resolved db db' shopId key Hresult).
  - exact (deleteSetting_rejected db shopId key reason Hresult).
Qed.

Lemma find_filter_shop_out (shopId shopId' key' : string) (settings : list Setting.t) :
  List.find (settingAt shopId' key')
    (List.filter (fun setting => negb (String.eqb (Setting.shopId setting) shopId)) settings) =
  if String.eqb shopId' shopId then None
  else List.find (settingAt shopId' key') settings.
Proof.
  induction settings as [| x settings IH]; [simpl; destruct (String.eqb _ _); reflexivity |].
  cbn [List.filter List.find]. unfold settingAt at 2.
  destruct (String.eqb (Setting.shopId x) shopId) eqn:Hx; cbn [negb List.find].
  - rewrite IH. destruct (String.eqb shopId' shopId) eqn:Hs; [reflexivity |].
    apply String.eqb_eq in Hx. rewrite Hx.
    rewrite String.eqb_sym, Hs. reflexivity.
  - unfold settingAt at 1.
    destruct (String.eqb (Setting.shopId x) shopId' && String.eqb (Setting.key x) key') eqn:Hx'.
    + apply andb_true_iff in Hx' as [Hs' _]. apply String.eqb_eq in Hs'.
      rewrite <- Hs', Hx. reflexivity.
    + exact IH.
Qed.

Lemma filter_filter_out {A : Type} (p : A → bool) (l : list A) :
  List.filter (fun x => negb (p x)) (List.filter p l) = [].
Proof.
  induction l as [| x l IH]; [reflexivity |].
  cbn [List.filter]. destruct (p x) eqn:Hx; [| exact IH].
  cbn [List.filter]. rewrite Hx. exact IH.
Qed.

Lemma filter_idempotent {A : Type} (p : A → bool) (l : list A) :
  List.filter p (List.filter p l) = List.filter p l.
Proof.
  induction l as [| x l IH]; [reflexivity |].
  cbn [List.filter]. destruct (p x) eqn:Hx; [| exact IH].
  cbn [List.filter]. rewrite Hx, IH. reflexivity.
Qed.

Lemma filter_shop_out (shopId : string) (settings : list Setting.t) :
  List.filter (fun setting => String.eqb (Setting.shopId setting) shopId)
    (List.filter (fun setting => negb (String.eqb (Setting.shopId setting) shopId)) settings)
  = [].
Proof.
  induction settings as [| x settings IH]; [reflexivity |].
  cbn [List.filter]. destruct (String.eqb (Setting.shopId x) shopId) eqn:Hx; [exact IH |].
  cbn [negb List.filter]. rewrite Hx. exact IH.
Qed.

Lemma filter_shop_other (shopId shopId' : string) (settings : list Setting.t) :
  shopId' ≠ shopId →
  List.filter (fun setting => String.eqb (Setting.shopId setting) shopId')
    (List.filter (fun setting => negb (String.eqb (Setting.shopId setting) shopId)) settings)
  = List.filter (fun setting => String.eqb (Setting.shopId setting) shopId') settings.
Proof.
  intros Hne. induction settings as [| x settings IH]; [reflexivity |].
  cbn [List.filter]. destruct (String.eqb (Setting.shopId x) shopId) eqn:Hx; cbn [negb].
  - apply String.eqb_eq in Hx.
    destruct (String.eqb (Setting.shopId x) shopId') eqn:Hx'; [| exact IH].
    apply String.eqb_eq in Hx'. congruence.
  - cbn [List.filter]. rewrite IH. reflexivity.
Qed.

(** X18. After [deleteAllSettings] the shop has no setting: each key reads
    as null and [getAllSettings] is the empty object. The settings of other
    shops, the shops and the rules are unchanged, and deleting again changes
    nothing. *)
Theorem deleteAllSettings_effect (db : AppDatabase) (shopId : string) :
  (∀ key, getSetting (deleteAllSettings db shopId) shopId key = None) ∧
  getAllSettings (deleteAllSettings db shopId) shopId = ∅ ∧
  (∀ shopId' key, shopId' ≠ shopId →
     getSetting (deleteAllSettings db shopId) shopId' key = getSetting db shopId' key ∧
     getAllSettings (deleteAllSettings db shopId) shopId' = getAllSettings db shopId') ∧
  deleteAllSettings (deleteAllSettings db shopId) shopId = deleteAllSettings db shopId ∧
  shopTable (deleteAllSettings db shopId) = shopTable db ∧
  ruleTable (deleteAllSettings db shopId) = ruleTable db.
Proof.
  unfold getSetting, getAllSettings, deleteAllSettings. cbn [settingTable shopTable ruleTable].
  split; [| split; [| split; [| split; [| split]]]]; try reflexivity.
  - intros key. rewrite find_filter_shop_out, String.eqb_refl. reflexivity.
  - rewrite filter_shop_out. reflexivity.
  - intros shopId' key Hne. split.
    + rewrite find_filter_shop_out.
      destruct (String.eqb shopId' shopId) eqn:Hs; [| reflexivity].
      apply String.eqb_eq in Hs. contradiction.
    + rewrite filter_shop_other by exact Hne. reflexivity.
  - rewrite filter_idempotent. reflexivity.
Qed.

Lemma fold_assignProperty_lookup (settings : list Setting.t) (acc : gmap string string)
    (key : string) :
  NoDup (map Setting.key settings) →
  fold_left assignProperty settings acc !! key =
  if String.eqb key "__proto__" then acc !! key
  else match List.find (fun setting => String.eqb (Setting.key setting) key) settings with
       | Some setting => Some (Setting.value setting)
       | None => acc !! key
       end.
Proof.
  revert acc. induction settings as [| x settings IH]; intros acc Hkeys.
  { simpl. destruct (String.eqb _ _); reflexivity. }
  cbn [map] in Hkeys. apply NoDup_cons in Hkeys as [Hx Hkeys].
  cbn [fold_left List.find]. rewrite (IH _ Hkeys).
  destruct (String.eqb key "__proto__") eqn:Hproto.
  - apply String.eqb_eq in Hproto. subst key. unfold assignProperty.
    destruct (String.eqb (Setting.key x) "__proto__") eqn:Hkx; [reflexivity |].
    apply String.eqb_neq in Hkx. apply lookup_insert_ne. exact Hkx.
  - destruct (String.eqb (Setting.key x) key) eqn:Hkx.
    + apply String.eqb_eq in Hkx.
      destruct (List.find _ settings) as [y |] eqn:Hfind.
      * exfalso. apply List.find_some in Hfind as [Hin Hy]. apply String.eqb_eq in Hy.
        apply Hx. rewrite Hkx, <- Hy. apply list_elem_of_In, List.in_map, Hin.
      * unfold assignProperty. rewrite Hkx, Hproto. subst key. apply lookup_insert_eq.
    + destruct (List.find _ settings); [reflexivity |].
      unfold assignProperty. destruct (String.eqb (Setting.key x) "__proto__"); [reflexivity |].
      apply String.eqb_neq in Hkx. apply lookup_insert_ne. exact Hkx.
Qed.

Lemma find_filter {A : Type} (p q : A → bool) (l : list A) :
  List.find p (List.filter q l) = List.find (fun x => q x && p x) l.
Proof.
  induction l as [| x l IH]; [reflexivity |].
  cbn [List.filter List.find]. destruct (q x); cbn [andb List.find]; [| exact IH].
  destruct (p x); [reflexivity | exact IH].
Qed.

Lemma uniqueSettings_keys (shopId : string) (settings : list Setting.t) :
  NoDup (map (fun setting => (Setting.shopId setting, Setting.key setting)) settings) →
  NoDup (map Setting.key
    (List.filter (fun setting => String.eqb (Setting.shopId setting) shopId) settings)).
Proof.
  induction settings as [| x settings IH]; intros Hunique; [constructor |].
  cbn [map] in Hunique. apply NoDup_cons in Hunique as [Hx Hunique].
  cbn [List.filter]. destruct (String.eqb (Setting.shopId x) shopId) eqn:Hs; [| auto].
  cbn [map]. apply NoDup_cons. split; [| auto].
  intros Hin. apply Hx. apply list_elem_of_In, List.in_map_iff in Hin as (y & Hy & Hin).
  apply List.filter_In in Hin as [Hin Hys].
  apply String.eqb_eq in Hs, Hys.
  apply list_elem_of_In, List.in_map_iff. exists y. split; [| exact Hin].
  congruence.
Qed.

Lemma getAllSettings_lookup (db : AppDatabase) (shopId key : string) :
  uniqueSettings db →
  getAllSettings db shopId !! key =
  if String.eqb key "__proto__" then None else getSetting db shopId key.
Proof.
  intros Hunique. unfold getAllSettings, getSetting.
  rewrite fold_assignProperty_lookup by (apply uniqueSettings_keys, Hunique).
  destruct (String.eqb key "__proto__"); [apply lookup_empty |].
  rewrite find_filter. fold (settingAt shopId key).
  change (fun x : Setting.t => String.eqb (Setting.shopId x) shopId && String.eqb (Setting.key x) key)
    with (settingAt shopId key).
  destruct (List.find (settingAt shopId key) (settingTable db)); [reflexivity | apply lookup_empty].
Qed.

Lemma find_settingAt_Some (shopId key : string) (settings : list Setting.t)
    (setting : Setting.t) :
  NoDup (map (fun setting => (Setting.shopId setting, Setting.key setting)) settings) →
  List.find (settingAt shopId key) settings = Some setting ↔
  setting ∈ settings ∧ settingAt shopId key setting = true.
Proof.
  intros Hunique. split.
  { intros Hfind. apply List.find_some in Hfind as [Hin Hat].
    split; [apply list_elem_of_In, Hin | exact Hat]. }
  intros [Hin Hat]. induction settings as [| x settings IH]; [inversion Hin |].
  cbn [map] in Hunique. apply NoDup_cons in Hunique as [Hx Hunique].
  cbn [List.find]. destruct (settingAt shopId key x) eqn:Hxat.
  - apply elem_of_cons in Hin as [-> | Hin]; [reflexivity |].
    exfalso. apply Hx. apply list_elem_of_In, List.in_map_iff. exists setting.
    split; [| apply list_elem_of_In, Hin].
    unfold settingAt in Hat, Hxat. apply andb_true_iff in Hat as [Hs Hk], Hxat as [Hxs Hxk].
    apply String.eqb_eq in Hs, Hk, Hxs, Hxk. congruence.
  - apply elem_of_cons in Hin as [-> | Hin]; [congruence |]. apply IH; assumption.
Qed.

Lemma find_settingAt_Permutation (shopId key : string) (settings settings' : list Setting.t) :
  NoDup (map (fun setting => (Setting.shopId setting, Setting.key setting)) settings) →
  settings' ≡ₚ settings →
  List.find (settingAt shopId key) settings' = List.find (settingAt shopId key) settings.
Proof.
  intros Hunique Hperm.
  assert (Hunique' : NoDup (map (fun setting => (Setting.shopId setting, Setting.key setting))
                              settings')).
  { rewrite (Permutation_map _ Hperm). exact Hunique. }
  destruct (List.find (settingAt shopId key) settings) as [x |] eqn:Hfind.
  - apply find_settingAt_Some; [exact Hunique' |].
    apply find_settingAt_Some in Hfind as [Hin Hat]; [| exact Hunique].
    split; [rewrite Hperm; exact Hin | exact Hat].
  - destruct (List.find (settingAt shopId key) settings') as [x' |] eqn:Hfind'; [| reflexivity].
    apply find_settingAt_Some in Hfind' as [Hin Hat]; [| exact Hunique'].
    rewrite Hperm in Hin. apply list_elem_of_In in Hin.
    apply (List.find_none _ _ Hfind) in Hin. congruence.
Qed.

(** X19. With unique pairs of shop and key, the object of [getAllSettings]
    has, at each key other than [__proto__], the value that [getSetting]
    reads, and no property where [getSetting] reads null; a setting of the
    key [__proto__] is not in the object. The object does not depend on the
    order of the rows in the table. *)
Theorem getAllSettings_getSetting (db db' : AppDatabase) (shopId : string) :
  uniqueSettings db →
  (∀ key, getAllSettings db shopId !! key =
          if String.eqb key "__proto__" then None else getSetting db shopId key) ∧
  (settingTable db' ≡ₚ settingTable db →
   getAllSettings db' shopId = getAllSettings db shopId).
Proof.
  intros Hunique. split; [intros key; apply getAllSettings_lookup, Hunique |].
  intros Hperm.
  assert (Hunique' : uniqueSettings db').
  { unfold uniqueSettings. rewrite (Permutation_map _ Hperm). exact Hunique. }
  apply map_eq. intros key. rewrite !getAllSettings_lookup by assumption.
  unfold getSetting. rewrite (find_settingAt_Permutation shopId key _ _ Hunique Hperm).
  reflexivity.
Qed.

(** ** The shops *)

Lemma find_updateShopRows (f : ShopRow.t → ShopRow.t) (shopDomain other : string)
    (rows : list ShopRow.t) :
  (∀ row, ShopRow.shopDomain (f row) = ShopRow.shopDomain row) →
  List.find (fun row => String.eqb (ShopRow.shopDomain row) other)
    (map (fun row => if String.eqb (ShopRow.shopDomain row) shopDomain then f row else row) rows)
  = if String.eqb other shopDomain
    then f <$> List.find (fun row => String.eqb (ShopRow.shopDomain row) other) rows
    else List.find (fun row => String.eqb (ShopRow.shopDomain row) other) rows.
Proof.
  intros Hf. induction rows as [| x rows IH].
  { simpl. destruct (String.eqb other shopDomain); reflexivity. }
  cbn [map List.find].
  destruct (String.eqb (ShopRow.shopDomain x) shopDomain) eqn:Hx.
  - rewrite Hf. apply String.eqb_eq in Hx.
    destruct (String.eqb (ShopRow.shopDomain x) other) eqn:Hxo.
    + apply String.eqb_eq in Hxo. rewrite <- Hxo, Hx, String.eqb_refl. reflexivity.
    + exact IH.
  - destruct (String.eqb (ShopRow.shopDomain x) other) eqn:Hxo; [| exact IH].
    apply String.eqb_eq in Hxo. rewrite <- Hxo, Hx. reflexivity.
Qed.

Lemma findShopRow_update (f : ShopRow.t → ShopRow.t) (shopDomain other : string)
    (db : AppDatabase) :
  (∀ row, ShopRow.shopDomain (f row) = ShopRow.shopDomain row) →
  findShopRow (updateShopRows f shopDomain db) other =
  if String.eqb other shopDomain then f <$> findShopRow db other else findShopRow db other.
Proof. intros Hf. apply find_updateShopRows, Hf. Qed.

Lemma ruleStore_update (f : ShopRow.t → ShopRow.t) (shopDomain : string) (db : AppDatabase) :
  (∀ row, ShopRow.shopDomain (f row) = ShopRow.shopDomain row) →
  (∀ row, ShopRow.id (f row) = ShopRow.id row) →
  ruleStore (updateShopRows f shopDomain db) = ruleStore db.
Proof.
  intros Hdomain Hid. unfold ruleStore, updateShopRows. cbn [shopTable ruleTable].
  f_equal. rewrite map_map. apply map_ext. intros row.
  destruct (String.eqb _ _); [rewrite Hdomain, Hid |]; reflexivity.
Qed.

Lemma uniqueShops_update (f : ShopRow.t → ShopRow.t) (shopDomain : string) (db : AppDatabase) :
  (∀ row, ShopRow.shopDomain (f row) = ShopRow.shopDomain row) →
  uniqueShops db → uniqueShops (updateShopRows f shopDomain db).
Proof.
  intros Hdomain. unfold uniqueShops, updateShopRows. cbn [shopTable].
  rewrite map_map. intros Hunique.
  erewrite map_ext; [exact Hunique |].
  intros row. cbv beta. destruct (String.eqb _ _); [apply Hdomain | reflexivity].
Qed.

Lemma findShopRow_domain (db : AppDatabase) (shopDomain : string) (row : ShopRow.t) :
  findShopRow db shopDomain = Some row →
  ShopRow.shopDomain row = shopDomain ∧ row ∈ shopTable db.
Proof.
  intros Hfind. apply List.find_some in Hfind as [Hin Heq].
  split; [apply String.eqb_eq, Heq | apply list_elem_of_In, Hin].
Qed.

Lemma findUniqueShop_ruleStore (db : AppDatabase) (shopDomain : string) :
  findUniqueShop (ruleStore db) shopDomain = ShopRow.id <$> findShopRow db shopDomain.
Proof.
  unfold findUniqueShop, findShopRow, ruleStore. cbn [shops].
  induction (shopTable db) as [| x rows IH]; [reflexivity |].
  cbn [map List.find Shop.shopDomain]. destruct (String.eqb (ShopRow.shopDomain x) shopDomain).
  - reflexivity.
  - exact IH.
Qed.

Lemma find_app_new_shop (rows : list ShopRow.t) (shop : ShopRow.t) (other : string) :
  List.find (fun row => String.eqb (ShopRow.shopDomain row) (ShopRow.shopDomain shop)) rows = None →
  List.find (fun row => String.eqb (ShopRow.shopDomain row) other) (rows ++ [shop]) =
  if String.eqb other (ShopRow.shopDomain shop) then Some shop
  else List.find (fun row => String.eqb (ShopRow.shopDomain row) other) rows.
Proof.
  intros Hnone. destruct (String.eqb other (ShopRow.shopDomain shop)) eqn:Ho.
  - apply String.eqb_eq in Ho. subst other. rewrite (find_app_none _ _ _ Hnone).
    simpl. rewrite String.eqb_refl. reflexivity.
  - destruct (List.find (fun row => String.eqb (ShopRow.shopDomain row) other) rows)
      as [x |] eqn:Hfind.
    + apply (find_app_some _ _ [shop]) in Hfind. exact Hfind.
    + rewrite (find_app_none _ _ _ Hfind). cbn [List.find].
      rewrite String.eqb_sym, Ho. reflexivity.
Qed.

(** X20. [upsertShop] either resolves or rejects. When it resolves, the
    returned data hold the domain and the access token of the session and
    the time of the first installation (the current time for a new shop);
    the shop is installed and [getShop] returns the same data; the id of the
    record is the former one, or the fresh one for a new shop; the records
    of other domains, the settings and the rules are unchanged and the
    domains stay unique. It rejects only for a new shop whose fresh id is
    already stored. *)
Theorem upsertShop_effect (db : AppDatabase) (newId : string) (now : Z) (session : Session.t) :
  let shopDomain := Session.shop session in
  match upsertShop db newId now session with
  | Resolved (db', data) =>
      data = ShopData.mk shopDomain (Session.accessToken session)
               (default now (ShopRow.installedAt <$> findShopRow db shopDomain)) ∧
      getShop db' shopDomain = Some data ∧
      isShopInstalled db' shopDomain = true ∧
      findUniqueShop (ruleStore db') shopDomain =
        Some (default newId (ShopRow.id <$> findShopRow db shopDomain)) ∧
      (∀ other, other ≠ shopDomain → findShopRow db' other = findShopRow db other) ∧
      settingTable db' = settingTable db ∧ ruleTable db' = ruleTable db ∧
      (uniqueShops db → uniqueShops db')
  | Rejected reason =>
      reason = UniqueConstraintFailed ∧ findShopRow db shopDomain = None ∧
      ∃ row, row ∈ shopTable db ∧ ShopRow.id row = newId
  end.
Proof.
  intros shopDomain. unfold upsertShop. fold shopDomain.
  destruct (findShopRow db shopDomain) as [row |] eqn:Hfind.
  - destruct (findShopRow_domain _ _ _ Hfind) as [Hdomain _].
    assert (Hf : ∀ r, ShopRow.shopDomain (reinstalled (Session.accessToken session) r)
                      = ShopRow.shopDomain r) by reflexivity.
    assert (Hfound : findShopRow
              (updateShopRows (reinstalled (Session.accessToken session)) shopDomain db)
              shopDomain = Some (reinstalled (Session.accessToken session) row)).
    { rewrite findShopRow_update by exact Hf. rewrite String.eqb_refl, Hfind. reflexivity. }
    split; [| split; [| split; [| split; [| split; [| split; [| split]]]]]].
    + unfold shopData. simpl. rewrite Hdomain. reflexivity.
    + unfold getShop. rewrite Hfound. reflexivity.
    + unfold isShopInstalled. rewrite Hfound. reflexivity.
    + rewrite findUniqueShop_ruleStore, Hfound. reflexivity.
    + intros other Hne. rewrite findShopRow_update by exact Hf.
      apply String.eqb_neq in Hne. rewrite Hne. reflexivity.
    + reflexivity.
    + reflexivity.
    + apply uniqueShops_update, Hf.
  - destruct (existsb _ (shopTable db)) eqn:Hid.
    { split; [reflexivity |]. split; [reflexivity |].
      apply existsb_exists in Hid as (row & Hin & Heq). exists row.
      split; [apply list_elem_of_In, Hin | apply String.eqb_eq, Heq]. }
    set (shop := ShopRow.mk newId shopDomain (Session.accessToken session) now None).
    assert (Hfound : ∀ other,
              findShopRow {| shopTable := shopTable db ++ [shop];
                             settingTable := settingTable db;
                             ruleTable := ruleTable db |} other =
              if String.eqb other shopDomain then Some shop else findShopRow db other).
    { intros other. unfold findShopRow. cbn [shopTable].
      apply (find_app_new_shop (shopTable db) shop other). exact Hfind. }
    split; [| split; [| split; [| split; [| split; [| split; [| split]]]]]].
    + reflexivity.
    + unfold getShop. rewrite Hfound, String.eqb_refl. reflexivity.
    + unfold isShopInstalled. rewrite Hfound, String.eqb_refl. reflexivity.
    + rewrite findUniqueShop_ruleStore, Hfound, String.eqb_refl. reflexivity.
    + intros other Hne. rewrite Hfound. apply String.eqb_neq in Hne. rewrite Hne. reflexivity.
    + reflexivity.
    + reflexivity.
    + unfold uniqueShops. cbn [shopTable]. intros Hunique. rewrite map_app.
      apply NoDup_app. repeat split; [exact Hunique | | apply NoDup_singleton].
      intros domain Hin Hnew. apply list_elem_of_singleton in Hnew. subst domain.
      apply list_elem_of_In, List.in_map_iff in Hin as (x & Hx & Hin).
      apply (List.find_none _ _ Hfind) in Hin. cbv beta in Hin.
      cbn in Hx. rewrite Hx, String.eqb_refl in Hin. discriminate.
Qed.

(** X21. [markShopUninstalled] resolves exactly when the domain has a
    record: the record gets the current time as its uninstall time and keeps
    its other fields, [getShop] returns null and [isShopInstalled] false;
    the records of other domains, the settings and what the rule store reads
    are unchanged. For a domain without record it rejects. *)
Theorem markShopUninstalled_effect (db : AppDatabase) (now : Z) (shopDomain : string) :
  match markShopUninstalled db now shopDomain with
  | Resolved db' =>
      is_Some (findShopRow db shopDomain) ∧
      findShopRow db' shopDomain = uninstalled now <$> findShopRow db shopDomain ∧
      getShop db' shopDomain = None ∧
      isShopInstalled db' shopDomain = false ∧
      (∀ other, other ≠ shopDomain → findShopRow db' other = findShopRow db other) ∧
      ruleStore db' = ruleStore db ∧
      settingTable db' = settingTable db ∧
      (uniqueShops db → uniqueShops db')
  | Rejected reason => reason = RecordNotFound ∧ findShopRow db shopDomain = None
  end.
Proof.
  unfold markShopUninstalled.
  destruct (findShopRow db shopDomain) as [row |] eqn:Hfind; [| split; reflexivity].
  assert (Hf : ∀ r, ShopRow.shopDomain (uninstalled now r) = ShopRow.shopDomain r)
    by reflexivity.
  assert (Hfound : findShopRow (updateShopRows (uninstalled now) shopDomain db) shopDomain
                   = Some (uninstalled now row)).
  { rewrite findShopRow_update by exact Hf. rewrite String.eqb_refl, Hfind. reflexivity. }
  split; [| split; [| split; [| split; [| split; [| split; [| split]]]]]].
  - eexists; reflexivity.
  - exact Hfound.
  - unfold getShop. rewrite Hfound. reflexivity.
  - unfold isShopInstalled. rewrite Hfound. reflexivity.
  - intros other Hne. rewrite findShopRow_update by exact Hf.
    apply String.eqb_neq in Hne. rewrite Hne. reflexivity.
  - apply ruleStore_update; reflexivity.
  - reflexivity.
  - apply uniqueShops_update, Hf.
Qed.

(** X22. [isShopInstalled] is true exactly when [getShop] returns data; the
    data are those of a stored record of the domain that has no uninstall
    time. *)
Theorem isShopInstalled_getShop (db : AppDatabase) (shopDomain : string) :
  (isShopInstalled db shopDomain = true ↔ is_Some (getShop db shopDomain)) ∧
  (∀ data, getShop db shopDomain = Some data →
           ShopData.shopDomain data = shopDomain ∧
           ∃ row, row ∈ shopTable db ∧ data = shopData row ∧ ShopRow.uninstalledAt row = None).
Proof.
  unfold isShopInstalled, getShop.
  destruct (findShopRow db shopDomain) as [row |] eqn:Hfind.
  - destruct (findShopRow_domain _ _ _ Hfind) as [Hdomain Hin].
    destruct (ShopRow.uninstalledAt row) eqn:Hun.
    + split; [split; [discriminate | intros [? ?]; discriminate] | discriminate].
    + split; [split; [eexists; reflexivity | reflexivity] |].
      intros data [= <-]. split; [exact Hdomain |]. exists row. auto.
  - split; [split; [discriminate | intros [? ?]; discriminate] | discriminate].
Qed.

(** X23. For a shop with a record, marking it uninstalled and then upserting
    it from a session both resolve; the shop is installed again with the new
    access token, its original id and its original install time, without
    uninstall time, and the rule store and the settings are as before the
    two calls. *)
Theorem reinstall_after_uninstall (db : AppDatabase) (row : ShopRow.t) (newId : string)
    (uninstallTime installTime : Z) (session : Session.t) :
  findShopRow db (Session.shop session) = Some row →
  ∃ db1 db2,
    markShopUninstalled db uninstallTime (Session.shop session) = Resolved db1 ∧
    upsertShop db1 newId installTime session =
      Resolved (db2, ShopData.mk (Session.shop session) (Session.accessToken session)
                       (ShopRow.installedAt row)) ∧
    findShopRow db2 (Session.shop session) = Some (reinstalled (Session.accessToken session) row) ∧
    isShopInstalled db2 (Session.shop session) = true ∧
    ruleStore db2 = ruleStore db ∧
    settingTable db2 = settingTable db.
Proof.
  intros Hfind. destruct (findShopRow_domain _ _ _ Hfind) as [Hdomain _].
  set (shopDomain := Session.shop session) in *.
  assert (Hun : ∀ r, ShopRow.shopDomain (uninstalled uninstallTime r) = ShopRow.shopDomain r)
    by reflexivity.
  assert (Hre : ∀ r, ShopRow.shopDomain (reinstalled (Session.accessToken session) r)
                     = ShopRow.shopDomain r) by reflexivity.
  eexists _, _. split; [| split; [| split; [| split; [| split]]]].
  - unfold markShopUninstalled. rewrite Hfind. reflexivity.
  - unfold upsertShop. fold shopDomain.
    rewrite findShopRow_update by exact Hun. rewrite String.eqb_refl, Hfind.
    cbn [fmap option_fmap option_map]. unfold shopData. simpl. rewrite Hdomain. reflexivity.
  - rewrite !findShopRow_update by assumption. rewrite String.eqb_refl, Hfind. reflexivity.
  - unfold isShopInstalled. rewrite !findShopRow_update by assumption.
    rewrite String.eqb_refl, Hfind. reflexivity.
  - rewrite !ruleStore_update by reflexivity. reflexivity.
  - reflexivity.
Qed.

(** ** The routes *)





Lemma findShopRow_deleteAllSettings (db : AppDatabase) (shopId shopDomain : string) :
  findShopRow (deleteAllSettings db shopId) shopDomain = findShopRow db shopDomain.
Proof. reflexivity. Qed.


Lemma uninstallAttempt_resolved (db : AppDatabase) (now : Z) (shop : string) :
  uninstallAttempt db now shop =
  Resolved match findShopRow db shop with
           | Some shopRecord =>
               deleteAllSettings (updateShopRows (uninstalled now) shop db)
                 (ShopRow.id shopRecord)
           | None => db
           end.
Proof.
  unfold uninstallAttempt, markShopUninstalled.
  destruct (findShopRow db shop); reflexivity.
Qed.


(** X26. A second delivery of the uninstall webhook leaves the database, the
    log and the answer of a single delivery at the later time: only the
    uninstall time moves. *)
Theorem uninstalledAction_redelivery (db : AppDatabase) (first second : Z)
    (shop topic : string) :
  uninstalledAction (uninstalledAction db first shop topic).1.1 second shop topic =
  uninstalledAction db second shop topic.
Proof.
  unfold uninstalledAction. rewrite !uninstallAttempt_resolved. cbn [fst snd].
  destruct (findShopRow db shop) as [shopRecord |] eqn:Hfind.
  - rewrite findShopRow_deleteAllSettings.
    rewrite findShopRow_update by reflexivity. rewrite String.eqb_refl, Hfind.
    cbn [fmap option_fmap option_map].
    change (ShopRow.id (uninstalled first shopRecord)) with (ShopRow.id shopRecord).
    do 2 f_equal.
    unfold deleteAllSettings. cbn [shopTable settingTable ruleTable updateShopRows].
    f_equal.
    + rewrite map_map. apply map_ext. intros row.
      destruct (String.eqb (ShopRow.shopDomain row) shop) eqn:Hrow; [| rewrite Hrow; reflexivity].
      change (ShopRow.shopDomain (uninstalled first row)) with (ShopRow.shopDomain row).
      rewrite Hrow. reflexivity.
    + apply filter_idempotent.
  - rewrite Hfind. reflexivity.
Qed.

Lemma length_zero_nonEmpty (s : string) : (String.length s =? 0)%nat = negb (nonEmpty s).
Proof. destruct s; reflexivity. Qed.

Lemma nonEmpty_ne (s : string) : nonEmpty s = true ↔ s ≠ "".
Proof. destruct s; simpl; split; congruence. Qed.

(** X27. The action of the rules page never changes a shop or a rule of a
    shop other than the one of the session. It answers [ok: true] only for
    the intent [create] with a field, an operator, and a value and a tag
    that are not empty after trimming, and has then stored exactly one
    further rule: enabled, of the session's shop, with the trimmed value and
    tag. It redirects only for the intent [toggle] with a rule id that is
    not empty, after toggling that rule of the session's shop. In every
    other case (an error, [ok: false], the 404 for a session without shop
    record) the database is unchanged. *)
Theorem productRulesAction_effect (db : Database) (newId : string) (now : Z)
    (sessionShop : string) (form : RuleForm.t) :
  match productRulesAction db newId now sessionShop form with
  | (db', effects, outcome) =>
      shops db' = shops db ∧
      (∀ other, findUniqueShop db sessionShop ≠ Some other →
                getRulesForShop db' other = getRulesForShop db other) ∧
      match outcome with
      | Returns (ActionData.mk None (Some true)) =>
          ∃ shopId field operator,
            findUniqueShop db sessionShop = Some shopId ∧
            RuleForm.intent form = Some "create" ∧
            RuleForm.field form = Some field ∧
            RuleForm.operator form = Some operator ∧
            trim (default "" (RuleForm.value form)) ≠ "" ∧
            trim (default "" (RuleForm.tag form)) ≠ "" ∧
            product_rules db' =
              (product_rules db ++
               [ProductRule.mk newId shopId field operator
                  (trim (default "" (RuleForm.value form)))
                  (trim (default "" (RuleForm.tag form))) true now])%list
      | ThrowsRedirect url =>
          url = "/app/product-rules" ∧
          ∃ shopId ruleId,
            findUniqueShop db sessionShop = Some shopId ∧
            RuleForm.intent form = Some "toggle" ∧
            RuleForm.ruleId form = Some ruleId ∧ ruleId ≠ "" ∧
            db' = toggleRuleEnabled db shopId ruleId
                    (bool_decide (RuleForm.enabled form = Some "true"))
      | ThrowsResponse body status =>
          status = 404 ∧ findUniqueShop db sessionShop = None ∧ db' = db
      | Returns _ => db' = db
      | Fails _ => False
      end
  end.
Proof.
  unfold productRulesAction.
  destruct (findUniqueShop db sessionShop) as [shopId |] eqn:Hshop; [| solve [repeat split; auto]].
  destruct (bool_decide (RuleForm.intent form = Some "create")) eqn:Hcreate.
  - apply bool_decide_eq_true in Hcreate.
    destruct (RuleForm.field form) as [field |] eqn:Hfield; [| solve [repeat split; auto]].
    destruct (RuleForm.operator form) as [operator |] eqn:Hoperator; [| solve [repeat split; auto]].
    rewrite !length_zero_nonEmpty.
    destruct (nonEmpty (trim (default "" (RuleForm.value form)))) eqn:Hvalue; [| solve [repeat split; auto]].
    destruct (nonEmpty (trim (default "" (RuleForm.tag form)))) eqn:Htag; [| solve [repeat split; auto]].
    cbn [negb orb].
    destruct (createRuleForShop _ _ _ _ _) as [[db' created] | error] eqn:Hresult;
      [| solve [repeat split; auto]].
    apply createRuleForShop_resolved in Hresult as (Hcreated & Hshops & Hrules).
    split; [exact Hshops |]. split.
    { intros other Hne. apply (getRulesForShop_created_other db db' created other Hrules).
      rewrite Hcreated. cbn [ProductRule.shopId]. congruence. }
    exists shopId, field, operator. apply nonEmpty_ne in Hvalue, Htag.
    repeat split; try assumption.
    rewrite Hrules, Hcreated. reflexivity.
  - destruct (bool_decide (RuleForm.intent form = Some "toggle")) eqn:Htoggle; [| solve [repeat split; auto]].
    apply bool_decide_eq_true in Htoggle.
    destruct (nonEmpty (default "" (RuleForm.ruleId form))) eqn:Hrule; [| solve [repeat split; auto]].
    cbn [negb].
    split; [reflexivity |]. split.
    { intros other Hne. apply getRulesForShop_toggle_other. congruence. }
    split; [reflexivity |].
    destruct (RuleForm.ruleId form) as [ruleId |]; [| discriminate].
    exists shopId, ruleId. apply nonEmpty_ne in Hrule. repeat split; assumption.
Qed.

Lemma falsy_default (v : option string) :
  (if falsy v then "" else default "" v) = default "" v.
Proof. destruct v as [[| c s] |]; reflexivity. Qed.

Lemma falsy_blank (v : option string) :
  falsy v || String.eqb (trim (default "" v)) "" = String.eqb (trim (default "" v)) "".
Proof. destruct v as [[| c s] |]; reflexivity. Qed.

(** X28. For a session whose shop has a record, with unique settings: the
    action of the settings page saves only under a key that is not blank;
    after a save the loader shows the former settings with the trimmed key
    set to the value (the empty string for a missing value; unchanged for
    the key [__proto__]), after a deletion the former settings without the
    trimmed key; the settings of other shops never change. A blank key gives
    an error and changes nothing. The action fails, changing nothing, when a
    setting to delete does not exist or when the fresh id of a new setting
    is already stored. *)
Theorem settingsAction_effect (db : AppDatabase) (newId sessionShop : string)
    (form : SettingsForm.t) (shop : ShopRow.t) :
  findShopRow db sessionShop = Some shop →
  uniqueSettings db →
  let shopId := ShopRow.id shop in
  let key := trim (default "" (SettingsForm.key form)) in
  match settingsAction db newId sessionShop form with
  | (db', Returns Success) =>
      key ≠ "" ∧
      settingsLoader db' sessionShop =
        Returns (shopId,
                 if String.eqb key "__proto__" then getAllSettings db shopId
                 else <[key := default "" (SettingsForm.value form)]> (getAllSettings db shopId)) ∧
      (∀ other, other ≠ shopId → getAllSettings db' other = getAllSettings db other)
  | (db', Returns SuccessDeleted) =>
      key ≠ "" ∧ is_Some (getSetting db shopId key) ∧
      settingsLoader db' sessionShop = Returns (shopId, delete key (getAllSettings db shopId)) ∧
      (∀ other, other ≠ shopId → getAllSettings db' other = getAllSettings db other)
  | (db', Returns (SettingsError _)) => db' = db ∧ key = ""
  | (db', Fails reason) =>
      db' = db ∧ key ≠ "" ∧ getSetting db shopId key = None ∧
      (reason = RecordNotFound ∧ SettingsForm._action form = Some "delete" ∨
       reason = UniqueConstraintFailed ∧ SettingsForm._action form ≠ Some "delete" ∧
       ∃ setting, setting ∈ settingTable db ∧ Setting.id setting = newId)
  | (_, _) => False
  end.
Proof.
  intros Hfind Hunique shopId key. unfold settingsAction, settingsLoader.
  rewrite Hfind, falsy_blank, falsy_default. fold shopId key.
  destruct (String.eqb key "") eqn:Hblank.
  { apply String.eqb_eq in Hblank. auto. }
  apply String.eqb_neq in Hblank.
  destruct (bool_decide (SettingsForm._action form = Some "delete")) eqn:Hdelete.
  - apply bool_decide_eq_true in Hdelete.
    destruct (deleteSetting db shopId key) as [db' | reason] eqn:Hresult.
    + apply deleteSetting_resolved in Hresult
        as (Hsome & Hnone & Hothers & Hshops & _ & Hunique').
      specialize (Hunique' Hunique).
      split; [exact Hblank |]. split; [exact Hsome |]. split.
      * unfold findShopRow. rewrite Hshops. fold (findShopRow db sessionShop).
        rewrite Hfind. fold shopId. do 2 f_equal. apply map_eq. intros k.
        rewrite getAllSettings_lookup by exact Hunique'.
        destruct (decide (k = key)) as [-> | Hk].
        -- rewrite lookup_delete_eq, Hnone. destruct (String.eqb key "__proto__"); reflexivity.
        -- rewrite lookup_delete_ne by congruence.
           rewrite getAllSettings_lookup by exact Hunique.
           rewrite Hothers by congruence. reflexivity.
      * intros other Hne. apply map_eq. intros k.
        rewrite !getAllSettings_lookup by assumption.
        rewrite Hothers by congruence. reflexivity.
    + apply deleteSetting_rejected in Hresult as [-> Hnone]. auto 6.
  - apply bool_decide_eq_false in Hdelete.
    destruct (setSetting db newId shopId key _) as [db' | reason] eqn:Hresult.
    + apply setSetting_resolved in Hresult as (Hset & Hothers & Hshops & _ & Hunique').
      specialize (Hunique' Hunique).
      split; [exact Hblank |]. split.
      * unfold findShopRow. rewrite Hshops. fold (findShopRow db sessionShop).
        rewrite Hfind. fold shopId. do 2 f_equal. apply map_eq. intros k.
        rewrite getAllSettings_lookup by exact Hunique'.
        destruct (String.eqb key "__proto__") eqn:Hproto.
        -- rewrite getAllSettings_lookup by exact Hunique.
           destruct (String.eqb k "__proto__") eqn:Hk; [reflexivity |].
           apply Hothers. apply String.eqb_eq in Hproto. apply String.eqb_neq in Hk.
           congruence.
        -- destruct (decide (k = key)) as [-> | Hk].
           ++ rewrite lookup_insert_eq, Hproto. exact Hset.
           ++ rewrite lookup_insert_ne by congruence.
              rewrite getAllSettings_lookup by exact Hunique.
              rewrite Hothers by congruence. reflexivity.
      * intros other Hne. apply map_eq. intros k.
        rewrite !getAllSettings_lookup by assumption.
        rewrite Hothers by congruence. reflexivity.
    + apply setSetting_rejected in Hresult as [Hnone [[-> Hid] | [-> Hforeign]]].
      * auto 7.
      * exfalso. destruct (findShopRow_domain _ _ _ Hfind) as [_ Hin].
        apply (Hforeign shop Hin). reflexivity.
Qed.

(** ** The backfill *)

Lemma allDigits_string_of_uint (d : Decimal.uint) :
  allDigits (NilEmpty.string_of_uint d) = true.
Proof. induction d; cbn [NilEmpty.string_of_uint allDigits]; try rewrite IHd; reflexivity. Qed.

Ltac digit_value :=
  match goal with
  | |- context [digitValue ?c] =>
      let v := eval vm_compute in (digitValue c) in change (digitValue c) with v
  end.

Lemma decimalValueFrom_of_uint_acc (d : Decimal.uint) (acc : positive) :
  decimalValueFrom (Zpos acc) (NilEmpty.string_of_uint d) = Zpos (Pos.of_uint_acc d acc).
Proof.
  revert acc. induction d; intros acc;
    cbn [NilEmpty.string_of_uint decimalValueFrom Pos.of_uint_acc];
    [reflexivity | rewrite <- IHd; f_equal; digit_value; lia ..].
Qed.

Lemma decimalValue_string_of_uint (d : Decimal.uint) :
  decimalValue (NilEmpty.string_of_uint d) = Z.of_N (Pos.of_uint d).
Proof.
  unfold decimalValue.
  induction d; cbn [NilEmpty.string_of_uint decimalValueFrom Pos.of_uint];
    [reflexivity | exact IHd | ..];
    digit_value; cbn [Z.mul Z.add Z.of_N]; apply decimalValueFrom_of_uint_acc.
Qed.

Lemma numberToString_pos (p : positive) :
  numberToString (Zpos p) = NilEmpty.string_of_uint (Pos.to_uint p).
Proof.
  unfold numberToString. cbn [Z.to_int NilZero.string_of_int]. unfold NilZero.string_of_uint.
  destruct (Pos.to_uint p) eqn:Hd; try reflexivity.
  exfalso. apply (DecimalPos.Unsigned.to_uint_nonnil _ Hd).
Qed.

Lemma numberToString_digits (n : Z) :
  0 ≤ n →
  allDigits (numberToString n) = true ∧ nonEmpty (numberToString n) = true ∧
  decimalValue (numberToString n) = n.
Proof.
  intros Hn. destruct n as [| p | p]; [repeat split | | lia].
  rewrite numberToString_pos. split; [apply allDigits_string_of_uint |]. split.
  - destruct (Pos.to_uint p) eqn:Hd; try reflexivity.
    exfalso. apply (DecimalPos.Unsigned.to_uint_nonnil _ Hd).
  - rewrite decimalValue_string_of_uint, DecimalPos.Unsigned.of_to. reflexivity.
Qed.

Lemma allDigits_slash (prefix digits : string) :
  allDigits (prefix ++ String "/" digits) = false.
Proof.
  induction prefix as [| c prefix IH]; [reflexivity |].
  rewrite append_String. cbn [allDigits]. rewrite IH. apply andb_false_r.
Qed.

Lemma matchTrailingDigits_slash (prefix digits : string) :
  allDigits digits = true → nonEmpty digits = true →
  matchTrailingDigits (prefix ++ String "/" digits) = Some digits.
Proof.
  intros Hall Hne. induction prefix as [| c prefix IH].
  - change ("" ++ String "/" digits)%string with (String "/" digits).
    cbn [matchTrailingDigits]. rewrite Hall, Hne. reflexivity.
  - rewrite append_String. cbn [matchTrailingDigits].
    rewrite allDigits_slash, andb_false_r. exact IH.
Qed.

Lemma spanDigits_allDigits (digits : string) :
  allDigits digits = true → spanDigits digits = (digits, "").
Proof.
  induction digits as [| c digits IH]; [reflexivity |].
  cbn [allDigits spanDigits]. intros H. apply andb_true_iff in H as [-> H].
  rewrite (IH H). reflexivity.
Qed.

Lemma readSign_trimStart_digit (c : ascii) (digits : string) :
  isDigit c = true →
  readSign (trimStart (String c digits)) = (false, String c digits).
Proof.
  intros Hc. destruct c as [[] [] [] [] [] [] [] []]; try discriminate Hc; reflexivity.
Qed.

Lemma parseInt10_digits (digits : string) :
  allDigits digits = true → nonEmpty digits = true →
  parseInt10 digits = decimalToNumber false (decimalValue digits) 0.
Proof.
  intros Hall Hne. unfold parseInt10.
  destruct digits as [| c digits]; [discriminate |].
  pose proof Hall as Hc. cbn [allDigits] in Hc. apply andb_true_iff in Hc as [Hc _].
  rewrite (readSign_trimStart_digit c digits Hc), (spanDigits_allDigits _ Hall).
  reflexivity.
Qed.

Lemma decimalToNumber_integer (n : Z) : 0 ≤ n → decimalToNumber false n 0 = ofZ n.
Proof.
  intros Hn. destruct n as [| p | p]; [reflexivity | | lia].
  unfold decimalToNumber. cbn [Z.leb Z.compare]. change (10 ^ 0) with 1.
  rewrite Z.mul_1_r. reflexivity.
Qed.

Lemma integerOf_ofZ (n : Z) : 0 ≤ n < 2 ^ 53 → integerOf (ofZ n) = Some n.
Proof.
  intros [Hn Hbound]. destruct n as [| p | p]; [reflexivity | | lia].
  pose proof (digits_pos p) as Hp1.
  assert (Hp : digits p ≤ 53) by (apply (digits_bound p 53); exact Hbound).
  rewrite ofZ_pos by exact Hp. unfold canonical, integerOf. cbn [cond_Zopp].
  f_equal. rewrite Zpos_shl. destruct (0 <=? digits p - 53) eqn:He.
  - apply Z.leb_le in He. replace (digits p - 53) with 0 by lia.
    replace (Z.of_nat (Z.to_nat (53 - digits p))) with 0 by lia. simpl. lia.
  - apply Z.leb_gt in He. rewrite Z2Nat.id by lia.
    replace (- (digits p - 53)) with (53 - digits p) by lia.
    apply Z.div_mul. apply Z.pow_nonzero; lia.
Qed.

(** X29. For a product of the query whose id is [gid://shopify/Product/]
    followed by the decimal notation of an integer from 0 to below 2^53, the
    payload of the backfill has this integer as [id], and the mapper gives
    the payload the id of the product back. *)
Theorem backfill_id_round_trip (n : Z) (vendor : option string)
    (tags : option (list string)) (variants : list GraphQLVariant.t) :
  0 ≤ n < 2 ^ 53 →
  let gid := ("gid://shopify/Product/" ++ numberToString n)%string in
  ∃ payload,
    graphQLProductToWebhookPayload (GraphQLProduct.mk gid vendor tags variants)
      = Some payload ∧
    ProductWebhookPayload.id payload = n ∧
    MappedProduct.shopifyProductId (mapWebhookPayloadToProduct payload) = gid.
Proof.
  intros Hn gid.
  destruct (numberToString_digits n (proj1 Hn)) as (Hall & Hne & Hvalue).
  unfold graphQLProductToWebhookPayload. cbn [GraphQLProduct.id].
  assert (Hmatch : matchTrailingDigits gid = Some (numberToString n)).
  { apply (matchTrailingDigits_slash "gid://shopify/Product" (numberToString n) Hall Hne). }
  rewrite Hmatch, parseInt10_digits, Hvalue by assumption.
  rewrite decimalToNumber_integer, integerOf_ofZ by lia.
  eexists. split; [reflexivity |]. split; reflexivity.
Qed.

Lemma countOrZero_numberOrNull (price : option string) (n : option number) :
  plainCount n = true →
  countOrZero (Variant.mk price (numberOrNull n)) = default (ofZ 0) n.
Proof.
  destruct n as [[[] | | |] |]; try discriminate; reflexivity.
Qed.

Lemma concat_nonEmpty (tag : string) (tags : list string) :
  nonEmpty tag = true → nonEmpty (String.concat ", " (tag :: tags)) = true.
Proof.
  intros Htag. destruct tag as [| c tag]; [discriminate |].
  destruct tags; [reflexivity |]. rewrite concat_cons_cons, append_String. reflexivity.
Qed.

(** X30. When the tags of a product of the query are not empty, have no
    white space around them and no comma, and no inventory quantity is NaN
    or the negative zero, the mapper reads from the payload of the backfill:
    the tags of the product in their order; as total inventory the sum of
    the quantities, a missing one counting as zero; as price the number read
    from the price of the first variant, null when there is no variant or no
    number; and as vendor the vendor, null for an empty one. *)
Theorem backfill_product_read_back (product : GraphQLProduct.t)
    (payload : ProductWebhookPayload.t) :
  graphQLProductToWebhookPayload product = Some payload →
  Forall (fun tag => cleanTag tag = true) (default [] (GraphQLProduct.tags product)) →
  Forall (fun node => plainCount (GraphQLVariant.inventoryQuantity node) = true)
         (GraphQLProduct.variants product) →
  let mapped := mapWebhookPayloadToProduct payload in
  MappedProduct.existingTags mapped = default [] (GraphQLProduct.tags product) ∧
  ProductForEvaluation.totalInventory (MappedProduct.productForEvaluation mapped) =
    Some (fold_left add
            (map (fun node => default (ofZ 0) (GraphQLVariant.inventoryQuantity node))
                 (GraphQLProduct.variants product))
            (ofZ 0)) ∧
  ProductForEvaluation.price (MappedProduct.productForEvaluation mapped) =
    match GraphQLProduct.variants product with
    | node :: _ =>
        let price := parseFloat (GraphQLVariant.price node) in
        if isNaN price then None else Some price
    | [] => None
    end ∧
  ProductForEvaluation.vendor (MappedProduct.productForEvaluation mapped) =
    stringOrNull (GraphQLProduct.vendor product).
Proof.
  intros Hpayload Htags Hcounts mapped. subst mapped.
  unfold graphQLProductToWebhookPayload in Hpayload.
  destruct (match matchTrailingDigits (GraphQLProduct.id product) with
            | Some digits => integerOf (parseInt10 digits)
            | None => Some 0
            end) as [id |]; [| discriminate].
  cbn in Hpayload. injection Hpayload as <-.
  unfold mapWebhookPayloadToProduct.
  cbn [MappedProduct.existingTags MappedProduct.productForEvaluation
       ProductForEvaluation.totalInventory ProductForEvaluation.price
       ProductForEvaluation.vendor ProductWebhookPayload.tags
       ProductWebhookPayload.variants ProductWebhookPayload.vendor].
  split; [| split; [| split]].
  - destruct (GraphQLProduct.tags product) as [[| tag tags] |]; try reflexivity.
    cbn [default] in Htags. cbn [fmap option_fmap option_map].
    unfold stringOrNull, falsy.
    assert (Htag : nonEmpty tag = true).
    { inversion Htags as [| ? ? Hclean Hrest]. apply cleanTag_spec in Hclean as (Hnonempty & _).
      destruct tag; [contradiction | reflexivity]. }
    rewrite (concat_nonEmpty tag tags Htag). cbn [negb default fmap option_fmap option_map].
    apply (parse_joined_tags "" (tag :: tags)); [reflexivity | reflexivity | discriminate |].
    exact Htags.
  - cbn [fmap option_fmap option_map]. f_equal.
    rewrite (fold_left_add_map
               (map (fun node =>
                       Variant.mk (stringOrNull (Some (GraphQLVariant.price node)))
                         (numberOrNull (GraphQLVariant.inventoryQuantity node)))
                    (GraphQLProduct.variants product))).
    f_equal. rewrite map_map. apply map_ext_Forall.
    eapply Forall_impl; [exact Hcounts |]. intros node Hnode.
    apply countOrZero_numberOrNull, Hnode.
  - destruct (GraphQLProduct.variants product) as [| node nodes]; [reflexivity |].
    cbn [map mbind option_bind head]. unfold stringOrNull, falsy.
    destruct (GraphQLVariant.price node) as [| c price] eqn:Hprice; [reflexivity |].
    cbn [nonEmpty negb Variant.price from_option]. unfold Datatypes.id.
    destruct (isNaN (parseFloat (String c price))); reflexivity.
  - reflexivity.
Qed.

(** ** The further properties at concrete inputs *)

Lemma toggleRuleEnabled_commute_witness :
  ¬ ("rule-1" = "rule-2" ∧ "shop-1" = "shop-1") ∧
  toggleRuleEnabled
    (toggleRuleEnabled (shopDatabase [expensiveRule; disabledRule]) "shop-1" "rule-2" true)
    "shop-1" "rule-1" false =
  toggleRuleEnabled
    (toggleRuleEnabled (shopDatabase [expensiveRule; disabledRule]) "shop-1" "rule-1" false)
    "shop-1" "rule-2" true.
Proof.
  assert (Hdiff : ¬ ("rule-1" = "rule-2" ∧ "shop-1" = "shop-1"))
    by (intros [H _]; discriminate H).
  split; [exact Hdiff |].
  exact (toggleRuleEnabled_commute (shopDatabase [expensiveRule; disabledRule])
           "shop-1" "rule-1" "shop-1" "rule-2" false true Hdiff).
Defined.

Lemma price_rule_one_operator_witness :
  isNaN (ofZ 120) = false ∧ readsAsFloat "100" = true ∧
  ∃ above below equal,
    evaluateSingleRule (pricedAt 120) (withOperator RuleOperator.gt expensiveRule)
      = Normal above ∧
    evaluateSingleRule (pricedAt 120) (withOperator RuleOperator.lt expensiveRule)
      = Normal below ∧
    evaluateSingleRule (pricedAt 120) (withOperator RuleOperator.eq expensiveRule)
      = Normal equal ∧
    exactlyOne above below equal.
Proof.
  split; [reflexivity |]. split; [reflexivity |].
  apply (price_rule_one_operator (pricedAt 120) expensiveRule (ofZ 120));
    reflexivity.
Defined.

Lemma mergeProductTags_order_witness :
  mergeProductTags ["sale"] ["expensive"; "sale"; "expensive"] = Some ["sale"; "expensive"] ∧
  ["sale"; "expensive"] = (newSet ["sale"] ++ newTags ["sale"] ["expensive"; "sale"; "expensive"])%list ∧
  newTags ["sale"] ["expensive"; "sale"; "expensive"] ≠ [] ∧
  (NoDup ["sale"] →
   ["sale"; "expensive"] = (["sale"] ++ newTags ["sale"] ["expensive"; "sale"; "expensive"])%list).
Proof.
  assert (Hmerge : mergeProductTags ["sale"] ["expensive"; "sale"; "expensive"]
                   = Some ["sale"; "expensive"]) by (vm_compute; reflexivity).
  split; [exact Hmerge |].
  exact (mergeProductTags_order ["sale"] ["expensive"; "sale"; "expensive"]
           ["sale"; "expensive"] Hmerge).
Defined.

Lemma unclean_rule_tag_always_updates_witness :
  commaRule ∈ storedRuleList (shopDatabase [commaRule]) "shop-1.myshopify.com" ∧
  cleanTag (ProductRule.tag commaRule) = false ∧
  ∃ input,
    mutationCalls
      (applyProductRulesForShop (shopDatabase [commaRule]) "shop-1.myshopify.com"
         quietAdmin (payloadPricedAt "120.00" "big, bulky")).1 = [input] ∧
    ProductRule.tag commaRule ∈ ProductInput.tags input.
Proof.
  assert (Hin : commaRule ∈ storedRuleList (shopDatabase [commaRule]) "shop-1.myshopify.com")
    by (vm_compute; apply list_elem_of_here).
  split; [exact Hin |]. split; [vm_compute; reflexivity |].
  apply (unclean_rule_tag_always_updates (shopDatabase [commaRule]) "shop-1.myshopify.com"
           quietAdmin (payloadPricedAt "120.00" "big, bulky") commaRule Hin);
    vm_compute; reflexivity.
Defined.

Lemma redelivery_after_update_witness :
  mutationCalls
    (applyProductRulesForShop (shopDatabase [expensiveRule]) "shop-1.myshopify.com"
       quietAdmin (payloadPricedAt "120.00" "sale")).1 =
    [ProductInput.mk "gid://shopify/Product/42" ["sale"; "expensive"]] ∧
  mutationCalls
    (applyProductRulesForShop (shopDatabase [expensiveRule]) "shop-1.myshopify.com"
       quietAdmin
       (withTags (payloadPricedAt "120.00" "sale") (String.concat ", " ["sale"; "expensive"]))).1
    = [].
Proof.
  assert (Hcall : mutationCalls
            (applyProductRulesForShop (shopDatabase [expensiveRule]) "shop-1.myshopify.com"
               quietAdmin (payloadPricedAt "120.00" "sale")).1 =
            [ProductInput.mk "gid://shopify/Product/42" ["sale"; "expensive"]])
    by (vm_compute; reflexivity).
  split; [exact Hcall |].
  refine (redelivery_after_update (shopDatabase [expensiveRule]) "shop-1.myshopify.com"
            quietAdmin (payloadPricedAt "120.00" "sale")
            (ProductInput.mk "gid://shopify/Product/42" ["sale"; "expensive"]) _ Hcall).
  intros rule Hin _.
  change (storedRuleList (shopDatabase [expensiveRule]) "shop-1.myshopify.com")
    with [expensiveRule] in Hin.
  apply list_elem_of_singleton in Hin. rewrite Hin. reflexivity.
Defined.

Lemma applyProductRulesForShop_tenant_witness :
  findUniqueShop (shopDatabase [expensiveRule]) "shop-1.myshopify.com" ≠ Some "shop-2" ∧
  applyProductRulesForShop
    (toggleRuleEnabled (shopDatabase [expensiveRule]) "shop-2" "rule-1" false)
    "shop-1.myshopify.com" quietAdmin (payloadPricedAt "120.00" "sale")
  = applyProductRulesForShop (shopDatabase [expensiveRule]) "shop-1.myshopify.com"
      quietAdmin (payloadPricedAt "120.00" "sale").
Proof.
  assert (Hother : findUniqueShop (shopDatabase [expensiveRule]) "shop-1.myshopify.com"
                   ≠ Some "shop-2") by (vm_compute; discriminate).
  split; [exact Hother |].
  exact (proj1 (applyProductRulesForShop_tenant (shopDatabase [expensiveRule])
                  "shop-1.myshopify.com" quietAdmin (payloadPricedAt "120.00" "sale")
                  "shop-2" "rule-1" false Hother)).
Defined.

Lemma uniqueSettings_sampleStore : uniqueSettings sampleStore.
Proof.
  unfold uniqueSettings. cbn.
  apply NoDup_cons. split; [| apply NoDup_singleton].
  intros Hin. apply list_elem_of_singleton in Hin. discriminate Hin.
Qed.

Lemma getAllSettings_getSetting_witness :
  uniqueSettings sampleStore ∧
  getAllSettings sampleStore "shop-1" !! "theme" =
    (if String.eqb "theme" "__proto__" then None else getSetting sampleStore "shop-1" "theme") ∧
  getAllSettings
    {| shopTable := shopTable sampleStore;
       settingTable := rev (settingTable sampleStore);
       ruleTable := ruleTable sampleStore |} "shop-1"
  = getAllSettings sampleStore "shop-1".
Proof.
  split; [exact uniqueSettings_sampleStore |].
  destruct (getAllSettings_getSetting sampleStore
              {| shopTable := shopTable sampleStore;
                 settingTable := rev (settingTable sampleStore);
                 ruleTable := ruleTable sampleStore |}
              "shop-1" uniqueSettings_sampleStore) as [Hlookup Hperm].
  split; [exact (Hlookup "theme") |].
  apply Hperm. cbn [settingTable]. symmetry. apply Permutation_rev.
Defined.

Lemma reinstall_after_uninstall_witness :
  findShopRow sampleStore "shop-2.myshopify.com" =
    Some (ShopRow.mk "shop-2" "shop-2.myshopify.com" "token-2" 20 (Some 30)) ∧
  ∃ db1 db2,
    markShopUninstalled sampleStore 40 "shop-2.myshopify.com" = Resolved db1 ∧
    upsertShop db1 "shop-3" 50 (Session.mk "shop-2.myshopify.com" "token-3") =
      Resolved (db2, ShopData.mk "shop-2.myshopify.com" "token-3" 20) ∧
    findShopRow db2 "shop-2.myshopify.com" =
      Some (reinstalled "token-3"
              (ShopRow.mk "shop-2" "shop-2.myshopify.com" "token-2" 20 (Some 30))) ∧
    isShopInstalled db2 "shop-2.myshopify.com" = true ∧
    ruleStore db2 = ruleStore sampleStore ∧
    settingTable db2 = settingTable sampleStore.
Proof.
  split; [reflexivity |].
  exact (reinstall_after_uninstall sampleStore
           (ShopRow.mk "shop-2" "shop-2.myshopify.com" "token-2" 20 (Some 30))
           "shop-3" 40 50 (Session.mk "shop-2.myshopify.com" "token-3") eq_refl).
Defined.

Lemma settingsAction_effect_witness :
  findShopRow sampleStore "shop-1.myshopify.com" =
    Some (ShopRow.mk "shop-1" "shop-1.myshopify.com" "token-1" 10 None) ∧
  uniqueSettings sampleStore ∧
  match settingsAction sampleStore "setting-3" "shop-1.myshopify.com"
          (SettingsForm.mk (Some " theme ") (Some "light") None) with
  | (db', Returns Success) =>
      settingsLoader db' "shop-1.myshopify.com" =
        Returns ("shop-1", <["theme" := "light"]> (getAllSettings sampleStore "shop-1")) ∧
      (∀ other, other ≠ "shop-1" → getAllSettings db' other = getAllSettings sampleStore other)
  | _ => False
  end.
Proof.
  split; [reflexivity |]. split; [exact uniqueSettings_sampleStore |].
  pose proof (settingsAction_effect sampleStore "setting-3" "shop-1.myshopify.com"
                (SettingsForm.mk (Some " theme ") (Some "light") None)
                (ShopRow.mk "shop-1" "shop-1.myshopify.com" "token-1" 10 None)
                eq_refl uniqueSettings_sampleStore) as H.
  cbv zeta in H.
  destruct (settingsAction sampleStore "setting-3" "shop-1.myshopify.com"
              (SettingsForm.mk (Some " theme ") (Some "light") None)) as [db' outcome] eqn:Hrun.
  vm_compute in Hrun. injection Hrun as <- <-.
  destruct H as (_ & Hloader & Hothers). split; [exact Hloader | exact Hothers].
Defined.

Lemma backfill_id_round_trip_witness :
  0 ≤ 42 < 2 ^ 53 ∧
  ∃ payload,
    graphQLProductToWebhookPayload
      (GraphQLProduct.mk "gid://shopify/Product/42" (Some "Acme") None []) = Some payload ∧
    ProductWebhookPayload.id payload = 42 ∧
    MappedProduct.shopifyProductId (mapWebhookPayloadToProduct payload)
      = "gid://shopify/Product/42".
Proof.
  assert (Hrange : 0 ≤ 42 < 2 ^ 53) by (split; [lia | reflexivity]).
  split; [exact Hrange |].
  exact (backfill_id_round_trip 42 (Some "Acme") None [] Hrange).
Defined.

Lemma backfill_product_read_back_witness :
  ∃ payload,
    graphQLProductToWebhookPayload sampleProduct = Some payload ∧
    MappedProduct.existingTags (mapWebhookPayloadToProduct payload) = ["sale"; "new"] ∧
    ProductForEvaluation.totalInventory
      (MappedProduct.productForEvaluation (mapWebhookPayloadToProduct payload)) =
      Some (fold_left add [ofZ 0; ofZ 3] (ofZ 0)).
Proof.
  eexists. split; [vm_compute; reflexivity |].
  assert (Htags : Forall (fun tag => cleanTag tag = true)
                    (default [] (GraphQLProduct.tags sampleProduct)))
    by (repeat constructor).
  assert (Hcounts : Forall (fun node => plainCount (GraphQLVariant.inventoryQuantity node) = true)
                      (GraphQLProduct.variants sampleProduct))
    by (repeat constructor).
  pose proof (backfill_product_read_back sampleProduct _ eq_refl Htags Hcounts) as H.
  cbv zeta in H. destruct H as (Hexisting & Hinventory & _).
  split; [exact Hexisting | exact Hinventory].
Defined.
